(** * The CAB-LAB data cube engine (cablab/cube.py)

    A shallow embedding of the cube engine: the grid layout [CubeConfig],
    the weighted-averaging source provider, the writer [Cube.update] with
    its year partitions, and the reader [CubeData].

    Conventions of the embedding.
    - Python integers are [Z].  Python floats (degrees, resolutions,
      weights) are read in two ways.  Module [B64] gives the grid
      arithmetic of [CubeConfig] and of [CubeData.get] in binary64, every
      operation rounding its exact result to the nearest double, for the
      statements that depend on a comparison or a rounded index.  The
      definitions outside [B64] compute with the exact rationals [Q]
      the floats denote; they carry the statements that do not hinge on
      rounding (which slots are touched, which files are written, what an
      argument resolves to).
    - A [datetime] is its number of microseconds since 0001-01-01T00:00,
      the resolution of Python's datetime; a [timedelta] is a number of
      microseconds.
    - A Python call that may raise returns a [result]: [Ok v] or
      [Raised e].
    - Files, open handles and the provider are explicit state. *)

From Stdlib Require Import ZArith QArith Qround Qabs Qpower Lia Lqa List Bool.
From Stdlib Require Import String Ascii.
From stdpp Require Import gmap strings list fin_maps.

Import ListNotations.
Local Open Scope Z_scope.

(* ===================================================================== *)
(** * Python preliminaries *)
(* ===================================================================== *)

(** The exception classes the engine raises or lets through. *)
Inductive exn : Type :=
| ValueError (msg : string)
| TypeError (msg : string)
| KeyError (key : string)
| AttributeError (msg : string)
| IndexError (msg : string)
| IOError (msg : string)
| ZeroDivisionError
| OverflowError
| ProviderError (msg : string)
| BackendError (msg : string).

Inductive result (A : Type) : Type :=
| Ok (a : A)
| Raised (e : exn).
Arguments Ok {A} a.
Arguments Raised {A} e.

Definition rbind {A B} (r : result A) (k : A -> result B) : result B :=
  match r with
  | Ok a => k a
  | Raised e => Raised e
  end.

Notation "'let?' x ':=' r 'in' k" := (rbind r (fun x => k))
  (at level 10, x name, r at level 100, k at level 200).

Definition is_ok {A} (r : result A) : bool :=
  match r with Ok _ => true | Raised _ => false end.

(** Comparisons of rationals as booleans, the way the Python tests read. *)
Definition Qltb (x y : Q) : bool := negb (Qle_bool y x).
Definition Qleb (x y : Q) : bool := Qle_bool x y.
Definition Qgtb (x y : Q) : bool := Qltb y x.
Definition Qgeb (x y : Q) : bool := Qleb y x.
Definition Qeqb (x y : Q) : bool := Qeq_bool x y.

(** Python 3 [round(x)] on a number: nearest integer, ties to even. *)
Definition py_round (q : Q) : Z :=
  let f := Qfloor q in
  match Qcompare (q - inject_Z f) (1 # 2) with
  | Lt => f
  | Gt => f + 1
  | Eq => if Z.even f then f else f + 1
  end.

(** Python [x % m] on numbers: the result has the sign of [m]. *)
Definition py_mod (x m : Q) : Q :=
  (x - inject_Z (Qfloor (x / m)) * m)%Q.

(** An argument that is either a scalar or a 2-element iterable. *)
Inductive range_arg (A : Type) : Type :=
| Scalar (a : A)
| Pair (a b : A).
Arguments Scalar {A} a.
Arguments Pair {A} a b.

(** [try: x, y = arg / except TypeError: x = y = arg]. *)
Definition unpack_range {A} (arg : range_arg A) : A * A :=
  match arg with
  | Scalar a => (a, a)
  | Pair a b => (a, b)
  end.

(* ===================================================================== *)
(** * datetime *)
(* ===================================================================== *)

Definition datetime := Z.
Definition timedelta := Z.

Definition us_per_day : Z := 86400000000.

(** [timedelta(days=n)]. *)
Definition timedelta_days (n : Z) : timedelta := n * us_per_day.

(** Python's [_is_leap], [_days_before_year], [_days_before_month] and
    [_ymd2ord] (module datetime). *)
Definition is_leap (year : Z) : bool :=
  (year mod 4 =? 0) && (negb (year mod 100 =? 0) || (year mod 400 =? 0)).

Definition days_before_year (year : Z) : Z :=
  let y := year - 1 in
  y * 365 + y / 4 - y / 100 + y / 400.

Definition days_in_month (year month : Z) : Z :=
  match month with
  | 2 => if is_leap year then 29 else 28
  | 4 | 6 | 9 | 11 => 30
  | _ => 31
  end.

Fixpoint days_before_month_aux (year : Z) (m : nat) : Z :=
  match m with
  | O => 0
  | S m' => days_before_month_aux year m' + days_in_month year (Z.of_nat m)
  end.

Definition days_before_month (year month : Z) : Z :=
  days_before_month_aux year (Z.to_nat (month - 1)).

Definition ymd2ord (year month day : Z) : Z :=
  days_before_year year + days_before_month year month + day.

(** [datetime(year, month, day)]: midnight of that day. *)
Definition mk_datetime (year month day : Z) : datetime :=
  (ymd2ord year month day - 1) * us_per_day.

(** [dt.toordinal()] and [dt.year] (Python's [_ord2ymd], year part). *)
Definition toordinal (dt : datetime) : Z := dt / us_per_day + 1.

Definition ord2year (ordinal : Z) : Z :=
  let n := ordinal - 1 in
  let n400 := n / 146097 in
  let n := n mod 146097 in
  let n100 := n / 36524 in
  let n := n mod 36524 in
  let n4 := n / 1461 in
  let n := n mod 1461 in
  let n1 := n / 365 in
  let year := n400 * 400 + 1 + n100 * 100 + n4 * 4 + n1 in
  if (n1 =? 4) || (n100 =? 4) then year - 1 else year.

Definition year_of (dt : datetime) : Z := ord2year (toordinal dt).

(** Days in a calendar year, as the distance of two consecutive Jan 1. *)
Definition year_days (year : Z) : Z := if is_leap year then 366 else 365.

(* ===================================================================== *)
(** * CubeConfig *)
(* ===================================================================== *)

Record CubeConfig : Type := mkCubeConfig {
  spatial_res : Q;
  grid_x0 : Z;
  grid_y0 : Z;
  grid_width : Z;
  grid_height : Z;
  temporal_res : Z;
  calendar : string;
  ref_time : datetime;
  start_time : option datetime;
  end_time : option datetime;
  file_format : string;
  compression : bool
}.

Definition northing (c : CubeConfig) : Q :=
  (90 - inject_Z (grid_y0 c) * spatial_res c)%Q.

Definition easting (c : CubeConfig) : Q :=
  (-180 + inject_Z (grid_x0 c) * spatial_res c)%Q.

(** The two intervals [_validate] derives from the grid, as real
    numbers: the formulas of the specification, without rounding. *)
Definition lat1 (c : CubeConfig) : Q :=
  (90 - inject_Z (grid_y0 c + grid_height c) * spatial_res c)%Q.
Definition lat2 (c : CubeConfig) : Q :=
  (90 - inject_Z (grid_y0 c) * spatial_res c)%Q.
Definition lon1 (c : CubeConfig) : Q :=
  (-180 + inject_Z (grid_x0 c) * spatial_res c)%Q.
Definition lon2 (c : CubeConfig) : Q :=
  (-180 + inject_Z (grid_x0 c + grid_width c) * spatial_res c)%Q.

(** The default configuration of the constructor's signature. *)
Definition default_config : CubeConfig :=
  mkCubeConfig (1 # 4) 0 0 1440 720 8 "gregorian" (mk_datetime 2001 1 1)
    (Some (mk_datetime 2001 1 1)) (Some (mk_datetime 2011 1 1))
    "NETCDF4_CLASSIC" false.

(* ===================================================================== *)
(** * A state-and-exception monad for the stateful parts *)
(* ===================================================================== *)

(** A computation over a store [S]: it ends in a value or an exception,
    and in both cases leaves a store behind (what was mutated before a
    [raise] stays mutated). *)
Definition M (S A : Type) : Type := S -> result A * S.

Definition ret {S A} (a : A) : M S A := fun s => (Ok a, s).
Definition raise {S A} (e : exn) : M S A := fun s => (Raised e, s).
Definition bind {S A B} (m : M S A) (k : A -> M S B) : M S B :=
  fun s => match m s with
           | (Ok a, s') => k a s'
           | (Raised e, s') => (Raised e, s')
           end.
Definition gets {S A} (f : S -> A) : M S A := fun s => (Ok (f s), s).
Definition modify {S} (f : S -> S) : M S unit := fun s => (Ok tt, f s).
Definition lift_result {S A} (r : result A) : M S A := fun s => (r, s).

Notation "x <- m ;; k" := (bind m (fun x => k))
  (at level 100, m at next level, right associativity).
Notation "m ;;; k" := (bind m (fun _ => k))
  (at level 100, right associativity).

(** [for x in xs: body x]. *)
Fixpoint for_each {S A} (xs : list A) (body : A -> M S unit) : M S unit :=
  match xs with
  | [] => ret tt
  | x :: xs' => body x ;;; for_each xs' body
  end.

(* ===================================================================== *)
(** * CubeData: the reader *)
(* ===================================================================== *)

(** Values a caller may pass as the [variable] argument of [get]. *)
#[warnings="-register-all"]
Inductive pyval : Type :=
| PStr (s : string)
| PInt (i : Z)
| PSeq (items : list pyval).

(** Open dataset handles of the process: a handle is live from the call
    that opens it until its [close()]. *)
Definition handle := nat.

Record handles : Type := mkHandles {
  next_handle : handle;
  live : gset handle
}.

Definition no_handles : handles := mkHandles 0%nat ∅.

Definition open_handle (hs : handles) : handle * handles :=
  (next_handle hs,
   mkHandles (S (next_handle hs)) ({[ next_handle hs ]} ∪ live hs)).

Definition close_handle (h : handle) (hs : handles) : handles :=
  mkHandles (next_handle hs) (live hs ∖ {[ h ]}).

Record CubeData : Type := mkCubeData {
  cube_config : CubeConfig;
  _dataset_files : list (list string);
  _var_index_to_var_name : gmap Z string;
  _var_name_to_var_index : gmap string Z;
  _datasets : list (option handle);
  _variables : list (option handle)
}.

(** One entry of a directory listing: a plain file, or a sub-directory
    with its own entries. *)
Inductive dir_entry : Type :=
| File (name : string)
| Dir (name : string) (entries : list string).

Definition endswith_nc (s : string) : bool :=
  let n := String.length s in
  (3 <=? n)%nat && String.eqb (substring (n - 3) 3 s) ".nc".

Fixpoint insert_sorted (s : string) (l : list string) : list string :=
  match l with
  | [] => [s]
  | x :: l' => if String.leb s x then s :: l else x :: insert_sorted s l'
  end.

(** [sorted(names)]. *)
Definition sorted (l : list string) : list string :=
  fold_right insert_sorted [] l.

Definition path_join (a b : string) : string := a +:+ "/" +:+ b.

(** The discovery loop of [CubeData.__init__]: one variable per
    sub-directory of [data_dir], numbered in listing order. *)
Fixpoint discover (data_dir : string) (entries : list dir_entry)
    (var_index : Z) (d : CubeData) : CubeData :=
  match entries with
  | [] => d
  | File _ :: rest => discover data_dir rest var_index d
  | Dir var_name var_dir_entries :: rest =>
      let var_dir := path_join data_dir var_name in
      let files := map (path_join var_dir)
                       (sorted (List.filter endswith_nc var_dir_entries)) in
      discover data_dir rest (var_index + 1)
        (mkCubeData (cube_config d)
           (_dataset_files d ++ [files])
           (<[ var_index := var_name ]> (_var_index_to_var_name d))
           (<[ var_name := var_index ]> (_var_name_to_var_index d))
           (_datasets d) (_variables d))
  end.

(** [CubeData(cube)], given the listing of [<base_dir>/data]. *)
Definition CubeData_init (config : CubeConfig) (base_dir : string)
    (data_dir_entries : list dir_entry) : CubeData :=
  let d := discover (path_join base_dir "data") data_dir_entries 0
             (mkCubeData config [] ∅ ∅ [] []) in
  mkCubeData (cube_config d) (_dataset_files d)
    (_var_index_to_var_name d) (_var_name_to_var_index d)
    (replicate (length (_dataset_files d)) None)
    (replicate (length (_dataset_files d)) None).

(** ** Argument normalisation

    Latitudes and longitudes are exact rationals here and in the index
    computation below; [B64] has the same functions in binary64. *)

(** Items produced by [for v in variable]; an integer is not iterable. *)
Definition py_iter (v : pyval) : result (list pyval) :=
  match v with
  | PStr s => Ok (map (fun a => PStr (String a EmptyString)) (list_ascii_of_string s))
  | PSeq items => Ok items
  | PInt _ => Raised (TypeError "'int' object is not iterable")
  end.

(** [self._var_name_to_var_index[v]]: [None] stands for the [KeyError]
    or [TypeError] that the caller catches. *)
Definition lookup_name (d : CubeData) (v : pyval) : option Z :=
  match v with
  | PStr s => _var_name_to_var_index d !! s
  | _ => None
  end.

(** [self._var_index_to_var_name[v]], likewise. *)
Definition lookup_index (d : CubeData) (v : pyval) : option Z :=
  match v with
  | PInt i => match _var_index_to_var_name d !! i with
              | Some _ => Some i
              | None => None
              end
  | _ => None
  end.

Definition illegal_variable : exn := ValueError "illegal variable argument".

(** The loop over the items of an iterable [variable]. *)
Fixpoint resolve_items (d : CubeData) (items : list pyval)
    (var_indexes : list Z) : result (list Z) :=
  match items with
  | [] => Ok var_indexes
  | v :: rest =>
      match lookup_name d v with
      | Some var_index => resolve_items d rest (var_indexes ++ [var_index])
      | None =>
          match lookup_index d v with
          | Some var_index => resolve_items d rest (var_indexes ++ [var_index])
          | None => Raised illegal_variable
          end
      end
  end.

Definition _get_var_indices (d : CubeData) (variable : pyval)
    : result (list Z) :=
  match lookup_name d variable with
  | Some var_index => Ok [var_index]
  | None =>
      match lookup_index d variable with
      | Some i => Ok [i]
      | None =>
          let? items := py_iter variable in
          resolve_items d items []
      end
  end.

Definition _get_time_range (time : range_arg datetime)
    : result (datetime * datetime) :=
  let '(time_1, time_2) := unpack_range time in
  if time_1 >? time_2 then Raised (ValueError "invalid time argument")
  else Ok (time_1, time_2).

Definition _get_lat_range (latitude : range_arg Q) : result (Q * Q) :=
  let '(lat_1, lat_2) := unpack_range latitude in
  if Qltb lat_1 (-90) || Qgtb lat_1 90 || Qltb lat_2 (-90) || Qgtb lat_2 90
     || Qgtb lat_1 lat_2
  then Raised (ValueError "invalid latitude argument")
  else Ok (lat_1, lat_2).

(** The per-endpoint adjustment of [_get_lon_range]. *)
Definition adjust_lon (lon : Q) : Q :=
  let lon := if Qltb lon (-180) then py_mod lon 180 else lon in
  if Qgtb lon 180 then py_mod lon (-180) else lon.

Definition _get_lon_range (longitude : range_arg Q) : Q * Q :=
  let '(lon_1, lon_2) := unpack_range longitude in
  let lon_1 := adjust_lon lon_1 in
  let lon_2 := adjust_lon lon_2 in
  let lon_2 := if Qgtb lon_1 lon_2 then (lon_2 + 360)%Q else lon_2 in
  (lon_1, lon_2).

(** ** Index computation (exact arithmetic) *)

(** An index expression of one axis: [slice(start, stop)] or one index. *)
Inductive selector : Type :=
| Slice (start stop : Z)
| Index (i : Z).

(** [slice(a, b + 1) if a < b else a]. *)
Definition select (a b : Z) : selector :=
  if a <? b then Slice a (b + 1) else Index a.

(** Number of grid lines an index expression spans, and whether it takes
    line [k] (for indices inside the axis). *)
Definition span (s : selector) : Z :=
  match s with
  | Slice a b => Z.max 0 (b - a)
  | Index _ => 1
  end.

Definition takes (s : selector) (k : Z) : bool :=
  match s with
  | Slice a b => (a <=? k) && (k <? b)
  | Index i => k =? i
  end.

(** [int(math.floor((t - ref_time) / timedelta(days=temporal_res)))],
    the floor of the exact quotient. *)
Definition time_index (c : CubeConfig) (t : datetime) : Z :=
  (t - ref_time c) / timedelta_days (temporal_res c).

(** [int(round((90.0 - lat) / spatial_res)) - grid_y0]. *)
Definition grid_y_of (c : CubeConfig) (lat : Q) : Z :=
  py_round ((90 - lat) / spatial_res c) - grid_y0 c.

(** [int(round((180.0 + lon) / spatial_res)) - grid_x0]. *)
Definition grid_x_of (c : CubeConfig) (lon : Q) : Z :=
  py_round ((180 + lon) / spatial_res c) - grid_x0 c.

(** Upper edge (in degrees) of grid row [y] and left edge of column [x]:
    the expressions compared with the query bounds. *)
Definition row_edge (c : CubeConfig) (y : Z) : Q :=
  (90 - inject_Z (y + grid_y0 c) * spatial_res c)%Q.

Definition col_edge (c : CubeConfig) (x : Z) : Q :=
  (-180 + inject_Z (x + grid_x0 c) * spatial_res c)%Q.

(** The row range [(grid_y1, grid_y2)] after the boundary correction. *)
Definition grid_rows (c : CubeConfig) (lat_1 lat_2 : Q) : Z * Z :=
  let grid_y1 := grid_y_of c lat_2 in
  let grid_y2 := grid_y_of c lat_1 in
  let grid_y2 :=
    if (grid_y2 >? grid_y1) && Qeqb (row_edge c grid_y2) lat_1
    then grid_y2 - 1 else grid_y2 in
  (grid_y1, grid_y2).

(** The column range [(grid_x1, grid_x2)] after the boundary correction. *)
Definition grid_cols (c : CubeConfig) (lon_1 lon_2 : Q) : Z * Z :=
  let grid_x1 := grid_x_of c lon_1 in
  let grid_x2 := grid_x_of c lon_2 in
  let grid_x2 :=
    if (grid_x2 >? grid_x1) && Qeqb (col_edge c grid_x2) lon_2
    then grid_x2 - 1 else grid_x2 in
  (grid_x1, grid_x2).

(** [int(round(360.0 / spatial_res))]. *)
Definition global_grid_width (c : CubeConfig) : Z :=
  py_round (360 / spatial_res c).

Definition dateline_error : exn :=
  ValueError "illegal longitude: dateline intersection not yet implemented".

(** What [get] reads for one variable: the variable and the index
    expression of each axis. *)
Record selection : Type := mkSelection {
  sel_var : Z;
  sel_time : selector;
  sel_lat : selector;
  sel_lon : selector
}.

(** The part of [get] before any dataset is touched: the arguments are
    resolved in the order variable, time, latitude, longitude, then
    turned into index ranges. *)
Definition get_plan (d : CubeData) (variable : pyval)
    (time : range_arg datetime) (latitude longitude : range_arg Q)
    : result (list Z * selector * selector * selector) :=
  let? var_indexes := _get_var_indices d variable in
  let? time_range := _get_time_range time in
  let '(time_1, time_2) := time_range in
  let? lat_range := _get_lat_range latitude in
  let '(lat_1, lat_2) := lat_range in
  let '(lon_1, lon_2) := _get_lon_range longitude in
  let config := cube_config d in
  if temporal_res config =? 0 then Raised ZeroDivisionError
  else if Qeqb (spatial_res config) 0 then Raised ZeroDivisionError
  else
    let time_index_1 := time_index config time_1 in
    let time_index_2 := time_index config time_2 in
    let '(grid_y1, grid_y2) := grid_rows config lat_1 lat_2 in
    let '(grid_x1, grid_x2) := grid_cols config lon_1 lon_2 in
    let dateline_intersection := grid_x2 >=? global_grid_width config in
    if dateline_intersection then Raised dateline_error
    else Ok (var_indexes,
             select time_index_1 time_index_2,
             select grid_y1 grid_y2,
             select grid_x1 grid_x2).

(** ** Lazily opened datasets

    A variable index is a slot number as [__init__] gives them out,
    [0 .. n-1]; an open dataset and its variable are the handle of the
    dataset; a variable that is held counts as true in the test of
    [_get_or_open_variable]. *)

Definition reader : Type := CubeData * handles.

Definition set_slot (d : CubeData) (i : nat) (ds var : option handle)
    : CubeData :=
  mkCubeData (cube_config d) (_dataset_files d)
    (_var_index_to_var_name d) (_var_name_to_var_index d)
    (<[ i := ds ]> (_datasets d)) (<[ i := var ]> (_variables d)).

(** [netCDF4.MFDataset(files)] takes [files[0]] as its master file. *)
Definition _open_dataset (var_index : Z) : M reader handle :=
  fun '(d, hs) =>
    match _dataset_files d !! Z.to_nat var_index with
    | None => (Raised (IndexError "list index out of range"), (d, hs))
    | Some [] => (Raised (IndexError "list index out of range"), (d, hs))
    | Some (_ :: _) =>
        let '(dataset, hs') := open_handle hs in
        (Ok dataset,
         (set_slot d (Z.to_nat var_index) (Some dataset) (Some dataset), hs'))
    end.

Definition _get_or_open_variable (var_index : Z) : M reader handle :=
  fun '(d, hs) =>
    match _variables d !! Z.to_nat var_index with
    | None => (Raised (IndexError "list index out of range"), (d, hs))
    | Some (Some variable) => (Ok variable, (d, hs))
    | Some None => _open_dataset var_index (d, hs)
    end.

(** The result loop of [get].  The result records, for each variable,
    the index expressions handed to [variable[...]]; the values the
    backend reads, and the [IndexError] it raises for an index outside
    the variable, are left to the backend. *)
Fixpoint read_all (var_indexes : list Z) (st sy sx : selector)
    (acc : list selection) : M reader (list selection) :=
  match var_indexes with
  | [] => ret acc
  | var_index :: rest =>
      _ <- _get_or_open_variable var_index ;;
      read_all rest st sy sx (acc ++ [mkSelection var_index st sy sx])
  end.

Definition get (variable : pyval) (time : range_arg datetime)
    (latitude longitude : range_arg Q) : M reader (list selection) :=
  fun '(d, hs) =>
    match get_plan d variable time latitude longitude with
    | Raised e => (Raised e, (d, hs))
    | Ok (var_indexes, st, sy, sx) => read_all var_indexes st sy sx [] (d, hs)
    end.

(** ** Closing *)

(** The loop of [_close_datasets] from slot [i] on; [slots] are the
    entries of [_datasets] not yet visited. *)
Fixpoint close_from (i : nat) (slots : list (option handle))
    : M reader unit :=
  match slots with
  | [] => ret tt
  | None :: _ =>
      raise (AttributeError "'NoneType' object has no attribute 'close'")
  | Some dataset :: rest =>
      modify (fun '(d, hs) =>
                (set_slot d i None None, close_handle dataset hs)) ;;;
      close_from (S i) rest
  end.

Definition _close_datasets : M reader unit :=
  fun '(d, hs) => close_from 0 (_datasets d) (d, hs).

(** [CubeData.close]. *)
Definition CubeData_close : M reader unit := _close_datasets.

(* ===================================================================== *)
(** * Temporal weights *)
(* ===================================================================== *)

(** Modelled from the spec: [cablab.util.temporal_weight] is imported by
    cube.py but its module is not part of the sources at hand.  Spec 4.3:
    [overlap(a,b,c,d) = max(0, min(b,d) - max(a,c))] and
    [weight = overlap(a1, a2, b1, b2) / (a2 - a1)], the fraction of the
    first range that falls into the second.  Dividing two timedeltas
    raises [ZeroDivisionError] when the divisor is zero. *)
Definition overlap (a b c d : datetime) : timedelta :=
  Z.max 0 (Z.min b d - Z.max a c).

Definition temporal_weight (a1 a2 b1 b2 : datetime) : result Q :=
  if a2 - a1 =? 0 then Raised ZeroDivisionError
  else Ok (inject_Z (overlap a1 a2 b1 b2) / inject_Z (a2 - a1))%Q.

(* ===================================================================== *)
(** * BaseCubeSourceProvider *)
(* ===================================================================== *)

Definition image : Type := list (list Q).

(** What [compute_variable_images] returns: [None], or a dictionary from
    variable names to images, an image possibly [None]. *)
Definition images : Type := option (list (string * option image)).

(** The weighting loop of [compute_variable_images]: [i] is the index of
    the head of [ranges]. *)
Fixpoint weigh_sources (i : Z) (ranges : list (datetime * datetime))
    (period_start period_end : datetime) (index_to_weight : gmap Z Q)
    : result (gmap Z Q) :=
  match ranges with
  | [] => Ok index_to_weight
  | (source_start_time, source_end_time) :: rest =>
      let? weight := temporal_weight source_start_time source_end_time
                       period_start period_end in
      weigh_sources (i + 1) rest period_start period_end
        (if Qgtb weight 0 then <[ i := weight ]> index_to_weight
         else index_to_weight)
  end.

(** A subclass of [BaseCubeSourceProvider] over a provider state [P]: it
    supplies the source time ranges and the combination of the sources. *)
Record BaseProvider (P : Type) : Type := mkBaseProvider {
  get_source_time_ranges : P -> list (datetime * datetime);
  compute_variable_images_from_sources : gmap Z Q -> M P images
}.
Arguments get_source_time_ranges {P} _ _.
Arguments compute_variable_images_from_sources {P} _ _ _.

(** [BaseCubeSourceProvider.compute_variable_images].  The two [log]
    calls only print; the second one evaluates [result.keys()], which
    fails when the subclass returned [None]. *)
Definition base_compute_variable_images {P} (bp : BaseProvider P)
    (period_start period_end : datetime) : M P images :=
  source_time_ranges <- gets (get_source_time_ranges bp) ;;
  if (length source_time_ranges =? 0)%nat then ret None
  else
    index_to_weight <- lift_result
      (weigh_sources 0 source_time_ranges period_start period_end ∅) ;;
    if bool_decide (index_to_weight = ∅) then ret None
    else
      result <- compute_variable_images_from_sources bp index_to_weight ;;
      match result with
      | None =>
          raise (AttributeError "'NoneType' object has no attribute 'keys'")
      | Some _ => ret result
      end.

(** [BaseCubeSourceProvider.get_temporal_coverage]. *)
Definition base_get_temporal_coverage {P} (bp : BaseProvider P)
    : M P (datetime * datetime) :=
  source_time_ranges <- gets (get_source_time_ranges bp) ;;
  match source_time_ranges, last source_time_ranges with
  | first :: _, Some final => ret (fst first, snd final)
  | _, _ => raise (IndexError "list index out of range")
  end.

(* ===================================================================== *)
(** * The persistence backend (netCDF4), as far as the cube uses it *)
(* ===================================================================== *)

Inductive attr_value : Type :=
| AStr (s : string)
| ANum (q : Q)
| ABool (b : bool).

(** One entry of a variable along its first dimension. *)
Inductive ncvalue : Type :=
| VNum (q : Q)
| VImage (im : image)
| VFill.

Inductive dim_size : Type :=
| Unlimited (current : nat)
| Fixed (size : Z).

Record ncvar : Type := mkVar {
  var_dtype : attr_value;
  var_dims : list string;
  var_zlib : bool;
  var_fill : option attr_value;
  var_attrs : gmap string attr_value;
  var_data : list ncvalue
}.

Record ncfile : Type := mkNc {
  nc_format : string;
  nc_dims : gmap string dim_size;
  nc_vars : gmap string ncvar
}.

(** The part of a file that is fixed when it is created: everything but
    the length of the unlimited axis and the data along it. *)
Definition var_schema (v : ncvar) :=
  (var_dtype v, var_dims v, var_zlib v, var_fill v, var_attrs v).

Definition is_unlimited (d : dim_size) : bool :=
  match d with Unlimited _ => true | Fixed _ => false end.

Definition on_time_axis (v : ncvar) : bool :=
  match var_dims v with
  | d :: _ => String.eqb d "time"
  | [] => false
  end.

Definition empty_dataset (format : string) : ncfile := mkNc format ∅ ∅.

(** [dataset.createDimension(name, size)]; [None] is unlimited. *)
Definition createDimension (name : string) (size : option Z) (f : ncfile)
    : ncfile :=
  mkNc (nc_format f)
       (<[ name := match size with
                   | None => Unlimited 0
                   | Some n => Fixed n
                   end ]> (nc_dims f))
       (nc_vars f).

(** [dataset.createVariable(name, dtype, dims, zlib, fill_value)]. *)
Definition createVariable (name : string) (dtype : attr_value)
    (dims : list string) (zlib : bool) (fill : option attr_value)
    (f : ncfile) : ncfile :=
  mkNc (nc_format f) (nc_dims f)
       (<[ name := mkVar dtype dims zlib fill ∅ [] ]> (nc_vars f)).

(** [var.attr = value]. *)
Definition set_attr (name attr : string) (value : attr_value) (f : ncfile)
    : ncfile :=
  mkNc (nc_format f) (nc_dims f)
       (alter (fun v => mkVar (var_dtype v) (var_dims v) (var_zlib v)
                          (var_fill v) (<[ attr := value ]> (var_attrs v))
                          (var_data v))
              name (nc_vars f)).

(** [len(var)]: the current size of the variable's first dimension. *)
Definition var_len (f : ncfile) (v : ncvar) : nat :=
  match var_dims v with
  | [] => 0%nat
  | d :: _ => match nc_dims f !! d with
              | Some (Unlimited n) => n
              | Some (Fixed z) => Z.to_nat z
              | None => 0%nat
              end
  end.

(** Entry [i] of a data list, the list padded with fill values first. *)
Definition put_at (i : nat) (x : ncvalue) (data : list ncvalue)
    : list ncvalue :=
  <[ i := x ]> (data ++ replicate (S i - length data) VFill).

(** [var[i] = x] (or [var[i, :, :] = x]): writing past the end of an
    unlimited first dimension grows that dimension. *)
Definition write_at (name : string) (i : nat) (x : ncvalue) (f : ncfile)
    : ncfile :=
  match nc_vars f !! name with
  | None => f
  | Some v =>
      let v' := mkVar (var_dtype v) (var_dims v) (var_zlib v) (var_fill v)
                      (var_attrs v) (put_at i x (var_data v)) in
      let dims' :=
        match var_dims v with
        | d :: _ => alter (fun s => match s with
                                    | Unlimited n => Unlimited (Nat.max n (S i))
                                    | Fixed z => Fixed z
                                    end) d (nc_dims f)
        | [] => nc_dims f
        end in
      mkNc (nc_format f) dims' (<[ name := v' ]> (nc_vars f))
  end.

(** Shape test of [var[i, :, :] = image] for a variable over
    [(time, lat, lon)]: an image of the shape of the grid is taken, no
    other one (broadcasting is left out). *)
Definition image_fits (f : ncfile) (im : image) : bool :=
  match nc_dims f !! "lat", nc_dims f !! "lon" with
  | Some (Fixed h), Some (Fixed w) =>
      (Z.of_nat (length im) =? h)
      && forallb (fun row => Z.of_nat (length row) =? w) im
  | _, _ => false
  end.

(* ===================================================================== *)
(** * Cube: the writer *)
(* ===================================================================== *)

(** The [CubeSourceProvider] interface over a provider state [P]; every
    method may change that state and may raise. *)
Record CubeSourceProvider (P : Type) : Type := mkProvider {
  prepare : M P unit;
  get_temporal_coverage : M P (datetime * datetime);
  get_spatial_coverage : M P (Z * Z * Z * Z);
  get_variable_descriptors : M P (gmap string (gmap string attr_value));
  compute_variable_images : datetime -> datetime -> M P images;
  close : M P unit
}.
Arguments prepare {P} _ _.
Arguments get_temporal_coverage {P} _ _.
Arguments get_spatial_coverage {P} _ _.
Arguments get_variable_descriptors {P} _ _.
Arguments compute_variable_images {P} _ _ _ _.
Arguments close {P} _ _.

Record Cube : Type := mkCube {
  _base_dir : string;
  _config : CubeConfig;
  _closed : bool;
  _data : option CubeData
}.

Inductive open_mode : Type := ModeAppend | ModeWrite.

(** A partition file is [data/<var>/<year>_<var>.nc], the year printed
    with four digits; it is identified here by the pair (year, variable),
    which the file name determines for the years of a datetime. *)
Definition pkey : Type := Z * string.

(** The store an update session works on: the provider, the partition
    files on disk, the variable folders, the process's open handles, the
    [datasets] dictionary of the running [update], and the backend's
    record of every [Dataset(...)] call with its mode. *)
Record session (P : Type) : Type := mkSession {
  provider_state : P;
  disk : gmap pkey ncfile;
  folders : gset string;
  open_handles : handles;
  datasets : gmap pkey handle;
  opened : list (pkey * open_mode)
}.
Arguments mkSession {P} _ _ _ _ _ _.
Arguments provider_state {P} _.
Arguments disk {P} _.
Arguments folders {P} _.
Arguments open_handles {P} _.
Arguments datasets {P} _.
Arguments opened {P} _.

Definition set_provider_state {P : Type} (p : P) (s : session P) : session P :=
  mkSession p (disk s) (folders s) (open_handles s) (datasets s) (opened s).
Definition set_disk {P : Type} (d : gmap pkey ncfile) (s : session P) : session P :=
  mkSession (provider_state s) d (folders s) (open_handles s) (datasets s)
    (opened s).
Definition set_folders {P : Type} (fs : gset string) (s : session P) : session P :=
  mkSession (provider_state s) (disk s) fs (open_handles s) (datasets s)
    (opened s).
Definition set_open_handles {P : Type} (hs : handles) (s : session P) : session P :=
  mkSession (provider_state s) (disk s) (folders s) hs (datasets s)
    (opened s).
Definition set_datasets {P : Type} (ds : gmap pkey handle) (s : session P)
    : session P :=
  mkSession (provider_state s) (disk s) (folders s) (open_handles s) ds
    (opened s).
Definition log_open {P : Type} (k : pkey) (m : open_mode) (s : session P)
    : session P :=
  mkSession (provider_state s) (disk s) (folders s) (open_handles s)
    (datasets s) (opened s ++ [(k, m)]).

(** A provider method, run inside a session. *)
Definition on_provider {P A : Type} (m : M P A) : M (session P) A :=
  fun s => let '(r, p') := m (provider_state s) in
           (r, set_provider_state p' s).

(** An in-place change of the file behind a handle. *)
Definition update_file {P : Type} (k : pkey) (g : ncfile -> ncfile)
    : M (session P) unit :=
  modify (fun s => set_disk (alter g k (disk s)) s).

Definition read_file {P : Type} (k : pkey) : M (session P) ncfile :=
  fun s => match disk s !! k with
           | Some f => (Ok f, s)
           | None => (Raised (BackendError "no such file"), s)
           end.

(** [netCDF4.Dataset(file, 'a')] and [netCDF4.Dataset(file, 'w', format)]:
    the latter creates (or truncates) the file. *)
Definition Dataset {P : Type} (k : pkey) (mode : open_mode) (format : string)
    : M (session P) handle :=
  fun s =>
    let '(h, hs) := open_handle (open_handles s) in
    let s := log_open k mode (set_open_handles hs s) in
    match mode with
    | ModeAppend => (Ok h, s)
    | ModeWrite => (Ok h, set_disk (<[ k := empty_dataset format ]> (disk s)) s)
    end.

(** [dataset.close()]. *)
Definition Dataset_close {P : Type} (h : handle) : M (session P) unit :=
  modify (fun s => set_open_handles (close_handle h (open_handles s)) s).

(** [netCDF4.date2num(t, units=time_units, calendar)] for the Gregorian
    calendar of the default configuration: days since the instant named
    by the units string, which prints [ref_time] to the minute. *)
Definition units_epoch (c : CubeConfig) : datetime :=
  ref_time c - (ref_time c) mod 60000000.

Definition time_units (c : CubeConfig) : attr_value :=
  ANum (inject_Z (units_epoch c)).

Definition date2num (c : CubeConfig) (t : datetime) : Q :=
  (inject_Z (t - units_epoch c) / inject_Z us_per_day)%Q.

Definition reserved_attr (name : string) : bool :=
  String.eqb name "data_type" || String.eqb name "fill_value"
  || String.eqb name "scale_factor" || String.eqb name "add_offset".

(** [range(n)]. *)
Definition range (n : Z) : list Z := map Z.of_nat (seq 0 (Z.to_nat n)).

Section Writer.

Context {P : Type}.

(** Whether the backend takes [var.name = value]; a refused attribute
    raises a [ValueError] that [_init_variable_dataset] catches. *)
Variable accepts_attr : string -> attr_value -> bool.

Variable cube : Cube.
Variable provider : CubeSourceProvider P.

(** The coordinate loops [for i in range(n): var[i] = x0 + step * i]. *)
Definition fill_coordinate (name : string) (n : Z) (value : Z -> Q)
    (f : ncfile) : ncfile :=
  fold_left (fun f i => write_at name (Z.to_nat i) (VNum (value i)) f)
            (range n) f.

(** The loop over the remaining attributes of a descriptor. *)
Definition set_remaining_attrs (variable_name : string)
    (variable_attributes : gmap string attr_value) (f : ncfile) : ncfile :=
  fold_left (fun f '(name, value) =>
               if reserved_attr name then f
               else if accepts_attr name value
                    then set_attr variable_name name value f
                    else f)
            (map_to_list variable_attributes) f.

Definition _init_variable_dataset (k : pkey) (variable_name : string)
    : M (session P) unit :=
  coverage <- on_provider (get_spatial_coverage provider) ;;
  let '(image_x0, image_y0, image_width, image_height) := coverage in
  let config := _config cube in
  let res := spatial_res config in
  let lon0 := (easting config + inject_Z image_x0 * res)%Q in
  let lat0 := (northing config + inject_Z image_y0 * res)%Q in
  update_file k (fun f =>
    let f := createDimension "time" None f in
    let f := createDimension "lat" (Some image_height) f in
    let f := createDimension "lon" (Some image_width) f in
    let f := createVariable "start_time" (AStr "f8") ["time"] false None f in
    let f := set_attr "start_time" "units" (time_units config) f in
    let f := set_attr "start_time" "calendar" (AStr (calendar config)) f in
    let f := createVariable "end_time" (AStr "f8") ["time"] false None f in
    let f := set_attr "end_time" "units" (time_units config) f in
    let f := set_attr "end_time" "calendar" (AStr (calendar config)) f in
    let f := createVariable "lon" (AStr "f4") ["lon"] false None f in
    let f := set_attr "lon" "units" (AStr "degrees_east") f in
    let f := createVariable "lat" (AStr "f4") ["lat"] false None f in
    let f := set_attr "lat" "units" (AStr "degrees_north") f in
    let f := fill_coordinate "lon" image_width
               (fun i => lon0 + inject_Z i * res)%Q f in
    fill_coordinate "lat" image_height
      (fun i => lat0 - inject_Z i * res)%Q f) ;;;
  variable_descriptors <- on_provider (get_variable_descriptors provider) ;;
  match variable_descriptors !! variable_name with
  | None => raise (KeyError variable_name)
  | Some variable_attributes =>
      match variable_attributes !! "data_type" with
      | None => raise (KeyError "data_type")
      | Some variable_data_type =>
          match variable_attributes !! "fill_value" with
          | None => raise (KeyError "fill_value")
          | Some variable_fill_value =>
              update_file k (fun f =>
                let f := createVariable variable_name variable_data_type
                           ["time"; "lat"; "lon"] (compression config)
                           (Some variable_fill_value) f in
                let f := set_attr variable_name "scale_factor"
                           (default (ANum 1)
                              (variable_attributes !! "scale_factor")) f in
                let f := set_attr variable_name "add_offset"
                           (default (ANum 0)
                              (variable_attributes !! "add_offset")) f in
                set_remaining_attrs variable_name variable_attributes f)
          end
      end
  end.

(** The dataset for a partition: the one of this session, or a newly
    opened one, which is then entered into [datasets]. *)
Definition obtain_dataset (k : pkey) (var_name : string)
    : M (session P) handle :=
  ds <- gets datasets ;;
  match ds !! k with
  | Some dataset => ret dataset
  | None =>
      files <- gets disk ;;
      dataset <-
        (match files !! k with
         | Some _ => Dataset k ModeAppend (file_format (_config cube))
         | None =>
             dataset <- Dataset k ModeWrite (file_format (_config cube)) ;;
             _init_variable_dataset k var_name ;;;
             ret dataset
         end) ;;
      modify (fun s => set_datasets (<[ k := dataset ]> (datasets s)) s) ;;;
      ret dataset
  end.

(** The lines of [_write_image] from the variable lookups on: [f] is the
    file behind [dataset], [i = len(var_start_time)]. *)
Definition write_record (k : pkey) (target_start_time target_end_time : datetime)
    (var_name : string) (im : image) (f : ncfile) : M (session P) unit :=
  match nc_vars f !! "start_time" with
  | None => raise (KeyError "start_time")
  | Some var_start_time =>
      match nc_vars f !! "end_time" with
      | None => raise (KeyError "end_time")
      | Some _ =>
          match nc_vars f !! var_name with
          | None => raise (KeyError var_name)
          | Some _ =>
              let i := var_len f var_start_time in
              update_file k (write_at "start_time" i
                (VNum (date2num (_config cube) target_start_time))) ;;;
              update_file k (write_at "end_time" i
                (VNum (date2num (_config cube) target_end_time))) ;;;
              if image_fits f im
              then update_file k (write_at var_name i (VImage im))
              else raise (BackendError "image shape does not match")
          end
      end
  end.

Definition _write_image (target_time_range : datetime * datetime)
    (var_name : string) (im : image) : M (session P) unit :=
  let '(target_start_time, target_end_time) := target_time_range in
  modify (fun s => set_folders ({[ var_name ]} ∪ folders s) s) ;;;
  let k := (year_of target_start_time, var_name) in
  _ <- obtain_dataset k var_name ;;
  f <- read_file k ;;
  write_record k target_start_time target_end_time var_name im f.

Definition _write_images (target_time_range : datetime * datetime)
    (var_name_to_image : list (string * option image))
    : M (session P) unit :=
  for_each var_name_to_image (fun '(var_name, im) =>
    match im with
    | Some im => _write_image target_time_range var_name im
    | None => ret tt
    end).

(** [datetime(year, 1, 1)], defined for the years 1 to 9999. *)
Definition jan1 (year : Z) : result datetime :=
  if (1 <=? year) && (year <=? 9999) then Ok (mk_datetime year 1 1)
  else Raised (ValueError "year is out of range").

(** [math.ceil(365.0 / temporal_res)], for a [temporal_res] that is a
    whole number of days. *)
Definition num_periods_per_year (cube_temporal_res : Z) : Z :=
  - ((- 365) / cube_temporal_res).

(** One pass of the inner loop body (for dates within the range of
    [datetime], see [dates_in_range]): the end of the period that starts
    at [time_1]. *)
Definition period_end (time_1 d_time time_max : datetime) : datetime :=
  let time_2 := time_1 + d_time in
  if time_2 >? time_max then time_max else time_2.

(** The inner loop [for period in range(num_periods_per_year)], with
    [n] passes left and the running [time_1]. *)
Fixpoint period_loop (n : nat) (time_1 d_time time_max : datetime)
    (target_start_time target_end_time : datetime) : M (session P) unit :=
  match n with
  | O => ret tt
  | S n' =>
      let time_2 := period_end time_1 d_time time_max in
      weight <- lift_result
        (temporal_weight time_1 time_2 target_start_time target_end_time) ;;
      (if Qgtb weight 0
       then
         var_name_to_image <-
           on_provider (compute_variable_images provider time_1 time_2) ;;
         match var_name_to_image with
         | Some (entry :: entries) =>
             _write_images (time_1, time_2) (entry :: entries)
         | _ => ret tt
         end
       else ret tt) ;;;
      period_loop n' time_2 d_time time_max target_start_time target_end_time
  end.

(** The body of the outer loop over the target years. *)
Definition year_loop_body (target_start_time target_end_time : datetime)
    (target_year : Z) : M (session P) unit :=
  let cube_temporal_res := temporal_res (_config cube) in
  time_min <- lift_result (jan1 target_year) ;;
  time_max <- lift_result (jan1 (target_year + 1)) ;;
  let d_time := timedelta_days cube_temporal_res in
  period_loop (Z.to_nat (num_periods_per_year cube_temporal_res))
    time_min d_time time_max target_start_time target_end_time.

(** The closing loop [for key in datasets: datasets[key].close()]. *)
Definition close_datasets : M (session P) unit :=
  ds <- gets datasets ;;
  for_each (map_to_list ds) (fun '(_, dataset) => Dataset_close dataset).

(** [Cube.update(provider)]. *)
Definition update : M (session P) unit :=
  if _closed cube then raise (IOError "cube has been closed")
  else
    on_provider (prepare provider) ;;;
    coverage <- on_provider (get_temporal_coverage provider) ;;
    let '(target_start_time, target_end_time) := coverage in
    let config := _config cube in
    let target_start_time :=
      match start_time config with
      | Some t => if t >? target_start_time then t else target_start_time
      | None => target_start_time
      end in
    let target_end_time :=
      match end_time config with
      | Some t => if t <? target_end_time then t else target_end_time
      | None => target_end_time
      end in
    let target_year_1 := year_of target_start_time in
    let target_year_2 := year_of target_end_time in
    if temporal_res config =? 0 then raise ZeroDivisionError
    else
      modify (set_datasets ∅) ;;;
      for_each (map (fun k => target_year_1 + k)
                    (range (target_year_2 + 1 - target_year_1)))
               (year_loop_body target_start_time target_end_time) ;;;
      close_datasets ;;;
      on_provider (close provider).

End Writer.

(** [Cube.close()]: closes the reader, if one was made, then marks the
    cube closed. *)
Definition Cube_close (c : Cube) (hs : handles)
    : result unit * Cube * handles :=
  match _data c with
  | Some d =>
      match CubeData_close (d, hs) with
      | (Ok _, (_, hs')) =>
          (Ok tt, mkCube (_base_dir c) (_config c) true None, hs')
      | (Raised e, (d', hs')) =>
          (Raised e, mkCube (_base_dir c) (_config c) (_closed c) (Some d'),
           hs')
      end
  | None => (Ok tt, mkCube (_base_dir c) (_config c) true None, hs)
  end.

(** The candidate periods of one year, as the inner loop generates them:
    [n] periods from [time_1] on. *)
Fixpoint candidate_periods (n : nat) (time_1 d_time time_max : datetime)
    : list (datetime * datetime) :=
  match n with
  | O => []
  | S n' =>
      let time_2 := period_end time_1 d_time time_max in
      (time_1, time_2) :: candidate_periods n' time_2 d_time time_max
  end.

(** The candidate periods of calendar year [Y] at [temporal_res]. *)
Definition year_periods (Y temporal_res : Z) : list (datetime * datetime) :=
  candidate_periods (Z.to_nat (num_periods_per_year temporal_res))
    (mk_datetime Y 1 1) (timedelta_days temporal_res)
    (mk_datetime (Y + 1) 1 1).

(* ===================================================================== *)
(** * Predicates and scenarios used in the statements *)
(* ===================================================================== *)

(** An interval [lo, hi] is degenerate, or leaves [-bound, bound]. *)
Definition bad_interval (lo hi bound : Q) : Prop :=
  (lo >= hi \/ lo < - bound \/ hi > bound)%Q.

(** The quarter-degree grid with origin (0, 0). *)
Definition quarter_degree_grid (c : CubeConfig) : Prop :=
  spatial_res c = (1 # 4)%Q /\ grid_x0 c = 0 /\ grid_y0 c = 0.

(** A reader over two variables, [FAPAR] (index 0) and [LAI] (index 1),
    on the default grid. *)
Definition two_variable_reader : CubeData :=
  CubeData_init default_config "testcube"
    [Dir "FAPAR" ["2001_FAPAR.nc"]; File "cube.log";
     Dir "LAI" ["2002_LAI.nc"; "2001_LAI.nc"]].

(** The loop of [_close_datasets] over opened slots only: what it leaves
    of the slots and of the live handles. *)
Fixpoint cleared (i : nat) (pre : list handle) (d : CubeData) : CubeData :=
  match pre with
  | [] => d
  | _ :: rest => cleared (S i) rest (set_slot d i None None)
  end.

Definition released (pre : list handle) (hs : handles) : handles :=
  fold_left (fun hs h => close_handle h hs) pre hs.

Definition none_has_no_close : exn :=
  AttributeError "'NoneType' object has no attribute 'close'".

Definition int_not_iterable : exn :=
  TypeError "'int' object is not iterable".

(** A small cube (a 4 x 2 grid of 90 degree cells, 8-day periods, bounds
    2001-01-01 to 2001-02-01) and a provider for it with one variable. *)
Definition small_config : CubeConfig :=
  mkCubeConfig 90 0 0 4 2 8 "gregorian" (mk_datetime 2001 1 1)
    (Some (mk_datetime 2001 1 1)) (Some (mk_datetime 2001 2 1))
    "NETCDF4_CLASSIC" false.

Definition small_cube : Cube := mkCube "testcube" small_config false None.

Definition small_image : image := [[1; 2; 3; 4]; [5; 6; 7; 8]]%Q.

Definition lai_descriptors : gmap string (gmap string attr_value) :=
  {[ "LAI" := {[ "data_type" := AStr "f4"; "fill_value" := ANum 0;
                 "units" := AStr "1" ]} ]}.

(** A provider whose state counts the image requests it has served. *)
Definition counting_provider (serve : nat -> result images)
    : CubeSourceProvider nat :=
  mkProvider nat
    (ret tt)
    (ret (mk_datetime 2001 1 1, mk_datetime 2001 2 1))
    (ret (0, 0, 4, 2))
    (ret lai_descriptors)
    (fun _ _ n => (serve n, S n))
    (ret tt).

(** It serves every request. *)
Definition lai_provider : CubeSourceProvider nat :=
  counting_provider (fun _ => Ok (Some [("LAI", Some small_image)])).

(** Its source fails at the second request. *)
Definition failing_provider : CubeSourceProvider nat :=
  counting_provider (fun n =>
    match n with
    | O => Ok (Some [("LAI", Some small_image)])
    | S _ => Raised (ProviderError "source file unreadable")
    end).

Definition accept_all (name : string) (value : attr_value) : bool := true.

Definition fresh_session : session nat := mkSession 0%nat ∅ ∅ no_handles ∅ [].

(** Every instant of [lo, hi) lies in some period. *)
Definition covers (ps : list (datetime * datetime)) (lo hi : datetime)
    : Prop :=
  forall x, lo <= x < hi -> exists p, In p ps /\ fst p <= x < snd p.

(** A period ends before every later period starts. *)
Definition in_order (ps : list (datetime * datetime)) : Prop :=
  forall (i j : nat) p q,
    (i < j)%nat -> ps !! i = Some p -> ps !! j = Some q -> snd p <= fst q.

(** What the spec says of the candidate periods of year [Y]: their
    number is [ceil(365 / temporal_res)], the first starts on Jan 1, each
    lasts [temporal_res] days unless clipped to the next Jan 1, they do
    not overlap, and they cover the year. *)
Definition periods_claim (Y temporal_res : Z) : Prop :=
  let ps := year_periods Y temporal_res in
  let time_min := mk_datetime Y 1 1 in
  let time_max := mk_datetime (Y + 1) 1 1 in
  ((Z.of_nat (length ps) - 1) * temporal_res < 365
   /\ 365 <= Z.of_nat (length ps) * temporal_res)
  /\ (exists p, head ps = Some p /\ fst p = time_min)
  /\ Forall (fun p => snd p = Z.min (fst p + timedelta_days temporal_res)
                                    time_max) ps
  /\ in_order ps
  /\ covers ps time_min time_max.

(** What [periods_claim] says before it comes to covering the year. *)
Definition periods_laid_out (Y temporal_res : Z) : Prop :=
  let ps := year_periods Y temporal_res in
  let time_min := mk_datetime Y 1 1 in
  let time_max := mk_datetime (Y + 1) 1 1 in
  ((Z.of_nat (length ps) - 1) * temporal_res < 365
   /\ 365 <= Z.of_nat (length ps) * temporal_res)
  /\ (exists p, head ps = Some p /\ fst p = time_min)
  /\ Forall (fun p => snd p = Z.min (fst p + timedelta_days temporal_res)
                                    time_max) ps
  /\ in_order ps.

(** [datetime.max], 9999-12-31 23:59:59.999999: a sum of a datetime and
    a timedelta beyond it raises [OverflowError]. *)
Definition datetime_max : datetime := mk_datetime 10000 1 1 - 1.

(** The years and resolutions at which no date of the inner loop leaves
    the range of [datetime]: the latest sum it forms is
    [time_1 + d_time] of the last period, at most [364 + temporal_res]
    days after Jan 1. *)
Definition dates_in_range (Y temporal_res : Z) : Prop :=
  1 <= Y <= 9998
  /\ mk_datetime Y 1 1 + timedelta_days (364 + temporal_res) <= datetime_max.

(** The weight of one source range for a target period, as the spec
    defines it. *)
Definition weight_of (r : datetime * datetime) (period_start period_end : datetime)
    : Q :=
  (inject_Z (overlap (fst r) (snd r) period_start period_end)
   / inject_Z (snd r - fst r))%Q.

Definition none_has_no_keys : exn :=
  AttributeError "'NoneType' object has no attribute 'keys'".

(** A weighted-averaging provider with one 8-day source, whose
    combination step finds no variable and returns [None]. *)
Definition empty_handed_provider : BaseProvider unit :=
  mkBaseProvider unit
    (fun _ => [(mk_datetime 2001 1 1, mk_datetime 2001 1 9)])
    (fun _ => ret None).

(** A period gets a provider call when its weight against the target
    window is positive. *)
Definition positive_weight (target_start_time target_end_time : datetime)
    (p : datetime * datetime) : bool :=
  match temporal_weight (fst p) (snd p) target_start_time target_end_time with
  | Ok weight => Qgtb weight 0
  | Raised _ => false
  end.

(** Every run of [m] relates the store before to the store after, whether
    [m] returns or raises. *)
Definition steps {S A : Type} (R : S -> S -> Prop) (m : M S A) : Prop :=
  forall s r s', m s = (r, s') -> R s s'.

(** The four periods of January 2001 at 8 days. *)
Definition january_2001_periods : list (datetime * datetime) :=
  [(mk_datetime 2001 1 1, mk_datetime 2001 1 9);
   (mk_datetime 2001 1 9, mk_datetime 2001 1 17);
   (mk_datetime 2001 1 17, mk_datetime 2001 1 25);
   (mk_datetime 2001 1 25, mk_datetime 2001 2 2)].

(** A provider that keeps a trace of its image requests, as the providers
    of test_cube.py keep one of their calls: it is [provider], with a
    state that also holds the [(period_start, period_end)] arguments of
    the [compute_variable_images] calls made so far.  The arguments are
    entered by the method itself, so the trace shows the calls the
    writer makes and nothing else. *)
Definition call_trace : Type := list (datetime * datetime).

Definition untraced {P A : Type} (m : M P A) : M (P * call_trace) A :=
  fun '(p, trace) => let '(r, p') := m p in (r, (p', trace)).

Definition traced {P : Type} (provider : CubeSourceProvider P)
    : CubeSourceProvider (P * call_trace) :=
  mkProvider (P * call_trace)
    (untraced (prepare provider))
    (untraced (get_temporal_coverage provider))
    (untraced (get_spatial_coverage provider))
    (untraced (get_variable_descriptors provider))
    (fun period_start period_end '(p, trace) =>
       let '(r, p') :=
         compute_variable_images provider period_start period_end p in
       (r, (p', trace ++ [(period_start, period_end)])))
    (untraced (close provider)).

Definition trace {P : Type} (s : session (P * call_trace)) : call_trace :=
  snd (provider_state s).

(** The trace of a traced provider is left as it was. *)
Definition same_calls {P : Type} (s s' : session (P * call_trace)) : Prop :=
  trace s' = trace s.

(** A store whose provider has served no request and has an empty
    trace. *)
Definition fresh_traced_session : session (nat * call_trace) :=
  mkSession (0%nat, []) ∅ ∅ no_handles ∅ [].

(** ** Partitions and their growth *)

(** A dimension keeps its size, an unlimited one may grow. *)
Definition dim_extends (d d' : dim_size) : Prop :=
  match d, d' with
  | Unlimited n, Unlimited n' => (n <= n')%nat
  | Fixed z, Fixed z' => z = z'
  | _, _ => False
  end.

(** A variable keeps its schema; along the time axis its entries are
    kept and new ones may follow, elsewhere its values are unchanged. *)
Definition var_extends (v v' : ncvar) : Prop :=
  var_schema v' = var_schema v
  /\ if on_time_axis v then var_data v `prefix_of` var_data v'
     else var_data v' = var_data v.

(** [f'] is [f] with records added: same format, same dimensions, same
    variables with their attributes and coordinate values, and no record
    of [f] deleted or changed. *)
Definition file_extends (f f' : ncfile) : Prop :=
  nc_format f' = nc_format f
  /\ (forall d, option_Forall2 dim_extends (nc_dims f !! d) (nc_dims f' !! d))
  /\ (forall name,
        option_Forall2 var_extends (nc_vars f !! name) (nc_vars f' !! name)).

(** The shape of a partition file of variable [var_name]: an unlimited
    time axis that bounds the data of the variables on it, among them
    [start_time], [end_time] and the variable itself when present. *)
Definition partition_ok (var_name : string) (f : ncfile) : Prop :=
  exists n,
    nc_dims f !! "time" = Some (Unlimited n)
    /\ (forall name v, nc_vars f !! name = Some v ->
          on_time_axis v = true -> (length (var_data v) <= n)%nat)
    /\ (forall name v,
          name = "start_time" \/ name = "end_time" \/ name = var_name ->
          nc_vars f !! name = Some v -> on_time_axis v = true).

(** What a run may do to the store as far as partitions go: no file
    disappears, a partition that was there keeps its shape and is only
    extended, and a file that was there is never opened but for
    appending. *)
Definition session_extends {P : Type} (s s' : session P) : Prop :=
  (forall k, is_Some (disk s !! k) -> is_Some (disk s' !! k))
  /\ (forall k f, disk s !! k = Some f -> partition_ok (snd k) f ->
        exists f', disk s' !! k = Some f' /\ partition_ok (snd k) f'
                   /\ file_extends f f')
  /\ (exists l, opened s' = opened s ++ l
                /\ forall k m, In (k, m) l -> is_Some (disk s !! k) ->
                               m = ModeAppend).

(** A run that touches no file but [k] and opens nothing. *)
Definition only_at {P : Type} (k : pkey) (s s' : session P) : Prop :=
  (forall k', k' <> k -> disk s' !! k' = disk s !! k')
  /\ opened s' = opened s.

(** The three writes of one record at index [i]. *)
Definition append_record (c : CubeConfig) (target_time_range : datetime * datetime)
    (var_name : string) (im : image) (i : nat) (f : ncfile) : ncfile :=
  write_at var_name i (VImage im)
    (write_at "end_time" i (VNum (date2num c (snd target_time_range)))
       (write_at "start_time" i (VNum (date2num c (fst target_time_range)))
          f)).

(** The effect of a write at index [i] on the size of a dimension. *)
Definition grow_to (i : nat) (s : dim_size) : dim_size :=
  match s with
  | Unlimited n => Unlimited (Nat.max n (S i))
  | Fixed z => Fixed z
  end.

(** A variable with its data replaced. *)
Definition with_data (v : ncvar) (data : list ncvalue) : ncvar :=
  mkVar (var_dtype v) (var_dims v) (var_zlib v) (var_fill v) (var_attrs v)
        data.

(** [partition_ok], as a test. *)
Definition partition_check (var_name : string) (f : ncfile) : bool :=
  match nc_dims f !! "time" with
  | Some (Unlimited n) =>
      forallb (fun '(name, v) =>
                 (negb (on_time_axis v) || (length (var_data v) <=? n)%nat)
                 && (negb (String.eqb name "start_time"
                           || String.eqb name "end_time"
                           || String.eqb name var_name)
                     || on_time_axis v))
              (map_to_list (nc_vars f))
  | _ => false
  end.

(** The store after a first update of the small cube. *)
Definition session_after_first_update : session nat :=
  snd (update accept_all small_cube lai_provider fresh_session).

(** The partition of [LAI] for 2001 in a store, an empty file when the
    store has none. *)
Definition lai_2001 (s : session nat) : ncfile :=
  default (empty_dataset EmptyString) (disk s !! (2001, "LAI")).

(* ===================================================================== *)
(** * Further parts of cube.py *)
(* ===================================================================== *)

(** The sub-directories of a listing, in listing order. *)
Definition dir_names (entries : list dir_entry) : list string :=
  omap (fun e => match e with
                 | Dir name _ => Some name
                 | File _ => None
                 end) entries.

(** [CubeData.shape]; the time size is the constant 0 in the source. *)
Definition shape (d : CubeData) : Z * Z * Z * Z :=
  (Z.of_nat (length (_dataset_files d)), 0,
   grid_height (cube_config d), grid_width (cube_config d)).

(** [CubeData.variable_names]: a copy of the name dictionary. *)
Definition variable_names (d : CubeData) : gmap string Z :=
  _var_name_to_var_index d.

(** The shape of a reader's tables between calls: one slot per variable
    in both slot lists, which hold the same handles, every named index
    and every index bound to a name within [0 .. n-1]. *)
Definition consistent (d : CubeData) : Prop :=
  let n := length (_dataset_files d) in
  length (_variables d) = n
  /\ _datasets d = _variables d
  /\ (forall i, is_Some (_var_index_to_var_name d !! i) ->
                0 <= i < Z.of_nat n)
  /\ (forall name i, _var_name_to_var_index d !! name = Some i ->
                     0 <= i < Z.of_nat n).

(** Two readers over the same cube, files and tables. *)
Definition same_tables (d d' : CubeData) : Prop :=
  cube_config d' = cube_config d
  /\ _dataset_files d' = _dataset_files d
  /\ _var_index_to_var_name d' = _var_index_to_var_name d
  /\ _var_name_to_var_index d' = _var_name_to_var_index d.

(** A run that leaves the files, the variable folders, the open handles,
    the log of opened files and the [datasets] dictionary as they
    were. *)
Definition same_store {P : Type} (s s' : session P) : Prop :=
  disk s' = disk s /\ folders s' = folders s
  /\ open_handles s' = open_handles s /\ opened s' = opened s
  /\ datasets s' = datasets s.

(** A result of [compute_variable_images] without any image: an error,
    [None], or a dictionary whose images are all [None]. *)
Definition no_image (r : result images) : Prop :=
  match r with
  | Ok (Some entries) => Forall (fun e => snd e = None) entries
  | _ => True
  end.

(** A provider that finds no data for any period. *)
Definition idle_provider : CubeSourceProvider nat :=
  counting_provider (fun _ => Ok None).

(** The target window of an update: the temporal coverage of the
    provider, clipped to the bounds of the configuration. *)
Definition target_window (c : CubeConfig) (coverage : datetime * datetime)
    : datetime * datetime :=
  let '(target_start_time, target_end_time) := coverage in
  (match start_time c with
   | Some t => if t >? target_start_time then t else target_start_time
   | None => target_start_time
   end,
   match end_time c with
   | Some t => if t <? target_end_time then t else target_end_time
   | None => target_end_time
   end).

(** [range(target_year_1, target_year_2 + 1)]. *)
Definition target_years (w : datetime * datetime) : list Z :=
  map (fun k => year_of (fst w) + k)
      (range (year_of (snd w) + 1 - year_of (fst w))).


(** Every run of [m] that returns normally from a store satisfying [I]
    ends in a store satisfying [I]. *)
Definition ok_keeps {S A : Type} (I : S -> Prop) (m : M S A) : Prop :=
  forall s a s', I s -> m s = (Ok a, s') -> I s'.

(** A run that opens and closes nothing and leaves the [datasets]
    dictionary as it was. *)
Definition same_handles {P : Type} (s s' : session P) : Prop :=
  open_handles s' = open_handles s /\ datasets s' = datasets s.

(** The handles of a session during an update, relative to the handles
    [base] that were live before it: handles are given out in increasing
    order, and the live ones are those of [base] and those held in the
    [datasets] dictionary, which are not in [base]. *)
Definition session_handles {P : Type} (base : gset handle) (s : session P)
    : Prop :=
  (forall h, h ∈ live (open_handles s) ->
             (h < next_handle (open_handles s))%nat)
  /\ (forall h, h ∈ live (open_handles s) <->
                h ∈ base \/ exists k, datasets s !! k = Some h)
  /\ (forall h k, datasets s !! k = Some h -> h ∉ base).

(** The two in-place changes [_init_variable_dataset] makes to a new
    file: first the dimensions, the time variables and the coordinate
    variables with their values, then the data variable with its
    attributes. *)
Definition init_coordinates (config : CubeConfig) (coverage : Z * Z * Z * Z)
    (f : ncfile) : ncfile :=
  let '(image_x0, image_y0, image_width, image_height) := coverage in
  let res := spatial_res config in
  let lon0 := (easting config + inject_Z image_x0 * res)%Q in
  let lat0 := (northing config + inject_Z image_y0 * res)%Q in
  let f := createDimension "time" None f in
  let f := createDimension "lat" (Some image_height) f in
  let f := createDimension "lon" (Some image_width) f in
  let f := createVariable "start_time" (AStr "f8") ["time"] false None f in
  let f := set_attr "start_time" "units" (time_units config) f in
  let f := set_attr "start_time" "calendar" (AStr (calendar config)) f in
  let f := createVariable "end_time" (AStr "f8") ["time"] false None f in
  let f := set_attr "end_time" "units" (time_units config) f in
  let f := set_attr "end_time" "calendar" (AStr (calendar config)) f in
  let f := createVariable "lon" (AStr "f4") ["lon"] false None f in
  let f := set_attr "lon" "units" (AStr "degrees_east") f in
  let f := createVariable "lat" (AStr "f4") ["lat"] false None f in
  let f := set_attr "lat" "units" (AStr "degrees_north") f in
  let f := fill_coordinate "lon" image_width
             (fun i => lon0 + inject_Z i * res)%Q f in
  fill_coordinate "lat" image_height
    (fun i => lat0 - inject_Z i * res)%Q f.


(** The variables [_init_variable_dataset] creates besides the data
    variable. *)
Definition coordinate_name (name : string) : bool :=
  String.eqb name "start_time" || String.eqb name "end_time"
  || String.eqb name "lon" || String.eqb name "lat".

(** [Cube.data], given the listing of [<base_dir>/data] that a new
    [CubeData] reads: the reader is made on first use and kept. *)
Definition Cube_data (c : Cube) (data_dir_entries : list dir_entry)
    : CubeData * Cube :=
  match _data c with
  | Some d => (d, c)
  | None =>
      let d := CubeData_init (_config c) (_base_dir c) data_dir_entries in
      (d, mkCube (_base_dir c) (_config c) (_closed c) (Some d))
  end.

(** A source time range with a positive temporal weight against a target
    period. *)
Definition positive_source (period_start period_end : datetime)
    (t : datetime * datetime) : Prop :=
  exists w, temporal_weight (fst t) (snd t) period_start period_end = Ok w
            /\ Qgtb w 0 = true.

(** What [compute_variable_images_from_sources] is given when a run of
    [compute_variable_images] comes to it: [j] is bound to [w] exactly
    when [j] indexes a source time range whose temporal weight against
    the period is [w > 0]. *)
Definition positive_weights (ranges : list (datetime * datetime))
    (period_start period_end : datetime) (m : gmap Z Q) : Prop :=
  forall j w,
    m !! j = Some w <->
    0 <= j /\ exists t,
      ranges !! Z.to_nat j = Some t
      /\ temporal_weight (fst t) (snd t) period_start period_end = Ok w
      /\ Qgtb w 0 = true.

(** A weighted-averaging provider with three 8-day sources; its state
    counts the calls of the combination step, which answers with one
    image. *)
Definition averaging_provider : BaseProvider nat :=
  mkBaseProvider nat
    (fun _ => [(mk_datetime 2001 1 1, mk_datetime 2001 1 9);
               (mk_datetime 2001 1 9, mk_datetime 2001 1 17);
               (mk_datetime 2001 1 17, mk_datetime 2001 1 25)])
    (fun index_to_weight n =>
       (Ok (Some [("LAI", Some small_image)]), S n)).

(** A weighted-averaging provider whose two sources are listed latest
    first. *)
Definition unsorted_provider : BaseProvider unit :=
  mkBaseProvider unit
    (fun _ => [(mk_datetime 2001 1 9, mk_datetime 2001 1 17);
               (mk_datetime 2001 1 1, mk_datetime 2001 1 9)])
    (fun _ => ret None).

(** How one item of the [variable] argument is resolved: by name, or
    else as an index that is bound to a name. *)
Definition resolves_to (d : CubeData) (v : pyval) (var_index : Z) : Prop :=
  lookup_name d v = Some var_index
  \/ (lookup_name d v = None /\ lookup_index d v = Some var_index).

(** A provider that never raises and finds no data: [prepare] and
    [close] return, the temporal coverage is [coverage], and every
    period gets [None]. *)
Definition finds_nothing {P : Type} (provider : CubeSourceProvider P)
    (coverage : datetime * datetime) : Prop :=
  (forall p, exists p', prepare provider p = (Ok tt, p'))
  /\ (forall p, exists p',
        get_temporal_coverage provider p = (Ok coverage, p'))
  /\ (forall t1 t2 p, exists p',
        compute_variable_images provider t1 t2 p = (Ok None, p'))
  /\ (forall p, exists p', close provider p = (Ok tt, p')).

(* ===================================================================== *)
(** * Binary64 arithmetic *)
(* ===================================================================== *)

(** Python's [float] is IEEE 754 binary64.  The standard defines [+],
    [-], [*] and [/] as the exact result rounded to the nearest
    representable number, ties to the even significand, and that is how
    they are given here.  A finite float is written as the rational it
    denotes; the sign of a zero is dropped, as nothing below depends on
    it. *)
Module B64.

Inductive float : Type :=
| Fin (q : Q)
| Inf (negative : bool)
| NaN.

(** [2 ^ k] for any integer [k]. *)
Definition pow2 (k : Z) : Q := (2 ^ k)%Q.

(** [floor(log2 q)] for [q > 0]. *)
Definition ilog2 (q : Q) : Z :=
  let k := Z.log2 (Qnum q) - Z.log2 (Zpos (Qden q)) in
  if Qleb (pow2 k) q then k else k - 1.

(** The exponent of the last place of the doubles of magnitude around
    [a > 0]: 53 significant bits, and [2 ^ -1074] for the subnormal
    numbers. *)
Definition exponent (a : Q) : Z := Z.max (ilog2 a - 52) (-1074).

(** The nearest multiple of [2 ^ e], ties to even. *)
Definition round_to (e : Z) (a : Q) : Q :=
  (inject_Z (py_round (a / pow2 e)) * pow2 e)%Q.

(** The double nearest to a magnitude [a >= 0], as if exponents were
    unbounded above; a double is a sign and a magnitude. *)
Definition nearest_magnitude (a : Q) : Q := round_to (exponent a) a.

Definition nearest (q : Q) : Q :=
  if Qltb q 0 then (- nearest_magnitude (- q))%Q else nearest_magnitude q.

(** Rounding to binary64: a rounded magnitude of [2 ^ 1024] or more
    overflows to an infinity. *)
Definition rnd (q : Q) : float :=
  let r := nearest q in
  if Qleb (pow2 1024) (Qabs r) then Inf (Qltb r 0) else Fin r.

(** A float literal, and a Python int where a float is expected:
    [float(n)] raises [OverflowError] beyond the range of doubles. *)
Definition of_Q (q : Q) : float := rnd q.

Definition of_Z (n : Z) : result float :=
  match rnd (inject_Z n) with
  | Inf _ => Raised OverflowError
  | x => Ok x
  end.

Definition fadd (x y : float) : float :=
  match x, y with
  | NaN, _ | _, NaN => NaN
  | Inf s, Inf s' => if Bool.eqb s s' then Inf s else NaN
  | Inf s, Fin _ => Inf s
  | Fin _, Inf s => Inf s
  | Fin a, Fin b => rnd (a + b)
  end.

Definition fsub (x y : float) : float :=
  match x, y with
  | NaN, _ | _, NaN => NaN
  | Inf s, Inf s' => if Bool.eqb s s' then NaN else Inf s
  | Inf s, Fin _ => Inf s
  | Fin _, Inf s => Inf (negb s)
  | Fin a, Fin b => rnd (a - b)
  end.

Definition fmul (x y : float) : float :=
  match x, y with
  | NaN, _ | _, NaN => NaN
  | Inf s, Inf s' => Inf (xorb s s')
  | Inf s, Fin b => if Qeqb b 0 then NaN else Inf (xorb s (Qltb b 0))
  | Fin a, Inf s => if Qeqb a 0 then NaN else Inf (xorb s (Qltb a 0))
  | Fin a, Fin b => rnd (a * b)
  end.

(** Python's [x / y] on floats raises for a zero divisor. *)
Definition fdiv (x y : float) : result float :=
  match y with
  | NaN => Ok NaN
  | Inf _ => Ok (match x with Fin _ => Fin 0 | _ => NaN end)
  | Fin b =>
      if Qeqb b 0 then Raised ZeroDivisionError
      else Ok (match x with
               | Fin a => rnd (a / b)
               | Inf s => Inf (xorb s (Qltb b 0))
               | NaN => NaN
               end)
  end.

(** Comparisons: every comparison with a NaN is false. *)
Definition flt (x y : float) : bool :=
  match x, y with
  | NaN, _ | _, NaN => false
  | Fin a, Fin b => Qltb a b
  | Inf s, Inf s' => s && negb s'
  | Inf s, Fin _ => s
  | Fin _, Inf s => negb s
  end.

Definition feq (x y : float) : bool :=
  match x, y with
  | NaN, _ | _, NaN => false
  | Fin a, Fin b => Qeqb a b
  | Inf s, Inf s' => Bool.eqb s s'
  | _, _ => false
  end.

Definition fle (x y : float) : bool := flt x y || feq x y.
Definition fgt (x y : float) : bool := flt y x.
Definition fge (x y : float) : bool := fle y x.

(** [round(x)] and [math.floor(x)] of a float: an [int], or an error for
    an infinity or a NaN. *)
Definition nan_to_integer : exn :=
  ValueError "cannot convert float NaN to integer".

Definition round (x : float) : result Z :=
  match x with
  | Fin q => Ok (py_round q)
  | Inf _ => Raised OverflowError
  | NaN => Raised nan_to_integer
  end.

Definition floor (x : float) : result Z :=
  match x with
  | Fin q => Ok (Qfloor q)
  | Inf _ => Raised OverflowError
  | NaN => Raised nan_to_integer
  end.

(** [a / b] on Python ints: the exact quotient, rounded once. *)
Definition true_div (a b : Z) : result float :=
  if b =? 0 then Raised ZeroDivisionError
  else match rnd (inject_Z a / inject_Z b) with
       | Inf _ => Raised OverflowError
       | x => Ok x
       end.

(** [x % w] for a float [x] and a non-zero number [w]: C's [fmod],
    which is exact, then [w] is added when the signs differ. *)
Definition rem (x : float) (w : Q) : float :=
  match x with
  | Fin v =>
      let r := (v - inject_Z (Z.quot (Qnum (v / w)) (Zpos (Qden (v / w))))
                    * w)%Q in
      if Qeqb r 0 then Fin 0
      else if xorb (Qltb w 0) (Qltb r 0) then rnd (r + w) else Fin r
  | _ => NaN
  end.

(** ** CubeConfig *)

(** The resolution as the code has it: the double of the configured
    value. *)
Definition res (c : CubeConfig) : float := of_Q (spatial_res c).

(** [n * self.spatial_res] for an [int] [n], which is converted
    first. *)
Definition times_res (n : Z) (c : CubeConfig) : result float :=
  let? x := of_Z n in Ok (fmul x (res c)).

(** [90.0 - self.grid_y0 * self.spatial_res]. *)
Definition northing (c : CubeConfig) : result float :=
  let? p := times_res (grid_y0 c) c in Ok (fsub (Fin 90) p).

(** [-180.0 + self.grid_x0 * self.spatial_res]. *)
Definition easting (c : CubeConfig) : result float :=
  let? p := times_res (grid_x0 c) c in Ok (fadd (Fin (-180)) p).

(** The interval endpoints of [_validate]. *)
Definition lat1 (c : CubeConfig) : result float :=
  let? p := times_res (grid_y0 c + grid_height c) c in Ok (fsub (Fin 90) p).
Definition lat2 (c : CubeConfig) : result float :=
  let? p := times_res (grid_y0 c) c in Ok (fsub (Fin 90) p).
Definition lon1 (c : CubeConfig) : result float :=
  let? p := times_res (grid_x0 c) c in Ok (fadd (Fin (-180)) p).
Definition lon2 (c : CubeConfig) : result float :=
  let? p := times_res (grid_x0 c + grid_width c) c in Ok (fadd (Fin (-180)) p).

(** The five comparisons [_validate] makes on an interval. *)
Definition bad_interval (lo hi : float) (bound : Q) : bool :=
  fge lo hi || flt lo (Fin (- bound)) || fgt lo (Fin bound)
  || flt hi (Fin (- bound)) || fgt hi (Fin bound).

(** [CubeConfig._validate], called last by the constructor. *)
Definition _validate (c : CubeConfig) : result unit :=
  if grid_x0 c <? 0 then Raised (ValueError "illegal grid_x0 value")
  else if grid_y0 c <? 0 then Raised (ValueError "illegal grid_y0 value")
  else
    let? lat1 := lat1 c in
    let? lat2 := lat2 c in
    if bad_interval lat1 lat2 90
    then Raised (ValueError
           "illegal combination of grid_y0, grid_height, spatial_res values")
    else
      let? lon1 := lon1 c in
      let? lon2 := lon2 c in
      if bad_interval lon1 lon2 180
      then Raised (ValueError
             "illegal combination of grid_x0, grid_width, spatial_res values")
      else Ok tt.

(** [CubeConfig(...)]: store the fields, then validate. *)
Definition CubeConfig_init (sr : Q) (x0 y0 w h tr : Z) (cal : string)
    (rt : datetime) (st et : option datetime) (ff : string) (cmp : bool)
    : result CubeConfig :=
  let c := mkCubeConfig sr x0 y0 w h tr cal rt st et ff cmp in
  let? _ := _validate c in Ok c.

(** [CubeConfig.geo_bounds]: ((LL-lon, LL-lat), (UR-lon, UR-lat)). *)
Definition geo_bounds (c : CubeConfig)
    : result ((float * float) * (float * float)) :=
  let? ll_lon := easting c in
  let? top := northing c in
  let? dy := times_res (grid_height c) c in
  let ll_lat := fsub top dy in
  let? left := easting c in
  let? dx := times_res (grid_width c) c in
  let ur_lon := fadd left dx in
  let? ur_lat := northing c in
  Ok ((ll_lon, ll_lat), (ur_lon, ur_lat)).

(** ** CubeData.get *)

Definition _get_lat_range (latitude : range_arg float)
    : result (float * float) :=
  let '(lat_1, lat_2) := unpack_range latitude in
  if flt lat_1 (Fin (-90)) || fgt lat_1 (Fin 90)
     || flt lat_2 (Fin (-90)) || fgt lat_2 (Fin 90) || fgt lat_1 lat_2
  then Raised (ValueError "invalid latitude argument")
  else Ok (lat_1, lat_2).

(** The per-endpoint adjustment of [_get_lon_range]. *)
Definition adjust_lon (lon : float) : float :=
  let lon := if flt lon (Fin (-180)) then rem lon 180 else lon in
  if fgt lon (Fin 180) then rem lon (-180) else lon.

Definition _get_lon_range (longitude : range_arg float) : float * float :=
  let '(lon_1, lon_2) := unpack_range longitude in
  let lon_1 := adjust_lon lon_1 in
  let lon_2 := adjust_lon lon_2 in
  let lon_2 := if fgt lon_1 lon_2 then fadd lon_2 (Fin 360) else lon_2 in
  (lon_1, lon_2).

(** [int(math.floor((t - ref_time) / timedelta(days=temporal_res)))]:
    the quotient of two timedeltas is the quotient of their
    microseconds. *)
Definition time_index (c : CubeConfig) (t : datetime) : result Z :=
  let? q := true_div (t - ref_time c) (timedelta_days (temporal_res c)) in
  floor q.

(** [int(round((90.0 - lat) / spatial_res)) - grid_y0]. *)
Definition grid_y_of (c : CubeConfig) (lat : float) : result Z :=
  let? q := fdiv (fsub (Fin 90) lat) (res c) in
  let? y := round q in
  Ok (y - grid_y0 c).

(** [int(round((180.0 + lon) / spatial_res)) - grid_x0]. *)
Definition grid_x_of (c : CubeConfig) (lon : float) : result Z :=
  let? q := fdiv (fadd (Fin 180) lon) (res c) in
  let? x := round q in
  Ok (x - grid_x0 c).

(** [90.0 - (y + grid_y0) * spatial_res] and
    [-180.0 + (x + grid_x0) * spatial_res]: the edges compared with the
    query bounds. *)
Definition row_edge (c : CubeConfig) (y : Z) : result float :=
  let? p := times_res (y + grid_y0 c) c in Ok (fsub (Fin 90) p).

Definition col_edge (c : CubeConfig) (x : Z) : result float :=
  let? p := times_res (x + grid_x0 c) c in Ok (fadd (Fin (-180)) p).

(** The two boundary corrections: [and] evaluates the edge only when
    the upper index lies above the lower one. *)
Definition upper_row (c : CubeConfig) (grid_y1 grid_y2 : Z) (lat_1 : float)
    : result Z :=
  if grid_y2 >? grid_y1
  then let? edge := row_edge c grid_y2 in
       Ok (if feq edge lat_1 then grid_y2 - 1 else grid_y2)
  else Ok grid_y2.

Definition upper_col (c : CubeConfig) (grid_x1 grid_x2 : Z) (lon_2 : float)
    : result Z :=
  if grid_x2 >? grid_x1
  then let? edge := col_edge c grid_x2 in
       Ok (if feq edge lon_2 then grid_x2 - 1 else grid_x2)
  else Ok grid_x2.

(** [int(round(360.0 / spatial_res))]. *)
Definition global_grid_width (c : CubeConfig) : result Z :=
  let? q := fdiv (Fin 360) (res c) in round q.

(** The part of [get] before any dataset is touched, statement by
    statement. *)
Definition get_plan (d : CubeData) (variable : pyval)
    (time : range_arg datetime) (latitude longitude : range_arg float)
    : result (list Z * selector * selector * selector) :=
  let? var_indexes := _get_var_indices d variable in
  let? time_range := _get_time_range time in
  let? lat_range := _get_lat_range latitude in
  let '(lon_1, lon_2) := _get_lon_range longitude in
  let config := cube_config d in
  let? time_index_1 := time_index config (fst time_range) in
  let? time_index_2 := time_index config (snd time_range) in
  let? grid_y1 := grid_y_of config (snd lat_range) in
  let? grid_y2 := grid_y_of config (fst lat_range) in
  let? grid_x1 := grid_x_of config lon_1 in
  let? grid_x2 := grid_x_of config lon_2 in
  let? grid_y2 := upper_row config grid_y1 grid_y2 (fst lat_range) in
  let? grid_x2 := upper_col config grid_x1 grid_x2 lon_2 in
  let? global_grid_width := global_grid_width config in
  if grid_x2 >=? global_grid_width then Raised dateline_error
  else Ok (var_indexes,
           select time_index_1 time_index_2,
           select grid_y1 grid_y2,
           select grid_x1 grid_x2).

(** [CubeData.get]: the plan, then the result loop. *)
Definition get (variable : pyval) (time : range_arg datetime)
    (latitude longitude : range_arg float) : M reader (list selection) :=
  fun '(d, hs) =>
    match get_plan d variable time latitude longitude with
    | Raised e => (Raised e, (d, hs))
    | Ok (var_indexes, st, sy, sx) => read_all var_indexes st sy sx [] (d, hs)
    end.

(** The row range and the column range of a query, as [get] computes
    them: the rounded indices, the upper one corrected. *)
Definition grid_rows (c : CubeConfig) (lat_1 lat_2 : float)
    : result (Z * Z) :=
  let? grid_y1 := grid_y_of c lat_2 in
  let? grid_y2 := grid_y_of c lat_1 in
  let? grid_y2 := upper_row c grid_y1 grid_y2 lat_1 in
  Ok (grid_y1, grid_y2).

Definition grid_cols (c : CubeConfig) (lon_1 lon_2 : float)
    : result (Z * Z) :=
  let? grid_x1 := grid_x_of c lon_1 in
  let? grid_x2 := grid_x_of c lon_2 in
  let? grid_x2 := upper_col c grid_x1 grid_x2 lon_2 in
  Ok (grid_x1, grid_x2).

End B64.

(** The claim on construction, read in exact arithmetic: an error exactly
    when an origin is negative or one of the two real intervals is
    degenerate or leaves its bounds. *)
Definition validate_claim (c : CubeConfig) : Prop :=
  (exists msg, B64._validate c = Raised (ValueError msg))
  <-> (grid_x0 c < 0 \/ grid_y0 c < 0
       \/ bad_interval (lat1 c) (lat2 c) 90
       \/ bad_interval (lon1 c) (lon2 c) 180).

(** A one-cell grid of resolution [1e-17]. *)
Definition tiny_config : CubeConfig :=
  mkCubeConfig (1 # 100000000000000000) 0 0 1 1 8 "gregorian"
    (mk_datetime 2001 1 1) (Some (mk_datetime 2001 1 1))
    (Some (mk_datetime 2011 1 1)) "NETCDF4_CLASSIC" false.

(** A tenth-degree grid that leaves out the two northernmost rows. *)
Definition tenth_degree_config : CubeConfig :=
  mkCubeConfig (1 # 10) 0 2 3600 1798 8 "gregorian"
    (mk_datetime 2001 1 1) (Some (mk_datetime 2001 1 1))
    (Some (mk_datetime 2011 1 1)) "NETCDF4_CLASSIC" false.




(* ===================================================================== *)
(** * Basic facts *)
(* ===================================================================== *)

Lemma Qltb_lt (x y : Q) : Qltb x y = true <-> (x < y)%Q.
Proof.
  unfold Qltb. rewrite negb_true_iff.
  destruct (Qle_bool y x) eqn:E.
  - apply Qle_bool_iff in E. split; [discriminate | intros H; lra].
  - split; [intros _ | reflexivity].
    destruct (Qlt_le_dec x y) as [H | H]; [exact H |].
    apply Qle_bool_iff in H. congruence.
Qed.

Lemma Qltb_ge (x y : Q) : Qltb x y = false <-> (y <= x)%Q.
Proof.
  unfold Qltb. rewrite negb_false_iff. apply Qle_bool_iff.
Qed.

Lemma Qleb_le (x y : Q) : Qleb x y = true <-> (x <= y)%Q.
Proof. apply Qle_bool_iff. Qed.

Lemma Qleb_gt (x y : Q) : Qleb x y = false <-> (y < x)%Q.
Proof.
  unfold Qleb. destruct (Qle_bool x y) eqn:E.
  - apply Qle_bool_iff in E. split; [discriminate | intros H; lra].
  - split; [intros _ | reflexivity].
    destruct (Qlt_le_dec y x) as [H | H]; [exact H |].
    apply Qle_bool_iff in H. congruence.
Qed.

Lemma Qeqb_eq (x y : Q) : Qeqb x y = true <-> (x == y)%Q.
Proof. apply Qeq_bool_iff. Qed.

(** Turn the boolean tests of the code into propositions over [Q]. *)
Ltac qbool :=
  repeat match goal with
  | H : _ || _ = true |- _ => apply orb_true_iff in H; destruct H as [H | H]
  | H : _ || _ = false |- _ =>
      apply orb_false_iff in H; let H' := fresh H in destruct H as [H H']
  | H : _ && _ = true |- _ =>
      apply andb_true_iff in H; let H' := fresh H in destruct H as [H H']
  | H : Qgtb _ _ = _ |- _ => unfold Qgtb in H
  | H : Qgeb _ _ = _ |- _ => unfold Qgeb in H
  | H : Qltb _ _ = true |- _ => apply Qltb_lt in H
  | H : Qltb _ _ = false |- _ => apply Qltb_ge in H
  | H : Qleb _ _ = true |- _ => apply Qleb_le in H
  | H : Qleb _ _ = false |- _ => apply Qleb_gt in H
  | H : Qeqb _ _ = true |- _ => apply Qeqb_eq in H
  end.

(* ===================================================================== *)
(** * Resolving the [variable] argument *)
(* ===================================================================== *)

(** An unresolvable item of an iterable is reported as a [ValueError]. *)
Lemma resolve_items_unresolvable d items v :
  In v items -> lookup_name d v = None -> lookup_index d v = None ->
  forall acc, resolve_items d items acc = Raised illegal_variable.
Proof.
  intros Hin Hn Hi. induction items as [| w rest IH]; [destruct Hin |].
  intros acc. simpl.
  destruct Hin as [-> | Hin].
  - rewrite Hn, Hi. reflexivity.
  - destruct (lookup_name d w); [apply IH; exact Hin |].
    destruct (lookup_index d w); [apply IH; exact Hin | reflexivity].
Qed.

Lemma get_var_indices_unresolvable_item d items v :
  In v items -> lookup_name d v = None -> lookup_index d v = None ->
  _get_var_indices d (PSeq items) = Raised illegal_variable.
Proof.
  intros Hin Hn Hi. unfold _get_var_indices. simpl.
  apply resolve_items_unresolvable with (v := v); assumption.
Qed.

(** C9 (the code departs from the specification).  A scalar integer that is not a
    variable index is not reported as a [ValueError]: the fallback loop
    [for v in variable] iterates over the integer, and the [TypeError] of
    that iteration leaves [get]. *)
Theorem get_unknown_integer_raises_type_error d hs i time latitude longitude :
  _var_index_to_var_name d !! i = None ->
  get (PInt i) time latitude longitude (d, hs)
  = (Raised int_not_iterable, (d, hs))
  /\ int_not_iterable <> illegal_variable.
Proof.
  intros Hi. split; [| discriminate].
  unfold get, get_plan, _get_var_indices. simpl. rewrite Hi. reflexivity.
Qed.

Lemma get_unknown_integer_raises_type_error_witness :
  get (PInt 7) (Scalar (mk_datetime 2001 1 20)) (Scalar 0%Q) (Scalar 0%Q)
      (two_variable_reader, no_handles)
  = (Raised int_not_iterable, (two_variable_reader, no_handles))
  /\ int_not_iterable <> illegal_variable.
Proof.
  apply (get_unknown_integer_raises_type_error two_variable_reader
           no_handles 7).
  reflexivity.
Defined.

(* ===================================================================== *)
(** * Closing a reader *)
(* ===================================================================== *)

Lemma close_from_opened pre post :
  forall i d hs,
    close_from i (map Some pre ++ None :: post) (d, hs)
    = (Raised none_has_no_close, (cleared i pre d, released pre hs)).
Proof.
  induction pre as [| h pre IH]; intros i d hs.
  - reflexivity.
  - simpl. unfold bind, modify. simpl. apply IH.
Qed.

Lemma cleared_datasets pre :
  forall i d pfx rest,
    length pfx = i ->
    _datasets d = pfx ++ map Some pre ++ rest ->
    _datasets (cleared i pre d)
    = pfx ++ replicate (length pre) None ++ rest.
Proof.
  induction pre as [| h pre IH]; intros i d pfx rest Hlen Hd.
  - exact Hd.
  - simpl. rewrite (IH (S i) _ (pfx ++ [None]) rest).
    + rewrite <- app_assoc. reflexivity.
    + rewrite length_app. simpl. lia.
    + simpl. rewrite Hd. rewrite insert_app_r_alt by lia.
      replace (i - length pfx)%nat with 0%nat by lia.
      simpl. rewrite <- app_assoc. reflexivity.
Qed.

Lemma released_live pre :
  forall hs, live (released pre hs) = live hs ∖ list_to_set pre.
Proof.
  induction pre as [| h pre IH]; intros hs; simpl.
  - symmetry. apply difference_empty_L.
  - unfold released in IH. rewrite IH. simpl.
    apply difference_difference_l_L.
Qed.

(** C10.  A new [CubeData] has [None] in every slot of its dataset list;
    accessing a variable touches no slot but that variable's; and
    [close] calls [close()] on the slots in order without a test: when
    the first unopened slot comes after the opened slots [pre], [close]
    raises there ([None] has no [close]).  The slots after it are left as
    they were, their handles stay live, and [Cube.close] fails the same
    way without marking the cube closed. *)
Theorem close_raises_at_first_unopened_slot :
  (forall config base_dir entries,
     let d := CubeData_init config base_dir entries in
     _datasets d = replicate (length (_dataset_files d)) None
     /\ _variables d = replicate (length (_dataset_files d)) None)
  /\ (forall var_index d hs r d' hs' j,
        _get_or_open_variable var_index (d, hs) = (r, (d', hs')) ->
        j <> Z.to_nat var_index ->
        _datasets d' !! j = _datasets d !! j)
  /\ (forall d hs pre post,
        _datasets d = map Some pre ++ None :: post ->
        exists d' hs',
          CubeData_close (d, hs) = (Raised none_has_no_close, (d', hs'))
          /\ _datasets d' = replicate (length pre) None ++ None :: post
          /\ live hs' = live hs ∖ list_to_set pre
          /\ (forall h, In (Some h) post -> h ∈ live hs -> ~ In h pre ->
                        h ∈ live hs')
          /\ (forall c, _data c = Some d ->
                Cube_close c hs
                = (Raised none_has_no_close,
                   mkCube (_base_dir c) (_config c) (_closed c) (Some d'),
                   hs'))).
Proof.
  split; [| split].
  - intros config base_dir entries d. split; reflexivity.
  - intros var_index d hs r d' hs' j Hrun Hj.
    unfold _get_or_open_variable in Hrun.
    destruct (_variables d !! Z.to_nat var_index) as [[variable |] |];
      try (injection Hrun as _ <- _; reflexivity).
    unfold _open_dataset in Hrun.
    destruct (_dataset_files d !! Z.to_nat var_index) as [[| file files] |];
      try (injection Hrun as _ <- _; reflexivity).
    simpl in Hrun. injection Hrun as _ <- _. simpl.
    apply list_lookup_insert_ne. congruence.
  - intros d hs pre post Hd.
    exists (cleared 0 pre d), (released pre hs).
    assert (Hclose : CubeData_close (d, hs)
                     = (Raised none_has_no_close,
                        (cleared 0 pre d, released pre hs))).
    { unfold CubeData_close, _close_datasets. rewrite Hd.
      apply close_from_opened. }
    split; [exact Hclose |]. split; [| split; [| split]].
    + apply (cleared_datasets pre 0%nat d [] (None :: post));
        [reflexivity | exact Hd].
    + apply released_live.
    + intros h _ Hlive Hpre. rewrite released_live.
      apply elem_of_difference. split; [exact Hlive |].
      rewrite elem_of_list_to_set. rewrite list_elem_of_In. exact Hpre.
    + intros c Hc. unfold Cube_close. rewrite Hc, Hclose. reflexivity.
Qed.

Lemma close_raises_at_first_unopened_slot_witness :
  exists d' hs',
    CubeData_close
      (set_slot two_variable_reader 1 (Some 0%nat) (Some 0%nat),
       mkHandles 1%nat {[ 0%nat ]})
    = (Raised none_has_no_close, (d', hs'))
    /\ _datasets d' = [None; Some 0%nat]
    /\ 0%nat ∈ live hs'.
Proof.
  destruct (proj2 (proj2 close_raises_at_first_unopened_slot)
              (set_slot two_variable_reader 1 (Some 0%nat) (Some 0%nat))
              (mkHandles 1%nat {[ 0%nat ]}) [] [Some 0%nat] eq_refl)
    as (d' & hs' & Hclose & Hslots & Hlive & Hkeep & _).
  exists d', hs'. split; [exact Hclose |]. split; [exact Hslots |].
  apply Hkeep.
  - left. reflexivity.
  - simpl. apply elem_of_singleton. reflexivity.
  - intros [].
Defined.

(* ===================================================================== *)
(** * Release of handles *)
(* ===================================================================== *)

(** C8 (the code departs from the specification).  Handles are not released on
    every exit path.  A reader over two variables of which only the
    second was read: [close] raises at the first slot and the handle of
    the second stays live.  An update whose provider fails at its second
    request: [update] ends with that error and the handle of the
    partition written for the first period stays live. *)
Theorem handles_left_open :
  (let '(r, st) := get (PInt 1) (Scalar (mk_datetime 2001 1 20))
                       (Scalar 0%Q) (Scalar 0%Q)
                       (two_variable_reader, no_handles) in
   let '(r', (d', hs')) := CubeData_close st in
   is_ok r = true /\ elements (live (snd st)) = [0%nat]
   /\ r' = Raised none_has_no_close
   /\ _datasets d' = [None; Some 0%nat]
   /\ elements (live hs') = [0%nat])
  /\ (let '(r, s) := update accept_all small_cube failing_provider
                       fresh_session in
      r = Raised (ProviderError "source file unreadable")
      /\ opened s = [((2001, "LAI"), ModeWrite)]
      /\ elements (live (open_handles s)) = [0%nat]).
Proof.
  split; vm_compute; repeat split; reflexivity.
Qed.

(* ===================================================================== *)
(** * Longitude spans across the date line *)
(* ===================================================================== *)

Lemma py_round_ge_floor (q : Q) : Qfloor q <= py_round q.
Proof.
  unfold py_round.
  destruct (Qcompare (q - inject_Z (Qfloor q)) (1 # 2));
    [destruct (Z.even (Qfloor q)) | |]; lia.
Qed.

Lemma py_round_of_integer (q : Q) (n : Z) :
  (q == inject_Z n)%Q -> py_round q = n.
Proof.
  intros H. unfold py_round.
  assert (Hf : Qfloor q = n) by (rewrite H; apply Qfloor_Z).
  rewrite Hf.
  assert (Hlt : (q - inject_Z n < 1 # 2)%Q) by (rewrite H; lra).
  replace (Qcompare (q - inject_Z n) (1 # 2)) with Lt
    by (symmetry; apply Qlt_alt; exact Hlt).
  reflexivity.
Qed.

(* ===================================================================== *)
(** * The candidate periods of a year *)
(* ===================================================================== *)

Lemma period_end_min time_1 d_time time_max :
  period_end time_1 d_time time_max = Z.min (time_1 + d_time) time_max.
Proof.
  unfold period_end.
  destruct (Z.gtb_spec (time_1 + d_time) time_max); lia.
Qed.

Lemma candidate_periods_length n :
  forall time_1 d_time time_max,
    length (candidate_periods n time_1 d_time time_max) = n.
Proof.
  induction n as [| n IH]; intros; simpl; [reflexivity |].
  rewrite IH. reflexivity.
Qed.

Lemma candidate_periods_ends n :
  forall time_1 d_time time_max,
    Forall (fun p => snd p = Z.min (fst p + d_time) time_max)
           (candidate_periods n time_1 d_time time_max).
Proof.
  induction n as [| n IH]; intros; simpl; constructor.
  - apply period_end_min.
  - apply IH.
Qed.

Lemma candidate_periods_bounds n :
  forall time_1 d_time time_max,
    0 <= d_time -> time_1 <= time_max ->
    Forall (fun p => time_1 <= fst p /\ snd p <= time_max)
           (candidate_periods n time_1 d_time time_max).
Proof.
  induction n as [| n IH]; intros time_1 d_time time_max Hd Hle; simpl;
    constructor.
  - simpl. rewrite period_end_min. lia.
  - assert (H2 : period_end time_1 d_time time_max <= time_max)
      by (rewrite period_end_min; lia).
    pose proof (IH _ d_time time_max Hd H2) as HF.
    eapply Forall_impl; [exact HF |].
    intros p [Ha Hb]. rewrite period_end_min in Ha. lia.
Qed.

Lemma candidate_periods_in_order n :
  forall time_1 d_time time_max,
    0 <= d_time -> time_1 <= time_max ->
    in_order (candidate_periods n time_1 d_time time_max).
Proof.
  induction n as [| n IH]; intros time_1 d_time time_max Hd Hle.
  - intros i j p q _ Hp. discriminate Hp.
  - assert (H2 : period_end time_1 d_time time_max <= time_max)
      by (rewrite period_end_min; lia).
    intros i j p q Hij Hp Hq. simpl in Hp, Hq.
    destruct j as [| j]; [lia |]. simpl in Hq.
    destruct i as [| i].
    + simpl in Hp. injection Hp as <-. cbn [snd].
      pose proof (candidate_periods_bounds n _ d_time time_max Hd H2) as HF.
      rewrite Forall_forall in HF.
      apply list_elem_of_lookup_2 in Hq.
      apply HF in Hq. exact (proj1 Hq).
    + simpl in Hp. apply (IH _ d_time time_max Hd H2 i j); [lia | | ];
        assumption.
Qed.

Lemma candidate_periods_cover n :
  forall time_1 d_time time_max,
    0 < d_time ->
    covers (candidate_periods n time_1 d_time time_max) time_1
           (Z.min (time_1 + Z.of_nat n * d_time) time_max).
Proof.
  induction n as [| n IH]; intros time_1 d_time time_max Hd x Hx.
  - lia.
  - simpl. destruct (Z_lt_ge_dec x (period_end time_1 d_time time_max))
      as [Hlt | Hge].
    + exists (time_1, period_end time_1 d_time time_max).
      split; [left; reflexivity | simpl; lia].
    + rewrite period_end_min in Hge.
      assert (Hend : period_end time_1 d_time time_max = time_1 + d_time)
        by (rewrite period_end_min; lia).
      destruct (IH (period_end time_1 d_time time_max) d_time time_max Hd x)
        as (p & Hin & Hp).
      { rewrite Hend. lia. }
      exists p. split; [right; exact Hin | exact Hp].
Qed.

Lemma mk_datetime_jan1 Y : mk_datetime Y 1 1 = days_before_year Y * us_per_day.
Proof.
  unfold mk_datetime, ymd2ord, days_before_month. simpl. f_equal. lia.
Qed.

Lemma days_before_next_year Y :
  days_before_year (Y + 1) = days_before_year Y + year_days Y.
Proof.
  unfold year_days, is_leap, days_before_year.
  replace (Y + 1 - 1) with Y by lia.
  destruct (Z.eqb_spec (Y mod 4) 0) as [H4 | H4];
    destruct (Z.eqb_spec (Y mod 100) 0) as [H100 | H100];
    destruct (Z.eqb_spec (Y mod 400) 0) as [H400 | H400];
    cbn [andb orb negb];
    Z.to_euclidean_division_equations; lia.
Qed.

(** Two consecutive Jan 1 are 365 days apart, 366 in a leap year. *)
Lemma year_length Y :
  mk_datetime (Y + 1) 1 1 = mk_datetime Y 1 1 + year_days Y * us_per_day.
Proof.
  rewrite !mk_datetime_jan1, days_before_next_year.
  apply Z.mul_add_distr_r.
Qed.

Lemma num_periods_bounds t :
  0 < t ->
  0 <= num_periods_per_year t
  /\ (num_periods_per_year t - 1) * t < 365
  /\ 365 <= num_periods_per_year t * t
  /\ (365 mod t <> 0 -> 366 <= num_periods_per_year t * t).
Proof.
  intros Ht. unfold num_periods_per_year.
  pose proof (Z.div_mod (- 365) t ltac:(lia)) as Hn.
  pose proof (Z.mod_pos_bound (- 365) t Ht) as Hnr.
  pose proof (Z.div_mod 365 t ltac:(lia)) as Hp.
  pose proof (Z.mod_pos_bound 365 t Ht) as Hpr.
  set (q := - 365 / t) in *. set (r := (- 365) mod t) in *.
  set (q' := 365 / t) in *. set (r' := 365 mod t) in *.
  assert (Hq : q < 0) by nia.
  repeat split; try nia.
  intros Hr'.
  assert (Hs : q + q' = 0 \/ q + q' = - 1) by nia.
  nia.
Qed.

Lemma candidate_periods_upper n :
  forall time_1 d_time time_max,
    0 <= d_time ->
    Forall (fun p => snd p <= time_1 + Z.of_nat n * d_time)
           (candidate_periods n time_1 d_time time_max).
Proof.
  induction n as [| n IH]; intros time_1 d_time time_max Hd;
    cbn [candidate_periods].
  - constructor.
  - pose proof (Z.mul_nonneg_nonneg (Z.of_nat n) d_time ltac:(lia) Hd) as Hm.
    rewrite Nat2Z.inj_succ. constructor.
    + cbn [snd]. rewrite period_end_min. lia.
    + eapply Forall_impl; [apply IH; exact Hd |].
      intros p Hp. cbv beta in Hp. rewrite period_end_min in Hp. lia.
Qed.

(** C2, as amended.  For every year [Y] and every whole number of days
    [temporal_res > 0] at which the dates of the loop stay within the
    range of [datetime], the candidate periods are
    [ceil(365 / temporal_res)] half-open intervals, the first starting
    on Jan 1 of [Y], each [temporal_res] days long unless clipped to
    Jan 1 of [Y + 1], none overlapping a later one; and they cover the
    whole year exactly when [Y] is not a leap year or [temporal_res]
    does not divide 365. *)
Theorem year_periods_partition Y t :
  0 < t ->
  dates_in_range Y t ->
  periods_laid_out Y t
  /\ (covers (year_periods Y t) (mk_datetime Y 1 1) (mk_datetime (Y + 1) 1 1)
      <-> is_leap Y = false \/ 365 mod t <> 0).
Proof.
  intros Ht _. unfold periods_laid_out, year_periods.
  destruct (num_periods_bounds t Ht) as (Hn0 & Hlo & Hhi & Hhi').
  set (n := num_periods_per_year t) in *.
  assert (Hd : 0 < timedelta_days t) by (unfold timedelta_days, us_per_day; lia).
  assert (Hyear : mk_datetime Y 1 1 <= mk_datetime (Y + 1) 1 1).
  { rewrite year_length. unfold year_days, us_per_day.
    destruct (is_leap Y); lia. }
  rewrite candidate_periods_length, Z2Nat.id by exact Hn0.
  split.
  - split; [split; assumption |]. split; [| split].
    + destruct (Z.to_nat n) as [| k] eqn:E; [lia |].
      eexists. split; reflexivity.
    + apply candidate_periods_ends.
    + apply candidate_periods_in_order; [lia | exact Hyear].
  - split.
    + intros Hcover.
      destruct (is_leap Y) eqn:Hleap; [| left; reflexivity].
      right. intros Hdiv.
      assert (Hnt : n * t = 365).
      { pose proof (Z.div_mod 365 t ltac:(lia)) as Hdm.
        rewrite Hdiv, Z.add_0_r in Hdm.
        assert (Hq : n - 1 < 365 / t).
        { apply (Z.mul_lt_mono_pos_r t); [exact Ht |]. lia. }
        assert (Hq' : 365 / t <= n).
        { apply (Z.mul_le_mono_pos_r _ _ t); [exact Ht |]. lia. }
        replace n with (365 / t) by lia. lia. }
      destruct (Hcover (mk_datetime Y 1 1 + 365 * us_per_day))
        as (p & Hin & Hp).
      { rewrite year_length. unfold year_days. rewrite Hleap.
        unfold us_per_day. lia. }
      pose proof (candidate_periods_upper (Z.to_nat n) (mk_datetime Y 1 1)
                    (timedelta_days t) (mk_datetime (Y + 1) 1 1)
                    ltac:(lia)) as Hup.
      rewrite Forall_forall in Hup. apply list_elem_of_In, Hup in Hin.
      rewrite Z2Nat.id in Hin by exact Hn0.
      unfold timedelta_days in Hin.
      rewrite Z.mul_assoc, Hnt in Hin.
      destruct p as [a b]. cbn [fst snd] in *. lia.
    + intros Hcase.
      pose proof (candidate_periods_cover (Z.to_nat n) (mk_datetime Y 1 1)
                    (timedelta_days t) (mk_datetime (Y + 1) 1 1) Hd) as Hc.
      rewrite Z2Nat.id in Hc by exact Hn0.
      replace (Z.min (mk_datetime Y 1 1 + n * timedelta_days t)
                     (mk_datetime (Y + 1) 1 1))
        with (mk_datetime (Y + 1) 1 1) in Hc; [exact Hc |].
      rewrite year_length. unfold timedelta_days, year_days, us_per_day.
      destruct Hcase as [Hleap | Hdiv].
      * rewrite Hleap. lia.
      * specialize (Hhi' Hdiv). destruct (is_leap Y); lia.
Qed.

Lemma year_periods_partition_witness :
  (periods_laid_out 2001 8
   /\ (covers (year_periods 2001 8) (mk_datetime 2001 1 1)
         (mk_datetime (2001 + 1) 1 1)
       <-> is_leap 2001 = false \/ 365 mod 8 <> 0))
  /\ (periods_laid_out 2004 1
      /\ (covers (year_periods 2004 1) (mk_datetime 2004 1 1)
            (mk_datetime (2004 + 1) 1 1)
          <-> is_leap 2004 = false \/ 365 mod 1 <> 0)).
Proof.
  split.
  - apply (year_periods_partition 2001 8); [lia |].
    split; [lia | vm_compute; discriminate].
  - apply (year_periods_partition 2004 1); [lia |].
    split; [lia | vm_compute; discriminate].
Defined.

(** The non-leap year 2001 at 8 days: 46 periods, the last one clipped
    to end on 2002-01-01. *)
Example year_2001_has_46_periods :
  length (year_periods 2001 8) = 46%nat
  /\ head (year_periods 2001 8) = Some (mk_datetime 2001 1 1, mk_datetime 2001 1 9)
  /\ last (year_periods 2001 8)
     = Some (mk_datetime 2001 12 27, mk_datetime 2002 1 1).
Proof. repeat split. Qed.

(** C2 fails as stated: in the leap year 2004 at [temporal_res = 1] the
    365 one-day periods end with 2004-12-30 to 2004-12-31, so no period
    holds the instants of 2004-12-31. *)
Lemma year_periods_counterexample :
  last (year_periods 2004 1)
  = Some (mk_datetime 2004 12 30, mk_datetime 2004 12 31)
  /\ ~ periods_claim 2004 1.
Proof.
  split; [reflexivity |].
  intros (_ & _ & _ & _ & Hcover).
  destruct (Hcover (mk_datetime 2004 12 31)) as (p & Hin & Hp).
  { vm_compute. split; [intros H; discriminate H | reflexivity]. }
  assert (Hall : forallb (fun p => snd p <=? mk_datetime 2004 12 31)
                         (year_periods 2004 1) = true)
    by (vm_compute; reflexivity).
  rewrite forallb_forall in Hall. apply Hall in Hin.
  apply Z.leb_le in Hin. destruct p as [a b]. cbn [fst snd] in *. lia.
Qed.

(* ===================================================================== *)
(** * The weighted-averaging provider *)
(* ===================================================================== *)

(** The weighting loop keeps, for every source range of non-zero
    duration, exactly the positive weights [overlap / duration], under
    the index of the range. *)
Lemma weigh_sources_lookup period_start period_end ranges :
  Forall (fun r => snd r - fst r <> 0) ranges ->
  forall i m,
  exists m',
    weigh_sources i ranges period_start period_end m = Ok m'
    /\ forall j,
         m' !! j =
         match (if Z.leb i j then ranges !! Z.to_nat (j - i) else None) with
         | Some r => if Qgtb (weight_of r period_start period_end) 0
                     then Some (weight_of r period_start period_end)
                     else m !! j
         | None => m !! j
         end.
Proof.
  induction 1 as [| [a b] ranges Hab _ IH]; intros i m.
  - exists m. split; [reflexivity |]. intros j.
    destruct (Z.leb i j); reflexivity.
  - cbn [fst snd] in Hab. simpl. unfold temporal_weight.
    destruct (Z.eqb_spec (b - a) 0) as [E | _]; [contradiction |].
    simpl.
    change (inject_Z (overlap a b period_start period_end) / inject_Z (b - a))%Q
      with (weight_of (a, b) period_start period_end).
    set (w := weight_of (a, b) period_start period_end).
    destruct (IH (i + 1) (if Qgtb w 0 then <[i:=w]> m else m))
      as (m' & Hm' & Hlook).
    exists m'. split; [exact Hm' |]. intros j. rewrite Hlook.
    destruct (Z.leb_spec (i + 1) j) as [H1 | H1];
      destruct (Z.leb_spec i j) as [H0 | H0]; try lia.
    + replace (Z.to_nat (j - i)) with (S (Z.to_nat (j - (i + 1)))) by lia.
      simpl.
      destruct (ranges !! Z.to_nat (j - (i + 1))) as [r |]; [
        destruct (Qgtb (weight_of r period_start period_end) 0);
          [reflexivity |] |];
        (destruct (Qgtb w 0); [apply lookup_insert_ne; lia | reflexivity]).
    + replace j with i by lia. rewrite Z.sub_diag. simpl. fold w.
      destruct (Qgtb w 0); [apply lookup_insert_eq | reflexivity].
    + destruct (Qgtb w 0); [apply lookup_insert_ne; lia | reflexivity].
Qed.

(** With sources of non-zero duration, [compute_variable_images] returns
    [None] when no weight is positive, and otherwise hands the weights
    to the subclass and returns its dictionary. *)
Lemma base_compute_variable_images_some {P : Type} (bp : BaseProvider P)
    period_start period_end p :
  get_source_time_ranges bp p <> [] ->
  Forall (fun r => snd r - fst r <> 0) (get_source_time_ranges bp p) ->
  exists m,
    weigh_sources 0 (get_source_time_ranges bp p) period_start period_end ∅
      = Ok m
    /\ (m = ∅ ->
        base_compute_variable_images bp period_start period_end p
        = (Ok None, p))
    /\ (m <> ∅ -> forall r p',
        compute_variable_images_from_sources bp m p = (Ok (Some r), p') ->
        base_compute_variable_images bp period_start period_end p
        = (Ok (Some r), p')).
Proof.
  intros Hne Hdur.
  destruct (weigh_sources_lookup period_start period_end _ Hdur 0 ∅)
    as (m & Hm & _).
  exists m. split; [exact Hm |].
  unfold base_compute_variable_images, bind, gets, lift_result.
  destruct (get_source_time_ranges bp p) as [| r0 rest] eqn:E;
    [contradiction |].
  cbn [length Nat.eqb]. rewrite Hm.
  split.
  - intros ->. rewrite bool_decide_eq_true_2 by reflexivity. reflexivity.
  - intros Hm0 r p' Hr. rewrite bool_decide_eq_false_2 by exact Hm0.
    rewrite Hr. reflexivity.
Qed.

(** C3 (the code departs from the specification).  When some source has a
    positive weight and [compute_variable_images_from_sources] returns
    [None], as its documentation allows, [compute_variable_images] does
    not return that result: the log line after the call evaluates
    [result.keys()] and raises an [AttributeError]. *)
Theorem base_compute_variable_images_none_raises {P : Type}
    (bp : BaseProvider P) period_start period_end p m p' :
  get_source_time_ranges bp p <> [] ->
  weigh_sources 0 (get_source_time_ranges bp p) period_start period_end ∅
    = Ok m ->
  m <> ∅ ->
  compute_variable_images_from_sources bp m p = (Ok None, p') ->
  base_compute_variable_images bp period_start period_end p
  = (Raised none_has_no_keys, p').
Proof.
  intros Hne Hm Hm0 Hr.
  unfold base_compute_variable_images, bind, gets, lift_result.
  destruct (get_source_time_ranges bp p) as [| r0 rest] eqn:E;
    [contradiction |].
  cbn [length Nat.eqb]. rewrite Hm.
  rewrite bool_decide_eq_false_2 by exact Hm0.
  rewrite Hr. reflexivity.
Qed.

Lemma base_compute_variable_images_none_raises_witness :
  base_compute_variable_images empty_handed_provider
    (mk_datetime 2001 1 1) (mk_datetime 2001 1 9) tt
  = (Raised none_has_no_keys, tt).
Proof.
  eapply (base_compute_variable_images_none_raises empty_handed_provider
            (mk_datetime 2001 1 1) (mk_datetime 2001 1 9) tt _ tt).
  - discriminate.
  - vm_compute. reflexivity.
  - intros H. apply (f_equal (fun m => m !! 0)) in H. discriminate H.
  - reflexivity.
Defined.

(* ===================================================================== *)
(** * Reasoning about runs of the store monad *)
(* ===================================================================== *)

Lemma bind_inv {S A B : Type} (m : M S A) (k : A -> M S B) s r s' :
  bind m k s = (r, s') ->
  (exists a s1, m s = (Ok a, s1) /\ k a s1 = (r, s'))
  \/ (exists e, m s = (Raised e, s') /\ r = Raised e).
Proof.
  unfold bind. destruct (m s) as [[a | e] s1]; intros H.
  - left. exists a, s1. split; [reflexivity | exact H].
  - right. exists e. injection H as <- <-. split; reflexivity.
Qed.

Lemma bind_ok {S A B : Type} (m : M S A) (k : A -> M S B) s a s1 :
  m s = (Ok a, s1) -> bind m k s = k a s1.
Proof. intros H. unfold bind. rewrite H. reflexivity. Qed.

Section Steps.

Context {S : Type} (R : S -> S -> Prop).
Hypothesis R_refl : forall s, R s s.
Hypothesis R_trans : forall s1 s2 s3, R s1 s2 -> R s2 s3 -> R s1 s3.

Lemma steps_ret {A : Type} (a : A) : steps R (ret a).
Proof. intros s r s' H. injection H as _ <-. apply R_refl. Qed.

Lemma steps_raise {A : Type} (e : exn) : steps R (@raise S A e).
Proof. intros s r s' H. injection H as _ <-. apply R_refl. Qed.

Lemma steps_gets {A : Type} (f : S -> A) : steps R (gets f).
Proof. intros s r s' H. injection H as _ <-. apply R_refl. Qed.

Lemma steps_lift_result {A : Type} (x : result A) :
  steps R (@lift_result S A x).
Proof. intros s r s' H. injection H as _ <-. apply R_refl. Qed.

Lemma steps_modify (f : S -> S) :
  (forall s, R s (f s)) -> steps R (modify f).
Proof. intros Hf s r s' H. injection H as _ <-. apply Hf. Qed.

Lemma steps_bind {A B : Type} (m : M S A) (k : A -> M S B) :
  steps R m -> (forall a, steps R (k a)) -> steps R (bind m k).
Proof.
  intros Hm Hk s r s' H.
  destruct (bind_inv m k s r s' H) as [(a & s1 & H1 & H2) | (e & H1 & _)].
  - eapply R_trans; [eapply Hm; exact H1 | eapply Hk; exact H2].
  - eapply Hm; exact H1.
Qed.

Lemma steps_for_each {A : Type} (xs : list A) (body : A -> M S unit) :
  (forall x, steps R (body x)) -> steps R (for_each xs body).
Proof.
  intros Hb. induction xs as [| x xs IH]; simpl.
  - apply steps_ret.
  - apply steps_bind; [apply Hb | intros _; exact IH].
Qed.

End Steps.

(** One step of a proof that a computation [steps] along a relation:
    follow the structure of the code down to the store primitives. *)
Ltac steps_step Hrefl Htrans :=
  first
    [ apply (steps_ret _ Hrefl)
    | apply (steps_raise _ Hrefl)
    | apply (steps_gets _ Hrefl)
    | apply (steps_lift_result _ Hrefl)
    | apply (steps_bind _ Htrans); [| intros ?]
    | apply (steps_for_each _ Hrefl Htrans); intros ?
    | match goal with
      | |- steps _ (let '(_, _) := ?x in _) => destruct x
      | |- steps _ (match ?x with _ => _ end) => destruct x
      | |- steps _ (if ?b then _ else _) => destruct b
      end ].

Ltac steps_structure Hrefl Htrans := repeat steps_step Hrefl Htrans.

Section SessionSteps.

Context {P : Type} (R : session P -> session P -> Prop).
Hypothesis R_refl : forall s, R s s.

Lemma steps_on_provider {A : Type} (m : M P A) :
  (forall s p, R s (set_provider_state p s)) -> steps R (on_provider m).
Proof.
  intros Hp s r s' H. unfold on_provider in H.
  destruct (m (provider_state s)) as [r0 p']. injection H as _ <-. apply Hp.
Qed.

Lemma steps_read_file (k : pkey) : steps R (read_file k).
Proof.
  intros s r s' H. unfold read_file in H.
  destruct (disk s !! k); injection H as _ <-; apply R_refl.
Qed.

Lemma steps_Dataset (k : pkey) (mode : open_mode) (format : string) :
  (forall s hs, R s (log_open k ModeAppend (set_open_handles hs s))) ->
  (forall s hs,
     R s (set_disk (<[ k := empty_dataset format ]> (disk s))
            (log_open k ModeWrite (set_open_handles hs s)))) ->
  mode = ModeAppend \/ (forall s, R s s) ->
  steps R (Dataset k mode format).
Proof.
  intros Ha Hw _ s r s' H. unfold Dataset in H.
  destruct (open_handle (open_handles s)) as [h hs].
  destruct mode; injection H as _ <-; [apply Ha | apply Hw].
Qed.

End SessionSteps.

(* ===================================================================== *)
(** * The provider calls of [update] *)
(* ===================================================================== *)

Lemma same_calls_refl {P : Type} (s : session (P * call_trace)) :
  same_calls s s.
Proof. reflexivity. Qed.

Lemma same_calls_trans {P : Type} (s1 s2 s3 : session (P * call_trace)) :
  same_calls s1 s2 -> same_calls s2 s3 -> same_calls s1 s3.
Proof. unfold same_calls. congruence. Qed.

(** The methods of a traced provider other than
    [compute_variable_images] leave the trace alone. *)
Lemma on_provider_same_calls {P A : Type} (m : M P A) :
  steps same_calls (on_provider (untraced m)).
Proof.
  intros s r s' H. unfold on_provider, untraced in H.
  unfold same_calls, trace.
  destruct (provider_state s) as [p t]. destruct (m p) as [r0 p'].
  injection H as _ <-. reflexivity.
Qed.

(** [compute_variable_images] of a traced provider enters its
    arguments, whether the provider behind it returns or raises. *)
Lemma on_provider_traced_call {P : Type} (provider : CubeSourceProvider P)
    time_1 time_2 (s : session (P * call_trace)) r s' :
  on_provider (compute_variable_images (traced provider) time_1 time_2) s
  = (r, s') ->
  trace s' = trace s ++ [(time_1, time_2)].
Proof.
  intros H. unfold on_provider in H. cbn [compute_variable_images traced] in H.
  unfold trace.
  destruct (provider_state s) as [p t].
  destruct (compute_variable_images provider time_1 time_2 p) as [r0 p'].
  injection H as _ <-. reflexivity.
Qed.

Ltac same_calls_leaves :=
  first
    [ apply on_provider_same_calls
    | apply (steps_read_file same_calls same_calls_refl)
    | apply steps_modify; intros; reflexivity
    | apply (steps_Dataset same_calls); [intros; reflexivity ..| right; reflexivity] ].

Lemma write_images_same_calls {P : Type} accepts_attr cube
    (provider : CubeSourceProvider P) target_time_range var_name_to_image :
  steps same_calls
    (_write_images accepts_attr cube (traced provider) target_time_range
       var_name_to_image).
Proof.
  unfold _write_images, _write_image, write_record, obtain_dataset,
    _init_variable_dataset, update_file.
  cbn [traced get_spatial_coverage get_variable_descriptors].
  repeat first
    [ progress steps_structure (@same_calls_refl P) (@same_calls_trans P)
    | same_calls_leaves ].
Qed.

Lemma close_datasets_same_calls {P : Type} :
  steps (@same_calls P) close_datasets.
Proof.
  unfold close_datasets, Dataset_close.
  repeat first
    [ progress steps_structure (@same_calls_refl P) (@same_calls_trans P)
    | same_calls_leaves ].
Qed.

(** One request for the images of a period, with the writing of what
    comes back: the trace gains this period and nothing else. *)
Lemma request_images_calls {P : Type} accepts_attr cube
    (provider : CubeSourceProvider P) time_1 time_2 s r s' :
  (var_name_to_image <-
     on_provider (compute_variable_images (traced provider) time_1 time_2) ;;
   match var_name_to_image with
   | Some (entry :: entries) =>
       _write_images accepts_attr cube (traced provider) (time_1, time_2)
         (entry :: entries)
   | _ => ret tt
   end) s = (r, s') ->
  trace s' = trace s ++ [(time_1, time_2)].
Proof.
  intros H. apply bind_inv in H.
  destruct H as [(v & s1 & Hcall & Hrest) | (e & Hcall & _)].
  - apply on_provider_traced_call in Hcall. rewrite <- Hcall.
    destruct v as [[| entry entries] |].
    + injection Hrest as _ <-. reflexivity.
    + apply write_images_same_calls in Hrest. exact Hrest.
    + injection Hrest as _ <-. reflexivity.
  - apply on_provider_traced_call in Hcall. exact Hcall.
Qed.

(** The inner loop asks the provider for exactly the candidate periods of
    positive weight, in order; when it raises, for a prefix of them. *)
Lemma period_loop_calls {P : Type} accepts_attr cube
    (provider : CubeSourceProvider P) d_time time_max
    target_start_time target_end_time n :
  forall time_1 s r s',
    period_loop accepts_attr cube (traced provider) n time_1 d_time time_max
      target_start_time target_end_time s = (r, s') ->
    exists l,
      trace s' = trace s ++ l
      /\ l `prefix_of`
           List.filter (positive_weight target_start_time target_end_time)
             (candidate_periods n time_1 d_time time_max)
      /\ (r = Ok tt ->
          l = List.filter (positive_weight target_start_time target_end_time)
                (candidate_periods n time_1 d_time time_max)).
Proof.
  induction n as [| n IH]; intros time_1 s r s' Hrun.
  - injection Hrun as <- <-. exists []. rewrite app_nil_r.
    split; [reflexivity |]. split; [reflexivity | intros _; reflexivity].
  - cbn [period_loop candidate_periods List.filter] in *.
    set (time_2 := period_end time_1 d_time time_max) in *.
    apply bind_inv in Hrun.
    destruct Hrun as [(weight & s1 & Hw & Hrun) | (e & Hw & ->)].
    2:{ unfold lift_result in Hw. injection Hw as _ <-.
        exists []. rewrite app_nil_r. split; [reflexivity |].
        split; [apply prefix_nil | intros H; discriminate H]. }
    unfold lift_result in Hw. injection Hw as Hw <-.
    assert (Hpos : positive_weight target_start_time target_end_time
                     (time_1, time_2) = Qgtb weight 0).
    { unfold positive_weight. cbn [fst snd]. rewrite Hw. reflexivity. }
    rewrite Hpos.
    apply bind_inv in Hrun.
    destruct (Qgtb weight 0).
    + destruct Hrun as [(u & s2 & Hbody & Hrest) | (e & Hbody & ->)].
      * apply request_images_calls in Hbody.
        destruct (IH time_2 s2 r s' Hrest) as (l & Hl & Hpre & Hok).
        exists ((time_1, time_2) :: l). rewrite Hl, Hbody, <- app_assoc.
        split; [reflexivity |]. split.
        -- apply prefix_cons. exact Hpre.
        -- intros Hr. rewrite (Hok Hr). reflexivity.
      * apply request_images_calls in Hbody.
        exists [(time_1, time_2)]. split; [exact Hbody |]. split.
        -- apply prefix_cons. apply prefix_nil.
        -- intros H; discriminate H.
    + destruct Hrun as [(u & s2 & Hbody & Hrest) | (e & Hbody & _)];
        [| discriminate Hbody].
      injection Hbody as _ <-.
      exact (IH time_2 s r s' Hrest).
Qed.


(** ** Updates that find no data return *)

Lemma target_years_bounds w :
  Forall (fun Y => year_of (fst w) <= Y <= year_of (snd w)) (target_years w).
Proof.
  unfold target_years, range. apply Forall_forall. intros Y HY.
  apply list_elem_of_fmap in HY. destruct HY as (k & -> & Hk).
  apply list_elem_of_fmap in Hk. destruct Hk as (i & -> & Hi).
  apply elem_of_seq in Hi. lia.
Qed.


Lemma on_provider_untraced_ok {P A : Type} (m : M P A) (a : A)
    (s : session (P * call_trace)) :
  (forall p, exists p', m p = (Ok a, p')) ->
  exists s', on_provider (untraced m) s = (Ok a, s')
             /\ datasets s' = datasets s.
Proof.
  intros Hm. unfold on_provider, untraced.
  destruct (provider_state s) as [p t]. destruct (Hm p) as [p' ->].
  eexists. split; reflexivity.
Qed.

(** With periods of positive length and a provider that finds nothing,
    the inner loop returns and opens no dataset. *)
Lemma period_loop_idle {P : Type} accepts_attr cube
    (provider : CubeSourceProvider P) d_time time_max
    target_start_time target_end_time :
  (forall t1 t2 p, exists p',
     compute_variable_images provider t1 t2 p = (Ok None, p')) ->
  forall n time_1 s,
    (n = 0%nat
     \/ (0 < d_time /\ time_1 + (Z.of_nat n - 1) * d_time < time_max)) ->
    exists s',
      period_loop accepts_attr cube (traced provider) n time_1 d_time
        time_max target_start_time target_end_time s = (Ok tt, s')
      /\ datasets s' = datasets s.
Proof.
  intros Hcomp. induction n as [| n IH]; intros time_1 s Hn.
  - exists s. split; reflexivity.
  - destruct Hn as [Hn | [Hd Hn]]; [discriminate |].
    rewrite Nat2Z.inj_succ in Hn.
    replace (Z.succ (Z.of_nat n) - 1) with (Z.of_nat n) in Hn by lia.
    assert (Hnd : 0 <= Z.of_nat n * d_time) by nia.
    cbn [period_loop].
    set (time_2 := period_end time_1 d_time time_max).
    assert (H2 : time_2 = Z.min (time_1 + d_time) time_max)
      by apply period_end_min.
    assert (Hw : exists weight,
              temporal_weight time_1 time_2 target_start_time target_end_time
              = Ok weight).
    { unfold temporal_weight.
      destruct (Z.eqb_spec (time_2 - time_1) 0) as [E | _]; [lia |].
      eexists. reflexivity. }
    destruct Hw as [weight Hw]. rewrite Hw.
    unfold bind at 1. unfold lift_result at 1.
    assert (Hbody : exists s1,
      (if Qgtb weight 0
       then
         var_name_to_image <-
           on_provider (compute_variable_images (traced provider)
                          time_1 time_2) ;;
         match var_name_to_image with
         | Some (entry :: entries) =>
             _write_images accepts_attr cube (traced provider)
               (time_1, time_2) (entry :: entries)
         | _ => ret tt
         end
       else ret tt) s = (Ok tt, s1)
      /\ datasets s1 = datasets s).
    { destruct (Qgtb weight 0).
      - unfold bind, on_provider. cbn [compute_variable_images traced].
        destruct (provider_state s) as [p t].
        destruct (Hcomp time_1 time_2 p) as [p' ->].
        eexists. split; reflexivity.
      - exists s. split; reflexivity. }
    destruct Hbody as (s1 & Hbody & Hds1).
    rewrite (bind_ok _ _ _ _ _ Hbody).
    destruct (IH time_2 s1) as (s' & Hrest & Hds').
    { destruct n as [| n']; [left; reflexivity | right].
      split; [exact Hd |]. rewrite Nat2Z.inj_succ in *. nia. }
    exists s'. split; [exact Hrest | congruence].
Qed.

Lemma year_loop_body_idle {P : Type} accepts_attr cube
    (provider : CubeSourceProvider P) target_start_time target_end_time Y s :
  (forall t1 t2 p, exists p',
     compute_variable_images provider t1 t2 p = (Ok None, p')) ->
  temporal_res (_config cube) <> 0 ->
  1 <= Y <= 9998 ->
  exists s',
    year_loop_body accepts_attr cube (traced provider) target_start_time
      target_end_time Y s = (Ok tt, s')
    /\ datasets s' = datasets s.
Proof.
  intros Hcomp Htr HY. unfold year_loop_body.
  assert (H1 : jan1 Y = Ok (mk_datetime Y 1 1)).
  { unfold jan1. replace (1 <=? Y) with true by (symmetry; apply Z.leb_le; lia).
    replace (Y <=? 9999) with true by (symmetry; apply Z.leb_le; lia).
    reflexivity. }
  assert (H2 : jan1 (Y + 1) = Ok (mk_datetime (Y + 1) 1 1)).
  { unfold jan1.
    replace (1 <=? Y + 1) with true by (symmetry; apply Z.leb_le; lia).
    replace (Y + 1 <=? 9999) with true by (symmetry; apply Z.leb_le; lia).
    reflexivity. }
  rewrite H1, H2.
  erewrite bind_ok; [| reflexivity].
  erewrite bind_ok; [| reflexivity].
  apply period_loop_idle; [exact Hcomp |].
  set (t := temporal_res (_config cube)) in *.
  destruct (Z_lt_le_dec t 0) as [Hneg | Hpos].
  - left. unfold num_periods_per_year.
    assert (0 <= -365 / t).
    { pose proof (Z.div_mod (-365) t ltac:(lia)) as Hd.
      pose proof (Z.mod_neg_bound (-365) t Hneg) as Hm. nia. }
    lia.
  - right. assert (Ht : 0 < t) by lia.
    destruct (num_periods_bounds t Ht) as (Hn0 & Hlo & _ & _).
    split; [unfold timedelta_days, us_per_day; lia |].
    rewrite Z2Nat.id by exact Hn0.
    rewrite year_length. unfold timedelta_days, year_days, us_per_day.
    destruct (is_leap Y); nia.
Qed.

Lemma year_loop_idle {P : Type} accepts_attr cube
    (provider : CubeSourceProvider P) target_start_time target_end_time
    years :
  (forall t1 t2 p, exists p',
     compute_variable_images provider t1 t2 p = (Ok None, p')) ->
  temporal_res (_config cube) <> 0 ->
  Forall (fun Y => 1 <= Y <= 9998) years ->
  forall s,
  exists s',
    for_each years
      (year_loop_body accepts_attr cube (traced provider) target_start_time
         target_end_time) s = (Ok tt, s')
    /\ datasets s' = datasets s.
Proof.
  intros Hcomp Htr. induction 1 as [| Y years HY _ IH]; intros s.
  - exists s. split; reflexivity.
  - cbn [for_each].
    destruct (year_loop_body_idle accepts_attr cube provider
                target_start_time target_end_time Y s Hcomp Htr HY)
      as (s1 & H1 & Hd1).
    rewrite (bind_ok _ _ _ _ _ H1).
    destruct (IH s1) as (s' & H' & Hd'). exists s'.
    split; [exact H' | congruence].
Qed.

(** An update from a provider that never raises and finds no data
    returns normally. *)
Lemma update_idle_returns {P : Type} accepts_attr cube
    (provider : CubeSourceProvider P) coverage s :
  _closed cube = false ->
  temporal_res (_config cube) <> 0 ->
  finds_nothing provider coverage ->
  1 <= year_of (fst (target_window (_config cube) coverage)) ->
  year_of (snd (target_window (_config cube) coverage)) <= 9998 ->
  exists s', update accepts_attr cube (traced provider) s = (Ok tt, s').
Proof.
  intros Hclosed Htr (Hprep & Hcov & Hcomp & Hclose) Hy1 Hy2.
  unfold update. rewrite Hclosed.
  destruct (on_provider_untraced_ok (prepare provider) tt s Hprep)
    as (s1 & H1 & _).
  change (on_provider (prepare (traced provider)))
    with (on_provider (untraced (prepare provider))).
  rewrite (bind_ok _ _ _ _ _ H1).
  destruct (on_provider_untraced_ok (get_temporal_coverage provider)
              coverage s1 Hcov) as (s2 & H2 & _).
  change (on_provider (get_temporal_coverage (traced provider)))
    with (on_provider (untraced (get_temporal_coverage provider))).
  rewrite (bind_ok _ _ _ _ _ H2).
  pose proof (target_years_bounds (target_window (_config cube) coverage))
    as Hyears.
  revert Hy1 Hy2 Hyears. unfold target_years, target_window.
  destruct coverage as [target_start_time target_end_time].
  cbv zeta. cbn [fst snd].
  set (ts := match start_time (_config cube) with
             | Some t => if t >? target_start_time then t
                         else target_start_time
             | None => target_start_time
             end).
  set (te := match end_time (_config cube) with
             | Some t => if t <? target_end_time then t
                         else target_end_time
             | None => target_end_time
             end).
  intros Hy1 Hy2 Hyears.
  destruct (Z.eqb_spec (temporal_res (_config cube)) 0) as [E | _];
    [contradiction |].
  erewrite bind_ok; [| reflexivity].
  destruct (year_loop_idle accepts_attr cube provider ts te
              (map (fun k => year_of ts + k)
                   (range (year_of te + 1 - year_of ts)))
              Hcomp Htr) with (s := set_datasets ∅ s2)
    as (s4 & H4 & Hd4).
  { eapply Forall_impl; [exact Hyears |].
    intros Y HY. cbv beta in HY. lia. }
  rewrite (bind_ok _ _ _ _ _ H4).
  assert (H5 : close_datasets s4 = (Ok tt, s4)).
  { unfold close_datasets, bind, gets. rewrite Hd4.
    cbn [datasets set_datasets]. rewrite map_to_list_empty. reflexivity. }
  rewrite (bind_ok _ _ _ _ _ H5).
  destruct (on_provider_untraced_ok (close provider) tt s4 Hclose)
    as (s6 & H6 & _).
  exists s6. exact H6.
Qed.

(** The coverage a traced provider reports is the one of the provider
    behind it. *)
Lemma traced_coverage {P : Type} (provider : CubeSourceProvider P)
    (coverage : datetime * datetime) (s : session (P * call_trace)) c s' :
  (forall p c p',
     get_temporal_coverage provider p = (Ok c, p') -> c = coverage) ->
  on_provider (get_temporal_coverage (traced provider)) s = (Ok c, s') ->
  c = coverage.
Proof.
  intros Hcov H. unfold on_provider in H.
  cbn [get_temporal_coverage traced] in H. unfold untraced in H.
  destruct (provider_state s) as [p t].
  destruct (get_temporal_coverage provider p) as [rc pc] eqn:E.
  injection H as -> _. exact (Hcov _ _ _ E).
Qed.

(** C1.  A cube with [temporal_res = 8], [start_time = 2001-01-01] and
    [end_time = 2001-02-01], updated from a provider whose temporal
    coverage is [2001-01-01, 2001-02-01): the candidate periods of 2001
    with a positive overlap weight are the four periods from 01-01,
    01-09, 01-17 and 01-25 (the last one ending 02-02); all other periods
    of the year have weight zero and are skipped.  The provider is
    traced, so that its state shows the calls of
    [compute_variable_images] it has received: an update that completes
    has called it with exactly these four periods, in this order, and
    with nothing else; one that raises has called it with a prefix of
    them.  When the provider never raises and finds no data, the update
    does complete, with these four calls. *)
Theorem update_january_2001_calls {P : Type} accepts_attr cube
    (provider : CubeSourceProvider P) s r s' :
  _closed cube = false ->
  temporal_res (_config cube) = 8 ->
  start_time (_config cube) = Some (mk_datetime 2001 1 1) ->
  end_time (_config cube) = Some (mk_datetime 2001 2 1) ->
  (forall p coverage p',
     get_temporal_coverage provider p = (Ok coverage, p') ->
     coverage = (mk_datetime 2001 1 1, mk_datetime 2001 2 1)) ->
  update accepts_attr cube (traced provider) s = (r, s') ->
  List.filter (positive_weight (mk_datetime 2001 1 1) (mk_datetime 2001 2 1))
    (year_periods 2001 8) = january_2001_periods
  /\ (exists l,
        trace s' = trace s ++ l
        /\ l `prefix_of` january_2001_periods
        /\ (r = Ok tt -> l = january_2001_periods))
  /\ (finds_nothing provider (mk_datetime 2001 1 1, mk_datetime 2001 2 1) ->
      r = Ok tt /\ trace s' = trace s ++ january_2001_periods).
Proof.
  intros Hclosed Htr Hstart Hend Hcov Hrun.
  split; [vm_compute; reflexivity |].
  enough (Hcalls : exists l,
            trace s' = trace s ++ l
            /\ l `prefix_of` january_2001_periods
            /\ (r = Ok tt -> l = january_2001_periods)).
  { split; [exact Hcalls |]. intros Hidle.
    destruct (update_idle_returns accepts_attr cube provider
                (mk_datetime 2001 1 1, mk_datetime 2001 2 1) s Hclosed
                ltac:(rewrite Htr; discriminate) Hidle) as [s0 H0].
    - unfold target_window. rewrite Hstart. vm_compute. discriminate.
    - unfold target_window. rewrite Hend. vm_compute. discriminate.
    - rewrite Hrun in H0. injection H0 as -> _.
      split; [reflexivity |].
      destruct Hcalls as (l & Hl & _ & Hok). rewrite Hl, (Hok eq_refl).
      reflexivity. }
  assert (Hfail : forall (e : exn) (s0 : session (P * call_trace)),
            trace s0 = trace s ->
            exists l, trace s0 = trace s ++ l
                      /\ l `prefix_of` january_2001_periods
                      /\ (@Raised unit e = Ok tt -> l = january_2001_periods)).
  { intros e s0 H0. exists []. rewrite app_nil_r.
    split; [exact H0 |]. split; [apply prefix_nil | intros H; discriminate H]. }
  unfold update in Hrun. rewrite Hclosed in Hrun.
  apply bind_inv in Hrun.
  destruct Hrun as [(u & s1 & Hprep & Hrun) | (e & Hprep & ->)];
    [| apply Hfail; exact (on_provider_same_calls _ _ _ _ Hprep)].
  apply on_provider_same_calls in Hprep.
  apply bind_inv in Hrun.
  destruct Hrun as [(coverage & s2 & Hc & Hrun) | (e & Hc & ->)];
    [| apply Hfail; unfold same_calls in Hprep; rewrite <- Hprep;
       exact (on_provider_same_calls _ _ _ _ Hc)].
  pose proof (traced_coverage _ _ _ _ _ Hcov Hc) as Hcoverage.
  apply on_provider_same_calls in Hc. subst coverage.
  cbv zeta beta iota in Hrun. rewrite Hstart, Hend, Htr in Hrun.
  change (8 =? 0) with false in Hrun. cbv iota in Hrun.
  apply bind_inv in Hrun.
  destruct Hrun as [(u2 & s3 & Hmod & Hrun) | (e & Hmod & _)];
    [| discriminate Hmod].
  injection Hmod as _ <-.
  match type of Hrun with
  | context [for_each ?l _] =>
      replace l with [2001] in Hrun by (vm_compute; reflexivity)
  end.
  apply bind_inv in Hrun.
  assert (Hloop : forall r4 s4,
    for_each [2001]
      (year_loop_body accepts_attr cube (traced provider)
         (if mk_datetime 2001 1 1 >? mk_datetime 2001 1 1
          then mk_datetime 2001 1 1 else mk_datetime 2001 1 1)
         (if mk_datetime 2001 2 1 <? mk_datetime 2001 2 1
          then mk_datetime 2001 2 1 else mk_datetime 2001 2 1))
      (set_datasets ∅ s2) = (r4, s4) ->
    exists l, trace s4 = trace s ++ l
              /\ l `prefix_of` january_2001_periods
              /\ (r4 = Ok tt -> l = january_2001_periods)).
  { intros r4 s4 H4. cbn [for_each] in H4.
    apply bind_inv in H4.
    assert (Hyear : forall r5 s5,
      year_loop_body accepts_attr cube (traced provider)
        (if mk_datetime 2001 1 1 >? mk_datetime 2001 1 1
         then mk_datetime 2001 1 1 else mk_datetime 2001 1 1)
        (if mk_datetime 2001 2 1 <? mk_datetime 2001 2 1
         then mk_datetime 2001 2 1 else mk_datetime 2001 2 1)
        2001 (set_datasets ∅ s2) = (r5, s5) ->
      exists l, trace s5 = trace s ++ l
                /\ l `prefix_of` january_2001_periods
                /\ (r5 = Ok tt -> l = january_2001_periods)).
    { intros r5 s5 H5. unfold year_loop_body in H5. rewrite Htr in H5.
      apply bind_inv in H5.
      destruct H5 as [(time_min & s6 & Hmin & H5) | (e & Hmin & _)];
        [| discriminate Hmin].
      injection Hmin as <- <-.
      apply bind_inv in H5.
      destruct H5 as [(time_max & s7 & Hmax & H5) | (e & Hmax & _)];
        [| discriminate Hmax].
      injection Hmax as <- <-.
      apply period_loop_calls in H5.
      destruct H5 as (l & Hl & Hpre & Hok).
      exists l. split.
      - rewrite Hl. unfold same_calls in *.
        change (trace (set_datasets ∅ s2)) with (trace s2). congruence.
      - split; [exact Hpre | exact Hok]. }
    destruct H4 as [(u5 & s5 & Hy & H4) | (e & Hy & ->)].
    - injection H4 as <- <-. destruct u5. apply (Hyear _ _ Hy).
    - apply (Hyear _ _ Hy). }
  destruct Hrun as [(u4 & s4 & Hfor & Hrun) | (e & Hfor & ->)];
    [| exact (Hloop _ _ Hfor)].
  destruct (Hloop _ _ Hfor) as (l & Hl & Hpre & Hok).
  apply bind_inv in Hrun.
  exists l.
  assert (Hl' : trace s' = trace s ++ l).
  { rewrite <- Hl.
    destruct Hrun as [(u5 & s5 & Hclose & Hrun) | (e & Hclose & _)].
    - apply close_datasets_same_calls in Hclose.
      apply on_provider_same_calls in Hrun.
      unfold same_calls in *. congruence.
    - apply close_datasets_same_calls in Hclose. exact Hclose. }
  split; [exact Hl' |]. split; [exact Hpre |].
  intros _. apply Hok. destruct u4. reflexivity.
Qed.

Lemma update_january_2001_calls_witness :
  (let run := update accept_all small_cube (traced lai_provider)
                fresh_traced_session in
   fst run = Ok tt
   /\ provider_state (snd run) = (4%nat, january_2001_periods)
   /\ exists l,
        trace (snd run) = trace fresh_traced_session ++ l
        /\ l `prefix_of` january_2001_periods
        /\ (fst run = Ok tt -> l = january_2001_periods))
  /\ (let run := update accept_all small_cube (traced idle_provider)
                   fresh_traced_session in
      fst run = Ok tt
      /\ trace (snd run) = trace fresh_traced_session ++ january_2001_periods).
Proof.
  cbv zeta. split.
  - split; [vm_compute; reflexivity |].
    split; [vm_compute; reflexivity |].
    apply (update_january_2001_calls accept_all small_cube lai_provider
             fresh_traced_session
             (fst (update accept_all small_cube (traced lai_provider)
                     fresh_traced_session))
             (snd (update accept_all small_cube (traced lai_provider)
                     fresh_traced_session))).
    + reflexivity.
    + reflexivity.
    + reflexivity.
    + reflexivity.
    + intros p coverage p' H. injection H as <- _. reflexivity.
    + apply surjective_pairing.
  - apply (update_january_2001_calls accept_all small_cube idle_provider
             fresh_traced_session
             (fst (update accept_all small_cube (traced idle_provider)
                     fresh_traced_session))
             (snd (update accept_all small_cube (traced idle_provider)
                     fresh_traced_session))).
    + reflexivity.
    + reflexivity.
    + reflexivity.
    + reflexivity.
    + intros p coverage p' H. injection H as <- _. reflexivity.
    + apply surjective_pairing.
    + repeat split; intros; eexists; reflexivity.
Defined.

(* ===================================================================== *)
(** * Appending to a partition *)
(* ===================================================================== *)

Lemma length_put_at i x data :
  length (put_at i x data) = Nat.max (length data) (S i).
Proof.
  unfold put_at. rewrite length_insert, length_app, length_replicate. lia.
Qed.

Lemma put_at_snoc i x data :
  length data = i -> put_at i x data = data ++ [x].
Proof.
  intros <-. unfold put_at.
  replace (S (length data) - length data)%nat with 1%nat by lia.
  simpl. rewrite insert_app_r_alt by lia.
  rewrite Nat.sub_diag. reflexivity.
Qed.

Lemma put_at_prefix i x (data data0 : list ncvalue) :
  data `prefix_of` data0 -> (length data <= i)%nat ->
  data `prefix_of` put_at i x data0.
Proof.
  intros [rest ->] Hlen. unfold put_at.
  rewrite <- app_assoc, insert_app_r_alt by lia.
  eexists. reflexivity.
Qed.

Lemma dim_extends_refl d : dim_extends d d.
Proof. destruct d; simpl; [lia | reflexivity]. Qed.

Lemma dim_extends_trans d1 d2 d3 :
  dim_extends d1 d2 -> dim_extends d2 d3 -> dim_extends d1 d3.
Proof.
  destruct d1, d2, d3; simpl; try tauto; try lia; try congruence.
Qed.

Lemma var_extends_refl v : var_extends v v.
Proof.
  split; [reflexivity |]. destruct (on_time_axis v); reflexivity.
Qed.

Lemma var_extends_axis v v' :
  var_extends v v' -> on_time_axis v' = on_time_axis v.
Proof.
  intros [Hs _]. unfold var_schema in Hs. unfold on_time_axis.
  injection Hs as _ -> _ _ _. reflexivity.
Qed.

Lemma var_extends_trans v1 v2 v3 :
  var_extends v1 v2 -> var_extends v2 v3 -> var_extends v1 v3.
Proof.
  intros H12 H23. pose proof (var_extends_axis _ _ H12) as Hax.
  destruct H12 as [Hs12 Hd12], H23 as [Hs23 Hd23].
  split; [congruence |]. rewrite Hax in Hd23.
  destruct (on_time_axis v1).
  - etransitivity; eassumption.
  - congruence.
Qed.

Lemma file_extends_refl f : file_extends f f.
Proof.
  split; [reflexivity |]. split; intros x.
  - destruct (nc_dims f !! x); constructor. apply dim_extends_refl.
  - destruct (nc_vars f !! x); constructor. apply var_extends_refl.
Qed.

Lemma file_extends_trans f1 f2 f3 :
  file_extends f1 f2 -> file_extends f2 f3 -> file_extends f1 f3.
Proof.
  intros (Hf12 & Hd12 & Hv12) (Hf23 & Hd23 & Hv23).
  split; [congruence |]. split; intros x.
  - specialize (Hd12 x). specialize (Hd23 x).
    destruct Hd12; inversion Hd23; subst; constructor.
    eapply dim_extends_trans; eassumption.
  - specialize (Hv12 x). specialize (Hv23 x).
    destruct Hv12; inversion Hv23; subst; constructor.
    eapply var_extends_trans; eassumption.
Qed.

Lemma write_at_absent name i x f :
  nc_vars f !! name = None -> write_at name i x f = f.
Proof. intros H. unfold write_at. rewrite H. reflexivity. Qed.

Lemma write_at_vars_ne name name' i x f :
  name' <> name ->
  nc_vars (write_at name i x f) !! name' = nc_vars f !! name'.
Proof.
  intros Hne. unfold write_at.
  destruct (nc_vars f !! name); [| reflexivity].
  simpl. apply lookup_insert_ne. congruence.
Qed.

Lemma write_at_vars_eq name i x f v :
  nc_vars f !! name = Some v ->
  nc_vars (write_at name i x f) !! name
  = Some (mkVar (var_dtype v) (var_dims v) (var_zlib v) (var_fill v)
                (var_attrs v) (put_at i x (var_data v))).
Proof.
  intros H. unfold write_at. rewrite H. simpl. apply lookup_insert_eq.
Qed.

Lemma write_at_dims name i x f d :
  exists g, (g = grow_to i \/ g = (fun s => s))
            /\ nc_dims (write_at name i x f) !! d = g <$> (nc_dims f !! d).
Proof.
  unfold write_at.
  destruct (nc_vars f !! name) as [v |].
  2:{ exists (fun s => s). split; [right; reflexivity |].
      destruct (nc_dims f !! d); reflexivity. }
  simpl. destruct (var_dims v) as [| d0 ds].
  { exists (fun s => s). split; [right; reflexivity |].
    destruct (nc_dims f !! d); reflexivity. }
  destruct (decide (d0 = d)) as [-> | Hne].
  - exists (grow_to i). split; [left; reflexivity |].
    rewrite lookup_alter_eq. reflexivity.
  - exists (fun s => s). split; [right; reflexivity |].
    rewrite lookup_alter_ne by exact Hne.
    destruct (nc_dims f !! d); reflexivity.
Qed.

Lemma write_at_time_dim name i x f v n :
  nc_vars f !! name = Some v -> on_time_axis v = true ->
  nc_dims f !! "time" = Some (Unlimited n) ->
  nc_dims (write_at name i x f) !! "time"
  = Some (Unlimited (Nat.max n (S i))).
Proof.
  intros Hv Hax Ht. unfold write_at. rewrite Hv. simpl.
  unfold on_time_axis in Hax. destruct (var_dims v) as [| d0 ds];
    [discriminate |].
  apply String.eqb_eq in Hax. subst d0.
  rewrite lookup_alter_eq, Ht. reflexivity.
Qed.

(** A write at an index not below the length the variable had in [f0]
    keeps everything [f0] had. *)
Lemma write_at_keeps f0 f name i x :
  file_extends f0 f ->
  (forall v0, nc_vars f0 !! name = Some v0 ->
              on_time_axis v0 = true /\ (length (var_data v0) <= i)%nat) ->
  file_extends f0 (write_at name i x f).
Proof.
  intros (Hfmt & Hdims & Hvars) Hlen.
  split; [| split].
  - unfold write_at. destruct (nc_vars f !! name); [simpl |]; exact Hfmt.
  - intros d. specialize (Hdims d).
    destruct (write_at_dims name i x f d) as (g & Hg & ->).
    destruct Hdims as [d0 d1 Hd |]; constructor.
    destruct Hg as [-> | ->]; [| exact Hd].
    destruct d0, d1; simpl in *; try tauto; lia.
  - intros name'. specialize (Hvars name').
    destruct (decide (name' = name)) as [-> | Hne].
    2:{ rewrite write_at_vars_ne by exact Hne. exact Hvars. }
    destruct (nc_vars f !! name) as [v |] eqn:Ev.
    2:{ rewrite write_at_absent by exact Ev. rewrite Ev. exact Hvars. }
    rewrite (write_at_vars_eq _ _ _ _ _ Ev).
    inversion Hvars as [v0 v1 Hext E0 E1 | E0 E1]; subst.
    constructor. destruct (Hlen v0 (eq_sym E0)) as [Hax Hle].
    destruct Hext as [Hs Hd]. split; [exact Hs |].
    rewrite Hax in *. simpl. apply put_at_prefix; assumption.
Qed.

Lemma write_at_partition_ok var_name f name i x :
  partition_ok var_name f ->
  (forall v, nc_vars f !! name = Some v -> on_time_axis v = true) ->
  partition_ok var_name (write_at name i x f).
Proof.
  intros (n & Ht & Hlen & Hax) Hname.
  destruct (nc_vars f !! name) as [v |] eqn:Ev.
  2:{ rewrite write_at_absent by exact Ev. exists n. auto. }
  specialize (Hname v eq_refl).
  exists (Nat.max n (S i)). split; [| split].
  - apply write_at_time_dim with (v := v); assumption.
  - intros name' v' Hv' Hax'.
    destruct (decide (name' = name)) as [-> | Hne].
    + rewrite (write_at_vars_eq _ _ _ _ _ Ev) in Hv'.
      injection Hv' as <-. simpl. rewrite length_put_at.
      pose proof (Hlen name v Ev Hname). lia.
    + rewrite write_at_vars_ne in Hv' by exact Hne.
      pose proof (Hlen name' v' Hv' Hax'). lia.
  - intros name' v' Hin Hv'.
    destruct (decide (name' = name)) as [-> | Hne].
    + rewrite (write_at_vars_eq _ _ _ _ _ Ev) in Hv'.
      injection Hv' as <-. exact Hname.
    + rewrite write_at_vars_ne in Hv' by exact Hne.
      apply (Hax name' v' Hin Hv').
Qed.

(** Appending a record at the current length of the time axis extends a
    partition and keeps its shape. *)
Lemma append_record_extends c range var_name im f n :
  partition_ok var_name f ->
  nc_dims f !! "time" = Some (Unlimited n) ->
  forall k : nat,
    (k <= 3)%nat ->
    let writes :=
      [write_at "start_time" n (VNum (date2num c (fst range)));
       write_at "end_time" n (VNum (date2num c (snd range)));
       write_at var_name n (VImage im)] in
    let f' := fold_left (fun f w => w f) (take k writes) f in
    partition_ok var_name f' /\ file_extends f f'.
Proof.
  intros Hok Ht.
  assert (Hbound : forall name v0,
            name = "start_time" \/ name = "end_time" \/ name = var_name ->
            nc_vars f !! name = Some v0 ->
            on_time_axis v0 = true /\ (length (var_data v0) <= n)%nat).
  { destruct Hok as (n' & Ht' & Hlen & Hax). intros name v0 Hin Hv0.
    assert (n' = n) by congruence. subst n'.
    pose proof (Hax name v0 Hin Hv0) as H. split; [exact H |].
    apply (Hlen name v0 Hv0 H). }
  assert (Hstep : forall name x f1,
            name = "start_time" \/ name = "end_time" \/ name = var_name ->
            partition_ok var_name f1 /\ file_extends f f1 ->
            partition_ok var_name (write_at name n x f1)
            /\ file_extends f (write_at name n x f1)).
  { intros name x f1 Hin [Hok1 Hext1]. split.
    - apply write_at_partition_ok; [exact Hok1 |].
      destruct Hok1 as (n1 & _ & _ & Hax1). intros v. apply Hax1. exact Hin.
    - apply write_at_keeps; [exact Hext1 |].
      intros v0. apply Hbound. exact Hin. }
  assert (H0 : partition_ok var_name f /\ file_extends f f)
    by (split; [exact Hok | apply file_extends_refl]).
  intros k Hk.
  destruct k as [| [| [| [| k]]]]; try lia; cbn [take fold_left].
  - exact H0.
  - apply Hstep; auto.
  - apply Hstep; auto.
  - apply Hstep; auto.
Qed.

Lemma only_at_refl {P : Type} k (s : session P) : only_at k s s.
Proof. split; [intros; reflexivity | reflexivity]. Qed.

Lemma only_at_trans {P : Type} k (s1 s2 s3 : session P) :
  only_at k s1 s2 -> only_at k s2 s3 -> only_at k s1 s3.
Proof.
  intros [Hd12 Ho12] [Hd23 Ho23]. split; [| congruence].
  intros k' Hne. rewrite Hd23, Hd12 by exact Hne. reflexivity.
Qed.

Lemma session_extends_same {P : Type} (s s' : session P) :
  disk s' = disk s -> opened s' = opened s -> session_extends s s'.
Proof.
  intros Hd Ho. split; [| split].
  - intros k Hk. rewrite Hd. exact Hk.
  - intros k f Hf Hok. exists f. rewrite Hd.
    split; [exact Hf |]. split; [exact Hok | apply file_extends_refl].
  - exists []. rewrite app_nil_r. split; [exact Ho |]. intros k m [].
Qed.

Lemma session_extends_refl {P : Type} (s : session P) : session_extends s s.
Proof. apply session_extends_same; reflexivity. Qed.

Lemma session_extends_trans {P : Type} (s1 s2 s3 : session P) :
  session_extends s1 s2 -> session_extends s2 s3 -> session_extends s1 s3.
Proof.
  intros (He12 & Hf12 & l12 & Ho12 & Hm12) (He23 & Hf23 & l23 & Ho23 & Hm23).
  split; [| split].
  - intros k Hk. apply He23, He12, Hk.
  - intros k f Hf Hok.
    destruct (Hf12 k f Hf Hok) as (f2 & Hf2 & Hok2 & Hext2).
    destruct (Hf23 k f2 Hf2 Hok2) as (f3 & Hf3 & Hok3 & Hext3).
    exists f3. split; [exact Hf3 |]. split; [exact Hok3 |].
    eapply file_extends_trans; eassumption.
  - exists (l12 ++ l23). split; [rewrite Ho23, Ho12, app_assoc; reflexivity |].
    intros k m Hin Hk. apply in_app_or in Hin. destruct Hin as [Hin | Hin].
    + apply (Hm12 k m Hin Hk).
    + apply (Hm23 k m Hin). apply He12, Hk.
Qed.

Lemma init_variable_dataset_only_at {P : Type} accepts_attr cube
    (provider : CubeSourceProvider P) k variable_name :
  steps (only_at k)
    (_init_variable_dataset accepts_attr cube provider k variable_name).
Proof.
  unfold _init_variable_dataset, update_file.
  repeat first
    [ progress steps_structure (@only_at_refl P k) (@only_at_trans P k)
    | apply (steps_on_provider (only_at k)); intros; split;
        [intros; reflexivity | reflexivity]
    | apply steps_modify; intros; split;
        [intros k' Hne; cbn [disk set_disk];
         apply lookup_alter_ne; congruence
        | reflexivity] ].
Qed.

(** Obtaining the dataset of a partition: a file that is on disk is
    opened for appending (or was opened before in this session) and is
    not touched; only a file that is not on disk is created. *)
Lemma obtain_dataset_extends {P : Type} accepts_attr cube
    (provider : CubeSourceProvider P) k var_name s r s' :
  obtain_dataset accepts_attr cube provider k var_name s = (r, s') ->
  session_extends s s'
  /\ (forall f, disk s !! k = Some f ->
        disk s' !! k = Some f
        /\ opened s' = opened s ++
             match datasets s !! k with
             | Some _ => []
             | None => [(k, ModeAppend)]
             end).
Proof.
  intros Hrun. unfold obtain_dataset in Hrun.
  unfold bind at 1, gets at 1 in Hrun.
  destruct (datasets s !! k) as [dataset |] eqn:Eds.
  { injection Hrun as _ <-. split; [apply session_extends_refl |].
    intros f Hf. rewrite app_nil_r. split; [exact Hf | reflexivity]. }
  unfold bind at 1, gets at 1 in Hrun.
  destruct (disk s !! k) as [f |] eqn:Ef.
  - unfold bind, Dataset, modify, ret in Hrun.
    destruct (open_handle (open_handles s)) as [h hs].
    injection Hrun as _ <-. cbn [disk opened set_datasets log_open
                                   set_open_handles].
    split.
    + split; [| split].
      * intros k' Hk'. exact Hk'.
      * intros k' f' Hf' Hok. exists f'. cbn [disk set_datasets log_open
                                                set_open_handles].
        split; [exact Hf' |]. split; [exact Hok | apply file_extends_refl].
      * exists [(k, ModeAppend)]. split; [reflexivity |].
        intros k' m [Hin | []] _. congruence.
    + intros f0 Hf0. split; [congruence | reflexivity].
  - split; [| intros f Hf; discriminate Hf].
    apply bind_inv in Hrun.
    assert (Hnew : forall s1 : session P,
              only_at k
                (set_disk (<[k:=empty_dataset (file_format (_config cube))]>
                             (disk s))
                   (log_open k ModeWrite
                      (set_open_handles (snd (open_handle (open_handles s)))
                         s))) s1 ->
              forall s2, disk s2 = disk s1 -> opened s2 = opened s1 ->
              session_extends s s2).
    { intros s1 [Hd Ho] s2 Hd2 Ho2.
      assert (Hkeep : forall k', is_Some (disk s !! k') ->
                                 disk s2 !! k' = disk s !! k').
      { intros k' [f' Hf']. rewrite Hd2.
        assert (k' <> k) by congruence.
        rewrite Hd by assumption. cbn [disk set_disk].
        apply lookup_insert_ne. congruence. }
      split; [| split].
      - intros k' Hk'. rewrite Hkeep by exact Hk'. exact Hk'.
      - intros k' f' Hf' Hok. exists f'. rewrite Hkeep by (eexists; exact Hf').
        split; [exact Hf' |]. split; [exact Hok | apply file_extends_refl].
      - exists [(k, ModeWrite)]. split.
        + rewrite Ho2, Ho. reflexivity.
        + intros k' m [Hin | []] [f' Hf']. congruence. }
    destruct Hrun as [(dataset & s1 & Hopen & Hrun) | (e & Hopen & _)].
    + apply bind_inv in Hopen.
      destruct Hopen as [(h & sw & Hds & Hopen) | (e & Hds & _)].
      2:{ unfold Dataset in Hds.
          destruct (open_handle (open_handles s)); discriminate Hds. }
      assert (Hsw : sw
                = set_disk (<[k:=empty_dataset (file_format (_config cube))]>
                              (disk s))
                    (log_open k ModeWrite
                       (set_open_handles (snd (open_handle (open_handles s)))
                          s))).
      { unfold Dataset in Hds.
        destruct (open_handle (open_handles s)) as [h0 hs0].
        injection Hds as _ <-. reflexivity. }
      apply bind_inv in Hopen.
      destruct Hopen as [(u & si & Hinit & Hret) | (e & Hinit & E)];
        [| discriminate E].
      injection Hret as _ <-.
      apply init_variable_dataset_only_at in Hinit. rewrite Hsw in Hinit.
      unfold bind, modify, ret in Hrun. injection Hrun as _ <-.
      apply (Hnew si Hinit); reflexivity.
    + apply bind_inv in Hopen.
      destruct Hopen as [(h & sw & Hds & Hopen) | (e' & Hds & _)].
      2:{ unfold Dataset in Hds.
          destruct (open_handle (open_handles s)); discriminate Hds. }
      assert (Hsw : sw
                = set_disk (<[k:=empty_dataset (file_format (_config cube))]>
                              (disk s))
                    (log_open k ModeWrite
                       (set_open_handles (snd (open_handle (open_handles s)))
                          s))).
      { unfold Dataset in Hds.
        destruct (open_handle (open_handles s)) as [h0 hs0].
        injection Hds as _ <-. reflexivity. }
      apply bind_inv in Hopen.
      destruct Hopen as [(u & si & Hinit & Hret) | (e' & Hinit & _)];
        [discriminate Hret |].
      apply init_variable_dataset_only_at in Hinit. rewrite Hsw in Hinit.
      apply (Hnew s' Hinit); reflexivity.
Qed.

(** What [write_record] leaves: the file of [k] with the first [j] of
    the three writes done, all three when it returns. *)
Lemma write_record_runs {P : Type} (cube : Cube) k t1 t2 var_name im f
    (s : session P) r s' :
  disk s !! k = Some f ->
  write_record cube k t1 t2 var_name im f s = (r, s') ->
  forall v, nc_vars f !! "start_time" = Some v ->
  exists j : nat,
    (j <= 3)%nat
    /\ disk s'
       = <[ k := fold_left (fun f w => w f)
                   (take j
                      [write_at "start_time" (var_len f v)
                         (VNum (date2num (_config cube) t1));
                       write_at "end_time" (var_len f v)
                         (VNum (date2num (_config cube) t2));
                       write_at var_name (var_len f v) (VImage im)]) f ]>
           (disk s)
    /\ opened s' = opened s
    /\ datasets s' = datasets s
    /\ (r = Ok tt -> j = 3%nat).
Proof.
  intros Hf Hrun v Hv. unfold write_record in Hrun. rewrite Hv in Hrun.
  destruct (nc_vars f !! "end_time") as [ve |].
  2:{ injection Hrun as <- <-. exists 0%nat. cbn [take fold_left].
      rewrite insert_id by exact Hf.
      repeat split; [lia | intros H; discriminate H]. }
  destruct (nc_vars f !! var_name) as [vv |].
  2:{ injection Hrun as <- <-. exists 0%nat. cbn [take fold_left].
      rewrite insert_id by exact Hf.
      repeat split; [lia | intros H; discriminate H]. }
  unfold bind, update_file, modify, raise in Hrun.
  destruct (image_fits f im); injection Hrun as <- <-;
    cbn [disk opened datasets set_disk].
  - exists 3%nat. cbn [take fold_left].
    repeat split; [lia | ].
    apply map_eq. intros k'. destruct (decide (k' = k)) as [-> | Hne].
    + rewrite lookup_insert_eq, !lookup_alter_eq, Hf. reflexivity.
    + rewrite lookup_insert_ne by congruence.
      rewrite !lookup_alter_ne by congruence. reflexivity.
  - exists 2%nat. cbn [take fold_left].
    repeat split; [lia | | intros H; discriminate H].
    apply map_eq. intros k'. destruct (decide (k' = k)) as [-> | Hne].
    + rewrite lookup_insert_eq, !lookup_alter_eq, Hf. reflexivity.
    + rewrite lookup_insert_ne by congruence.
      rewrite !lookup_alter_ne by congruence. reflexivity.
Qed.

Lemma partition_time_length var_name f v n :
  partition_ok var_name f ->
  nc_vars f !! "start_time" = Some v ->
  nc_dims f !! "time" = Some (Unlimited n) ->
  var_len f v = n.
Proof.
  intros (n' & Ht & _ & Hax) Hv Hn.
  pose proof (Hax "start_time" v (or_introl eq_refl) Hv) as Hv_ax.
  unfold on_time_axis in Hv_ax. unfold var_len.
  destruct (var_dims v) as [| d ds]; [discriminate |].
  apply String.eqb_eq in Hv_ax. subst d. rewrite Hn. reflexivity.
Qed.

Lemma write_record_extends {P : Type} (cube : Cube) k t1 t2 im f
    (s : session P) r s' :
  disk s !! k = Some f ->
  write_record cube k t1 t2 (snd k) im f s = (r, s') ->
  session_extends s s'.
Proof.
  intros Hf Hrun.
  destruct (nc_vars f !! "start_time") as [v |] eqn:Ev.
  2:{ unfold write_record in Hrun. rewrite Ev in Hrun.
      injection Hrun as _ <-. apply session_extends_refl. }
  destruct (write_record_runs cube k t1 t2 (snd k) im f s r s' Hf Hrun v Ev)
    as (j & Hj & Hdisk & Hopened & _ & _).
  split; [| split].
  - intros k' Hk'. rewrite Hdisk.
    destruct (decide (k' = k)) as [-> | Hne].
    + rewrite lookup_insert_eq. eexists; reflexivity.
    + rewrite lookup_insert_ne by congruence. exact Hk'.
  - intros k' f' Hf' Hok. rewrite Hdisk.
    destruct (decide (k' = k)) as [-> | Hne].
    + rewrite lookup_insert_eq.
      assert (Heq : Some f' = Some f)
        by (transitivity (disk s !! k); [symmetry; exact Hf' | exact Hf]).
      injection Heq as Heq.
      subst f'.
      destruct Hok as (n & Ht & Hrest).
      assert (Hok : partition_ok (snd k) f) by (exists n; auto).
      rewrite (partition_time_length (snd k) f v n Hok Ev Ht).
      eexists. split; [reflexivity |].
      apply (append_record_extends (_config cube) (t1, t2) (snd k) im f n
               Hok Ht j Hj).
    + rewrite lookup_insert_ne by congruence.
      exists f'. split; [exact Hf' |].
      split; [exact Hok | apply file_extends_refl].
  - exists []. rewrite app_nil_r. split; [exact Hopened |]. intros k' m [].
Qed.

Lemma read_file_inv {P : Type} k (s : session P) r s' :
  read_file k s = (r, s') ->
  s = s' /\ (forall f, r = Ok f -> disk s !! k = Some f).
Proof.
  unfold read_file. destruct (disk s !! k) as [f0 |];
    intros H; injection H as <- <-; (split; [reflexivity |]);
    intros f Hf; [congruence | discriminate Hf].
Qed.

Lemma write_image_extends {P : Type} accepts_attr cube
    (provider : CubeSourceProvider P) target_time_range var_name im :
  steps session_extends
    (_write_image accepts_attr cube provider target_time_range var_name im).
Proof.
  intros s r s' Hrun. unfold _write_image in Hrun.
  destruct target_time_range as [t1 t2].
  apply bind_inv in Hrun.
  destruct Hrun as [(u & s0 & Hmod & Hrun) | (e & Hmod & _)];
    [| discriminate Hmod].
  injection Hmod as _ <-.
  eapply session_extends_trans;
    [apply session_extends_same; reflexivity |].
  apply bind_inv in Hrun.
  destruct Hrun as [(h & s1 & Hopen & Hrun) | (e & Hopen & _)].
  2:{ apply obtain_dataset_extends in Hopen. apply Hopen. }
  apply obtain_dataset_extends in Hopen. destruct Hopen as [Hext _].
  eapply session_extends_trans; [exact Hext |].
  apply bind_inv in Hrun.
  destruct Hrun as [(f & s2 & Hread & Hrun) | (e & Hread & _)].
  2:{ apply read_file_inv in Hread. destruct Hread as [<- _].
      apply session_extends_refl. }
  apply read_file_inv in Hread. destruct Hread as [<- Hf].
  specialize (Hf f eq_refl).
  exact (write_record_extends cube (year_of t1, var_name) t1 t2 im f s1 r s'
           Hf Hrun).
Qed.

Lemma session_extends_modify {P : Type} (g : session P -> session P) :
  (forall s, disk (g s) = disk s) -> (forall s, opened (g s) = opened s) ->
  steps session_extends (modify g).
Proof.
  intros Hd Ho. apply steps_modify. intros s.
  apply session_extends_same; [apply Hd | apply Ho].
Qed.

Lemma session_extends_on_provider {P A : Type} (m : M P A) :
  steps (@session_extends P) (on_provider m).
Proof.
  apply (steps_on_provider session_extends). intros s p.
  apply session_extends_same; reflexivity.
Qed.

Lemma write_images_extends {P : Type} accepts_attr cube
    (provider : CubeSourceProvider P) target_time_range var_name_to_image :
  steps session_extends
    (_write_images accepts_attr cube provider target_time_range
       var_name_to_image).
Proof.
  unfold _write_images.
  apply (steps_for_each _ (@session_extends_refl P)
           (@session_extends_trans P)).
  intros [var_name [im |]].
  - apply write_image_extends.
  - apply (steps_ret _ (@session_extends_refl P)).
Qed.

Lemma period_loop_extends {P : Type} accepts_attr cube
    (provider : CubeSourceProvider P) d_time time_max ts te n :
  forall time_1,
    steps session_extends
      (period_loop accepts_attr cube provider n time_1 d_time time_max ts te).
Proof.
  induction n as [| n IH]; intros time_1; cbn [period_loop].
  - apply (steps_ret _ (@session_extends_refl P)).
  - repeat first
      [ apply IH
      | apply write_images_extends
      | apply session_extends_on_provider
      | apply session_extends_modify; intros; reflexivity
      | steps_step (@session_extends_refl P) (@session_extends_trans P) ].
Qed.

(** A whole update session only extends the partitions that were on
    disk, and opens them for appending only. *)
Lemma update_extends {P : Type} accepts_attr cube
    (provider : CubeSourceProvider P) :
  steps session_extends (update accepts_attr cube provider).
Proof.
  unfold update, year_loop_body, close_datasets, Dataset_close.
  repeat first
    [ apply period_loop_extends
    | apply session_extends_on_provider
    | apply session_extends_modify; intros; reflexivity
    | steps_step (@session_extends_refl P) (@session_extends_trans P) ].
Qed.

Lemma read_file_ok {P : Type} k (s : session P) f :
  disk s !! k = Some f -> read_file k s = (Ok f, s).
Proof. intros H. unfold read_file. rewrite H. reflexivity. Qed.

Lemma obtain_dataset_existing {P : Type} accepts_attr cube
    (provider : CubeSourceProvider P) k var_name (s : session P) f :
  disk s !! k = Some f ->
  exists h s1,
    obtain_dataset accepts_attr cube provider k var_name s = (Ok h, s1)
    /\ disk s1 = disk s
    /\ opened s1 = opened s ++
         match datasets s !! k with
         | Some _ => []
         | None => [(k, ModeAppend)]
         end.
Proof.
  intros Hf. unfold obtain_dataset.
  unfold bind at 1, gets at 1.
  destruct (datasets s !! k) as [dataset |].
  { exists dataset, s. rewrite app_nil_r. repeat split. }
  unfold bind at 1, gets at 1. rewrite Hf.
  unfold bind, Dataset, modify, ret.
  destruct (open_handle (open_handles s)) as [h hs].
  eexists _, _. split; [reflexivity |]. split; reflexivity.
Qed.

(** Writing one image to a partition that is on disk: the file is not
    created anew, it is opened for appending unless this session has it
    open already, and the record goes to the index that was the length
    of the time axis. *)
Lemma write_image_appends {P : Type} accepts_attr cube
    (provider : CubeSourceProvider P) (s : session P)
    target_time_range var_name im f n vs ve vv :
  let k := (year_of (fst target_time_range), var_name) in
  disk s !! k = Some f ->
  partition_ok var_name f ->
  nc_dims f !! "time" = Some (Unlimited n) ->
  nc_vars f !! "start_time" = Some vs ->
  nc_vars f !! "end_time" = Some ve ->
  nc_vars f !! var_name = Some vv ->
  image_fits f im = true ->
  exists s',
    _write_image accepts_attr cube provider target_time_range var_name im s
    = (Ok tt, s')
    /\ disk s'
       = <[ k := append_record (_config cube) target_time_range var_name im
                   n f ]> (disk s)
    /\ opened s' = opened s ++
         match datasets s !! k with
         | Some _ => []
         | None => [(k, ModeAppend)]
         end.
Proof.
  intros k Hf Hok Ht Hvs Hve Hvv Hfit.
  destruct target_time_range as [t1 t2]. cbn [fst] in k.
  set (s0 := set_folders ({[var_name]} ∪ folders s) s).
  destruct (obtain_dataset_existing accepts_attr cube provider k var_name
              s0 f Hf) as (h & s1 & Hopen & Hd1 & Ho1).
  assert (Hf1 : disk s1 !! k = Some f) by (rewrite Hd1; exact Hf).
  destruct (write_record cube k t1 t2 var_name im f s1) as [r s'] eqn:Hrun.
  assert (Hwhole : _write_image accepts_attr cube provider (t1, t2) var_name
                     im s = (r, s')).
  { unfold _write_image. cbv zeta.
    erewrite bind_ok; [| reflexivity].
    erewrite bind_ok; [| exact Hopen].
    erewrite bind_ok; [| apply read_file_ok; exact Hf1].
    exact Hrun. }
  rewrite Hwhole. clear Hwhole.
  assert (Hr : r = Ok tt).
  { revert Hrun. unfold write_record. rewrite Hvs, Hve, Hvv, Hfit.
    unfold bind, update_file, modify. intros H. injection H as <- _.
    reflexivity. }
  destruct (write_record_runs cube k t1 t2 var_name im f s1 r s' Hf1 Hrun
              vs Hvs) as (j & _ & Hdisk & Hopened & _ & Hj).
  rewrite (Hj Hr) in Hdisk. cbn [take fold_left] in Hdisk.
  rewrite (partition_time_length var_name f vs n Hok Hvs Ht) in Hdisk.
  exists s'. rewrite Hr. split; [reflexivity |]. split.
  - rewrite Hdisk, Hd1. reflexivity.
  - rewrite Hopened, Ho1. reflexivity.
Qed.

(** The record that [append_record] adds to a partition whose variables
    all have [n] entries: the start time, the end time and the image, each
    after the entries that were there. *)
Lemma append_record_data c range var_name im n f vs ve vv :
  var_name <> "start_time" -> var_name <> "end_time" ->
  nc_vars f !! "start_time" = Some vs -> length (var_data vs) = n ->
  nc_vars f !! "end_time" = Some ve -> length (var_data ve) = n ->
  nc_vars f !! var_name = Some vv -> length (var_data vv) = n ->
  let f' := append_record c range var_name im n f in
  nc_vars f' !! "start_time"
  = Some (with_data vs (var_data vs ++ [VNum (date2num c (fst range))]))
  /\ nc_vars f' !! "end_time"
     = Some (with_data ve (var_data ve ++ [VNum (date2num c (snd range))]))
  /\ nc_vars f' !! var_name
     = Some (with_data vv (var_data vv ++ [VImage im])).
Proof.
  intros Hn1 Hn2 Hvs Hls Hve Hle Hvv Hlv f'. subst f'. unfold append_record.
  split; [| split].
  - rewrite write_at_vars_ne by congruence.
    rewrite write_at_vars_ne by discriminate.
    rewrite (write_at_vars_eq _ _ _ _ _ Hvs).
    rewrite put_at_snoc by exact Hls. reflexivity.
  - rewrite write_at_vars_ne by congruence.
    assert (He : nc_vars (write_at "start_time" n
                            (VNum (date2num c (fst range))) f) !! "end_time"
                 = Some ve)
      by (rewrite write_at_vars_ne by discriminate; exact Hve).
    rewrite (write_at_vars_eq _ _ _ _ _ He).
    rewrite put_at_snoc by exact Hle. reflexivity.
  - assert (Hv : nc_vars (write_at "end_time" n
                            (VNum (date2num c (snd range)))
                            (write_at "start_time" n
                               (VNum (date2num c (fst range))) f))
                 !! var_name = Some vv).
    { rewrite !write_at_vars_ne by congruence. exact Hvv. }
    rewrite (write_at_vars_eq _ _ _ _ _ Hv).
    rewrite put_at_snoc by exact Hlv. reflexivity.
Qed.

Lemma partition_check_ok var_name f :
  partition_check var_name f = true -> partition_ok var_name f.
Proof.
  unfold partition_check.
  destruct (nc_dims f !! "time") as [[n | z] |] eqn:Et; try discriminate.
  intros Hall. rewrite forallb_forall in Hall.
  exists n. split; [exact Et |].
  assert (Hin : forall name v, nc_vars f !! name = Some v ->
                               In (name, v) (map_to_list (nc_vars f))).
  { intros name v Hv. apply list_elem_of_In, elem_of_map_to_list. exact Hv. }
  split.
  - intros name v Hv Hax. specialize (Hall _ (Hin name v Hv)).
    cbv beta iota in Hall. apply andb_true_iff in Hall.
    destruct Hall as [Hlen _]. rewrite Hax in Hlen. simpl in Hlen.
    apply Nat.leb_le. exact Hlen.
  - intros name v Hname Hv. specialize (Hall _ (Hin name v Hv)).
    cbv beta iota in Hall. apply andb_true_iff in Hall.
    destruct Hall as [_ Hax].
    assert (Hb : String.eqb name "start_time" || String.eqb name "end_time"
                 || String.eqb name var_name = true).
    { destruct Hname as [-> | [-> | ->]].
      - reflexivity.
      - reflexivity.
      - rewrite String.eqb_refl. apply orb_true_r. }
    rewrite Hb in Hax. exact Hax.
Qed.

(** C7.  A partition file that is on disk (with the layout of a
    partition) after any update session — completed or failed — is still
    there, still has that layout, and extends the file it was: same
    format, same dimensions, same variables with the same attributes and
    the same coordinate values, every earlier record kept as it was; and
    every open of it during the session is in append mode.  A write to
    it opens it for appending unless the session already has it open, and
    puts the record at the index that was the length of the time axis:
    start time, end time and image each follow the entries that were
    there. *)
Theorem update_appends_to_partitions {P : Type} accepts_attr cube
    (provider : CubeSourceProvider P) :
  (forall s r s' k f,
     update accepts_attr cube provider s = (r, s') ->
     disk s !! k = Some f -> partition_ok (snd k) f ->
     exists f',
       disk s' !! k = Some f' /\ partition_ok (snd k) f'
       /\ file_extends f f'
       /\ exists l, opened s' = opened s ++ l
                    /\ forall m, In (k, m) l -> m = ModeAppend)
  /\ (forall (s : session P) target_time_range var_name im f n vs ve vv,
        let k := (year_of (fst target_time_range), var_name) in
        disk s !! k = Some f ->
        partition_ok var_name f ->
        nc_dims f !! "time" = Some (Unlimited n) ->
        nc_vars f !! "start_time" = Some vs ->
        nc_vars f !! "end_time" = Some ve ->
        nc_vars f !! var_name = Some vv ->
        image_fits f im = true ->
        exists s',
          _write_image accepts_attr cube provider target_time_range var_name
            im s = (Ok tt, s')
          /\ disk s'
             = <[ k := append_record (_config cube) target_time_range
                         var_name im n f ]> (disk s)
          /\ opened s' = opened s ++
               match datasets s !! k with
               | Some _ => []
               | None => [(k, ModeAppend)]
               end)
  /\ (forall target_time_range var_name im n f vs ve vv,
        var_name <> "start_time" -> var_name <> "end_time" ->
        nc_vars f !! "start_time" = Some vs -> length (var_data vs) = n ->
        nc_vars f !! "end_time" = Some ve -> length (var_data ve) = n ->
        nc_vars f !! var_name = Some vv -> length (var_data vv) = n ->
        let f' := append_record (_config cube) target_time_range var_name im
                    n f in
        nc_vars f' !! "start_time"
        = Some (with_data vs
                  (var_data vs ++
                   [VNum (date2num (_config cube) (fst target_time_range))]))
        /\ nc_vars f' !! "end_time"
           = Some (with_data ve
                     (var_data ve ++
                      [VNum (date2num (_config cube)
                               (snd target_time_range))]))
        /\ nc_vars f' !! var_name
           = Some (with_data vv (var_data vv ++ [VImage im]))).
Proof.
  split; [| split].
  - intros s r s' k f Hrun Hf Hok.
    destruct (update_extends accepts_attr cube provider s r s' Hrun)
      as (_ & Hfiles & l & Ho & Hm).
    destruct (Hfiles k f Hf Hok) as (f' & Hf' & Hok' & Hext).
    exists f'. split; [exact Hf' |]. split; [exact Hok' |].
    split; [exact Hext |]. exists l. split; [exact Ho |].
    intros m Hin. apply (Hm k m Hin). eexists. exact Hf.
  - intros s target_time_range var_name im f n vs ve vv.
    apply write_image_appends.
  - intros target_time_range var_name im n f vs ve vv.
    apply append_record_data.
Qed.

Lemma update_appends_to_partitions_witness :
  let s := session_after_first_update in
  let s' := snd (update accept_all small_cube lai_provider s) in
  disk s !! (2001, "LAI") = Some (lai_2001 s)
  /\ partition_ok "LAI" (lai_2001 s)
  /\ exists f',
       disk s' !! (2001, "LAI") = Some f'
       /\ partition_ok "LAI" f'
       /\ file_extends (lai_2001 s) f'
       /\ exists l, opened s' = opened s ++ l
                    /\ forall m, In ((2001, "LAI"), m) l -> m = ModeAppend.
Proof.
  intros s s'.
  assert (Hf : disk s !! (2001, "LAI") = Some (lai_2001 s))
    by (vm_compute; reflexivity).
  assert (Hok : partition_ok "LAI" (lai_2001 s))
    by (apply partition_check_ok; vm_compute; reflexivity).
  split; [exact Hf |]. split; [exact Hok |].
  apply (proj1 (update_appends_to_partitions accept_all small_cube
                  lai_provider)
           s (fst (update accept_all small_cube lai_provider s)) s'
           (2001, "LAI") (lai_2001 s)).
  - apply surjective_pairing.
  - exact Hf.
  - exact Hok.
Defined.

(** Two update sessions over January 2001: the second one opens the
    partition for appending and leaves eight records, the first four
    being those of the first session. *)
Example second_update_appends :
  let s := session_after_first_update in
  let s' := snd (update accept_all small_cube lai_provider s) in
  opened s' = [((2001, "LAI"), ModeWrite); ((2001, "LAI"), ModeAppend)]
  /\ nc_dims (lai_2001 s) !! "time" = Some (Unlimited 4)
  /\ nc_dims (lai_2001 s') !! "time" = Some (Unlimited 8)
  /\ (var_data <$> nc_vars (lai_2001 s') !! "lat")
     = (var_data <$> nc_vars (lai_2001 s) !! "lat")
  /\ (take 4 <$> (var_data <$> nc_vars (lai_2001 s') !! "LAI"))
     = (var_data <$> nc_vars (lai_2001 s) !! "LAI").
Proof.
  vm_compute. repeat split; reflexivity.
Qed.

(* ===================================================================== *)
(** * Further properties: query arguments and index ranges *)
(* ===================================================================== *)

Lemma py_mod_pos_bound x m :
  (0 < m)%Q -> (0 <= py_mod x m /\ py_mod x m < m)%Q.
Proof.
  intros Hm. unfold py_mod.
  pose proof (Qfloor_le (x / m)) as Hlo.
  pose proof (Qlt_floor (x / m)) as Hhi.
  rewrite inject_Z_plus in Hhi.
  assert (Hq : (x / m * m == x)%Q) by (field; lra).
  assert (H1 : (inject_Z (Qfloor (x / m)) * m <= x / m * m)%Q)
    by (apply Qmult_le_compat_r; [exact Hlo | lra]).
  assert (H2 : (x / m * m < (inject_Z (Qfloor (x / m)) + inject_Z 1) * m)%Q)
    by (apply Qmult_lt_compat_r; [exact Hm | exact Hhi]).
  change (inject_Z 1) with 1%Q in H2. lra.
Qed.

Lemma py_mod_neg_bound x m :
  (m < 0)%Q -> (m < py_mod x m /\ py_mod x m <= 0)%Q.
Proof.
  intros Hm. unfold py_mod.
  pose proof (Qfloor_le (x / m)) as Hlo.
  pose proof (Qlt_floor (x / m)) as Hhi.
  rewrite inject_Z_plus in Hhi.
  assert (Hq : (x / m * (- m) == - x)%Q) by (field; lra).
  assert (H1 : (inject_Z (Qfloor (x / m)) * (- m) <= x / m * (- m))%Q)
    by (apply Qmult_le_compat_r; [exact Hlo | lra]).
  assert (H2 : (x / m * (- m)
                < (inject_Z (Qfloor (x / m)) + inject_Z 1) * (- m))%Q)
    by (apply Qmult_lt_compat_r; [lra | exact Hhi]).
  change (inject_Z 1) with 1%Q in H2. lra.
Qed.

Lemma adjust_lon_cases lon :
  ((lon < -180)%Q /\ adjust_lon lon = py_mod lon 180)
  \/ ((-180 <= lon)%Q /\ (lon <= 180)%Q /\ adjust_lon lon = lon)
  \/ ((180 < lon)%Q /\ adjust_lon lon = py_mod lon (-180)).
Proof.
  unfold adjust_lon.
  destruct (Qltb lon (-180)) eqn:E1.
  - left. apply Qltb_lt in E1. split; [exact E1 |].
    destruct (py_mod_pos_bound lon 180) as [H0 H1]; [reflexivity |].
    destruct (Qgtb (py_mod lon 180) 180) eqn:E2; [| reflexivity].
    unfold Qgtb in E2. apply Qltb_lt in E2. lra.
  - apply Qltb_ge in E1. right.
    destruct (Qgtb lon 180) eqn:E2; unfold Qgtb in E2.
    + right. apply Qltb_lt in E2. split; [exact E2 | reflexivity].
    + left. apply Qltb_ge in E2. repeat split; assumption.
Qed.

Lemma adjust_lon_in_range lon :
  (-180 <= adjust_lon lon /\ adjust_lon lon <= 180)%Q.
Proof.
  destruct (adjust_lon_cases lon) as [[H ->] | [(H1 & H2 & ->) | [H ->]]].
  - destruct (py_mod_pos_bound lon 180); [reflexivity | lra].
  - lra.
  - destruct (py_mod_neg_bound lon (-180)); [reflexivity | lra].
Qed.

Lemma get_lon_range_ordered longitude :
  let '(lo, hi) := _get_lon_range longitude in
  (-180 <= lo /\ lo <= 180 /\ lo <= hi /\ hi - lo <= 360)%Q.
Proof.
  unfold _get_lon_range.
  destruct (unpack_range longitude) as [lon_1 lon_2].
  pose proof (adjust_lon_in_range lon_1) as H1.
  pose proof (adjust_lon_in_range lon_2) as H2.
  destruct (Qgtb (adjust_lon lon_1) (adjust_lon lon_2)) eqn:E;
    unfold Qgtb in E.
  - apply Qltb_lt in E. lra.
  - apply Qltb_ge in E. lra.
Qed.


Lemma py_round_le_ceil (q : Q) : py_round q <= Qfloor q + 1.
Proof.
  unfold py_round.
  destruct (Qcompare (q - inject_Z (Qfloor q)) (1 # 2));
    [destruct (Z.even (Qfloor q)) | |]; lia.
Qed.

(** Rounding is monotone. *)
Lemma py_round_monotone (q1 q2 : Q) :
  (q1 <= q2)%Q -> py_round q1 <= py_round q2.
Proof.
  intros Hle. pose proof (Qfloor_resp_le _ _ Hle) as Hf.
  destruct (Z_lt_le_dec (Qfloor q1) (Qfloor q2)) as [Hlt | Hge].
  - pose proof (py_round_le_ceil q1). pose proof (py_round_ge_floor q2). lia.
  - assert (E : Qfloor q1 = Qfloor q2) by lia.
    unfold py_round. rewrite <- E.
    destruct (Qcompare_spec (q1 - inject_Z (Qfloor q1)) (1 # 2)) as [H1|H1|H1];
      destruct (Qcompare_spec (q2 - inject_Z (Qfloor q1)) (1 # 2))
        as [H2|H2|H2];
      try (destruct (Z.even (Qfloor q1))); try lia; lra.
Qed.

(** X4.  With a positive resolution the index ranges of [get] are never
    reversed: for an accepted latitude argument the upper row index is
    not below the lower one, and for any longitude argument the upper
    column index is not below the lower one, also after the boundary
    correction. *)
Theorem grid_ranges_ordered c :
  (0 < spatial_res c)%Q ->
  (forall latitude lat_1 lat_2,
     _get_lat_range latitude = Ok (lat_1, lat_2) ->
     fst (grid_rows c lat_1 lat_2) <= snd (grid_rows c lat_1 lat_2))
  /\ (forall longitude,
        let '(lon_1, lon_2) := _get_lon_range longitude in
        fst (grid_cols c lon_1 lon_2) <= snd (grid_cols c lon_1 lon_2)).
Proof.
  intros Hres.
  assert (Hdiv : forall a b, (a <= b)%Q ->
            (a / spatial_res c <= b / spatial_res c)%Q).
  { intros a b Hab. unfold Qdiv. apply Qmult_le_compat_r; [exact Hab |].
    apply Qlt_le_weak, Qinv_lt_0_compat, Hres. }
  split.
  - intros latitude lat_1 lat_2 Hl.
    assert (Hle : (lat_1 <= lat_2)%Q).
    { unfold _get_lat_range in Hl.
      destruct (unpack_range latitude) as [a b].
      destruct (_ || _ || _ || _ || _) eqn:E; [discriminate |].
      injection Hl as <- <-. qbool. assumption. }
    unfold grid_rows.
    assert (H : grid_y_of c lat_2 <= grid_y_of c lat_1).
    { unfold grid_y_of.
      pose proof (py_round_monotone _ _ (Hdiv (90 - lat_2) (90 - lat_1)
                                           ltac:(lra)))%Q.
      lia. }
    destruct ((grid_y_of c lat_1 >? grid_y_of c lat_2) && _) eqn:E;
      cbn [fst snd]; [| exact H].
    apply andb_true_iff in E. destruct E as [E _].
    apply Z.gtb_lt in E. lia.
  - intros longitude.
    pose proof (get_lon_range_ordered longitude) as Hn.
    destruct (_get_lon_range longitude) as [lon_1 lon_2].
    destruct Hn as (_ & _ & Hle & _).
    unfold grid_cols.
    assert (H : grid_x_of c lon_1 <= grid_x_of c lon_2).
    { unfold grid_x_of.
      pose proof (py_round_monotone _ _ (Hdiv (180 + lon_1) (180 + lon_2)
                                           ltac:(lra)))%Q.
      lia. }
    destruct ((grid_x_of c lon_2 >? grid_x_of c lon_1) && _) eqn:E;
      cbn [fst snd]; [| exact H].
    apply andb_true_iff in E. destruct E as [E _].
    apply Z.gtb_lt in E. lia.
Qed.

Lemma grid_ranges_ordered_witness :
  fst (grid_rows default_config 50 60) <= snd (grid_rows default_config 50 60)
  /\ (let '(lon_1, lon_2) := _get_lon_range (Pair 170%Q (-170)%Q) in
      fst (grid_cols default_config lon_1 lon_2)
      <= snd (grid_cols default_config lon_1 lon_2)).
Proof.
  split.
  - apply (proj1 (grid_ranges_ordered default_config eq_refl)
             (Pair 50%Q 60%Q)).
    reflexivity.
  - apply (proj2 (grid_ranges_ordered default_config eq_refl)
             (Pair 170%Q (-170)%Q)).
Defined.









(* ===================================================================== *)
(** * Further properties: the tables of a reader *)
(* ===================================================================== *)

Lemma discover_tables entries :
  forall data_dir k d,
    let d' := discover data_dir entries k d in
    let names := dir_names entries in
    (cube_config d' = cube_config d /\ _datasets d' = _datasets d
     /\ _variables d' = _variables d)
    /\ length (_dataset_files d')
       = (length (_dataset_files d) + length names)%nat
    /\ (forall i, _var_index_to_var_name d' !! i
                  = if (k <=? i) && (i <? k + Z.of_nat (length names))
                    then names !! Z.to_nat (i - k)
                    else _var_index_to_var_name d !! i)
    /\ (forall name i,
          _var_name_to_var_index d' !! name = Some i ->
          (_var_name_to_var_index d !! name = Some i /\ ~ In name names)
          \/ (k <= i /\ names !! Z.to_nat (i - k) = Some name))
    /\ (forall name, ~ In name names ->
          _var_name_to_var_index d' !! name = _var_name_to_var_index d !! name)
    /\ (NoDup names -> forall j name,
          names !! j = Some name ->
          _var_name_to_var_index d' !! name = Some (k + Z.of_nat j)).
Proof.
  induction entries as [| e rest IH]; intros data_dir k d.
  - cbn. repeat split; try reflexivity.
    + lia.
    + intros i.
      destruct (Z.leb_spec k i), (Z.ltb_spec i (k + Z.of_nat 0));
        cbn [andb]; try reflexivity.
      lia.
    + intros name i H. left. split; [exact H | intros []].
    + intros _ j name H. destruct j; discriminate H.
  - destruct e as [f | var_name var_dir_entries].
    + exact (IH data_dir k d).
    + cbn [discover dir_names omap list_omap].
      fold (dir_names rest).
      set (d1 := mkCubeData _ _ _ _ _ _).
      destruct (IH data_dir (k + 1) d1)
        as ((Hc & Hd & Hv) & Hlen & Hidx & Hnm & Hout & Hin).
      split; [| split; [| split; [| split; [| split]]]].
      * repeat split; assumption.
      * rewrite Hlen. subst d1. cbn. rewrite length_app. cbn. lia.
      * intros i. rewrite Hidx. subst d1. cbn [_var_index_to_var_name length].
        destruct (Z.leb_spec (k + 1) i), (Z.ltb_spec i
                   (k + 1 + Z.of_nat (length (dir_names rest))));
          destruct (Z.leb_spec k i), (Z.ltb_spec i
                   (k + Z.of_nat (S (length (dir_names rest)))));
          cbn [andb]; try lia;
          first
            [ rewrite lookup_insert_ne by lia; reflexivity
            | assert (i = k) as -> by lia;
              rewrite lookup_insert_eq;
              replace (Z.to_nat (k - k)) with 0%nat by lia; reflexivity
            | replace (Z.to_nat (i - k)) with (S (Z.to_nat (i - (k + 1))))
                by lia; reflexivity ].
      * intros name i H. destruct (Hnm name i H) as [[H1 H2] | [H1 H2]].
        -- subst d1. cbn [_var_name_to_var_index] in H1.
           destruct (String.eqb_spec var_name name) as [-> | Hne].
           ++ rewrite lookup_insert_eq in H1. injection H1 as <-.
              right. split; [lia |].
              replace (Z.to_nat (k - k)) with 0%nat by lia. reflexivity.
           ++ rewrite lookup_insert_ne in H1 by exact Hne.
              left. split; [exact H1 |]. intros [E | E]; [congruence | tauto].
        -- right. split; [lia |].
           replace (Z.to_nat (i - k)) with (S (Z.to_nat (i - (k + 1))))
             by lia.
           exact H2.
      * intros name Hname. rewrite Hout.
        -- subst d1. cbn [_var_name_to_var_index].
           apply lookup_insert_ne. intros ->. apply Hname. left. reflexivity.
        -- intros E. apply Hname. right. exact E.
      * intros Hnd j name Hj. apply NoDup_cons in Hnd. destruct Hnd as [Hn Hnd].
        destruct j as [| j].
        -- injection Hj as ->. rewrite Hout.
           ++ subst d1. cbn [_var_name_to_var_index].
              rewrite lookup_insert_eq. f_equal. lia.
           ++ rewrite <- list_elem_of_In. exact Hn.
        -- rewrite (Hin Hnd j name Hj). f_equal. lia.
Qed.

(** X6.  The tables [CubeData.__init__] builds from a listing of the
    data directory: the first component of [shape] is the number of
    sub-directories (plain files are skipped), the index table names
    exactly the indices [0 .. n-1] with the sub-directories in listing
    order, every entry of the name table points at an index that carries
    that name, and for a listing without repeated names the two tables are
    inverse to each other. *)
Theorem CubeData_init_tables config base_dir entries :
  let d := CubeData_init config base_dir entries in
  let names := dir_names entries in
  shape d = (Z.of_nat (length names), 0,
             grid_height config, grid_width config)
  /\ (forall i, _var_index_to_var_name d !! i
                = if 0 <=? i then names !! Z.to_nat i else None)
  /\ (forall name i, variable_names d !! name = Some i ->
        0 <= i /\ names !! Z.to_nat i = Some name)
  /\ (NoDup names -> forall j name,
        names !! j = Some name ->
        variable_names d !! name = Some (Z.of_nat j)).
Proof.
  intros d names.
  destruct (discover_tables entries (path_join base_dir "data") 0
              (mkCubeData config [] ∅ ∅ [] []))
    as ((Hc & _ & _) & Hlen & Hidx & Hnm & _ & Hin).
  fold names in Hlen, Hidx, Hnm, Hin.
  split; [| split; [| split]].
  - unfold shape, d, CubeData_init. cbn [_dataset_files cube_config].
    rewrite Hlen, Hc. reflexivity.
  - intros i. unfold d, CubeData_init. cbn [_var_index_to_var_name].
    rewrite Hidx. cbn [_var_index_to_var_name]. rewrite lookup_empty.
    rewrite Z.sub_0_r, Z.add_0_l.
    destruct (Z.leb_spec 0 i); cbn [andb]; [| reflexivity].
    destruct (Z.ltb_spec i (Z.of_nat (length names))); [reflexivity |].
    symmetry. apply lookup_ge_None. lia.
  - intros name i H. unfold variable_names, d, CubeData_init in H.
    cbn [_var_name_to_var_index] in H.
    destruct (Hnm name i H) as [[H1 _] | [H1 H2]].
    + cbn in H1. rewrite lookup_empty in H1. discriminate.
    + rewrite Z.sub_0_r in H2. split; assumption.
  - intros Hnd j name Hj. unfold variable_names, d, CubeData_init.
    cbn [_var_name_to_var_index]. rewrite (Hin Hnd j name Hj).
    f_equal.
Qed.

Lemma CubeData_init_tables_witness :
  variable_names two_variable_reader !! "LAI" = Some 1.
Proof.
  apply (proj2 (proj2 (proj2
           (CubeData_init_tables default_config "testcube"
              [Dir "FAPAR" ["2001_FAPAR.nc"]; File "cube.log";
               Dir "LAI" ["2002_LAI.nc"; "2001_LAI.nc"]])))
           ltac:(apply (bool_decide_unpack _); vm_compute; exact I)
           1%nat "LAI").
  reflexivity.
Defined.

(* ===================================================================== *)
(** * Further properties: reading and closing *)
(* ===================================================================== *)

Lemma CubeData_init_consistent config base_dir entries :
  consistent (CubeData_init config base_dir entries).
Proof.
  destruct (discover_tables entries (path_join base_dir "data") 0
              (mkCubeData config [] ∅ ∅ [] []))
    as (_ & Hlen & Hidx & Hnm & _ & _).
  cbn [_dataset_files _var_index_to_var_name _var_name_to_var_index length]
    in Hlen, Hidx, Hnm.
  unfold consistent, CubeData_init.
  cbn [_dataset_files _variables _datasets _var_index_to_var_name
       _var_name_to_var_index].
  rewrite Hlen.
  split; [| split; [| split]].
  - rewrite length_replicate. reflexivity.
  - reflexivity.
  - intros i [name Hi]. rewrite Hidx in Hi.
    destruct (Z.leb_spec 0 i), (Z.ltb_spec i
               (0 + Z.of_nat (length (dir_names entries))));
      cbn [andb] in Hi; try (rewrite lookup_empty in Hi; discriminate).
    lia.
  - intros name i Hi. destruct (Hnm name i Hi) as [[H1 _] | [H1 H2]].
    + rewrite lookup_empty in H1. discriminate.
    + apply lookup_lt_Some in H2. lia.
Qed.

Lemma resolve_items_in_range d items :
  consistent d ->
  forall acc vis,
    Forall (fun i => 0 <= i < Z.of_nat (length (_dataset_files d))) acc ->
    resolve_items d items acc = Ok vis ->
    Forall (fun i => 0 <= i < Z.of_nat (length (_dataset_files d))) vis
    /\ length vis = (length acc + length items)%nat.
Proof.
  intros (_ & _ & Hidx & Hnm).
  induction items as [| v rest IH]; intros acc vis Hacc H.
  - injection H as <-. split; [exact Hacc | cbn; lia].
  - cbn [resolve_items] in H.
    assert (Hstep : forall i,
              0 <= i < Z.of_nat (length (_dataset_files d)) ->
              resolve_items d rest (acc ++ [i]) = Ok vis ->
              Forall (fun i => 0 <= i < Z.of_nat (length (_dataset_files d)))
                     vis
              /\ length vis = (length acc + length (v :: rest))%nat).
    { intros i Hi Hr. destruct (IH (acc ++ [i]) vis) as [H1 H2].
      - apply Forall_app. split; [exact Hacc |].
        constructor; [exact Hi | constructor].
      - exact Hr.
      - split; [exact H1 |]. rewrite H2, length_app. cbn. lia. }
    destruct (lookup_name d v) as [i |] eqn:En.
    + apply (Hstep i); [| exact H].
      destruct v as [s | |]; try discriminate. exact (Hnm s i En).
    + destruct (lookup_index d v) as [i |] eqn:Ei; [| discriminate].
      apply (Hstep i); [| exact H].
      destruct v as [| j |]; try discriminate. cbn in Ei.
      destruct (_var_index_to_var_name d !! j) eqn:Ej; [| discriminate].
      injection Ei as <-. apply Hidx. rewrite Ej. eexists. reflexivity.
Qed.

Lemma get_var_indices_in_range d variable vis :
  consistent d ->
  _get_var_indices d variable = Ok vis ->
  Forall (fun i => 0 <= i < Z.of_nat (length (_dataset_files d))) vis.
Proof.
  intros Hc H. pose proof Hc as (_ & _ & Hidx & Hnm).
  unfold _get_var_indices in H.
  destruct (lookup_name d variable) as [i |] eqn:En.
  - injection H as <-. constructor; [| constructor].
    destruct variable as [s | |]; try discriminate. exact (Hnm s i En).
  - destruct (lookup_index d variable) as [i |] eqn:Ei.
    + injection H as <-. constructor; [| constructor].
      destruct variable as [| j |]; try discriminate. cbn in Ei.
      destruct (_var_index_to_var_name d !! j) eqn:Ej; [| discriminate].
      injection Ei as <-. apply Hidx. rewrite Ej. eexists. reflexivity.
    + destruct (py_iter variable) as [items | e]; [| discriminate].
      cbn in H.
      exact (proj1 (resolve_items_in_range d items Hc [] vis
                      (Forall_nil_2 _) H)).
Qed.

Lemma same_tables_refl d : same_tables d d.
Proof. repeat split. Qed.

Lemma same_tables_trans d1 d2 d3 :
  same_tables d1 d2 -> same_tables d2 d3 -> same_tables d1 d3.
Proof.
  intros (A1 & A2 & A3 & A4) (B1 & B2 & B3 & B4).
  repeat split; congruence.
Qed.

Lemma resolve_items_each d items :
  forall acc vis,
    resolve_items d items acc = Ok vis ->
    exists new, vis = acc ++ new /\ Forall2 (resolves_to d) items new.
Proof.
  induction items as [| v rest IH]; intros acc vis H.
  - injection H as <-. exists []. rewrite app_nil_r.
    split; [reflexivity | constructor].
  - cbn [resolve_items] in H.
    destruct (lookup_name d v) as [i |] eqn:En.
    + destruct (IH _ _ H) as (new & -> & Hnew).
      exists (i :: new). rewrite <- app_assoc. split; [reflexivity |].
      constructor; [left; exact En | exact Hnew].
    + destruct (lookup_index d v) as [i |] eqn:Ei; [| discriminate].
      destruct (IH _ _ H) as (new & -> & Hnew).
      exists (i :: new). rewrite <- app_assoc. split; [reflexivity |].
      constructor; [right; split; assumption | exact Hnew].
Qed.

(** X7.  The variable indices [get] works on.  On a reader whose tables
    are consistent (as [__init__] leaves them), the indices that
    [_get_var_indices] returns for a [variable] argument are slot
    numbers of the reader, [0 .. n-1].  A known name gives its index, a
    known index gives itself, and anything else is iterated: the result
    has one index per item, in the order of the items and with
    repetitions kept, each item resolved by name or else as a known
    index. *)
Theorem get_var_indices_are_slots d variable vis :
  consistent d ->
  _get_var_indices d variable = Ok vis ->
  Forall (fun i => 0 <= i < Z.of_nat (length (_dataset_files d))) vis
  /\ (forall i, resolves_to d variable i -> vis = [i])
  /\ (lookup_name d variable = None -> lookup_index d variable = None ->
      exists items, py_iter variable = Ok items
                    /\ Forall2 (resolves_to d) items vis).
Proof.
  intros Hc H.
  split; [exact (get_var_indices_in_range d variable vis Hc H) |].
  unfold _get_var_indices in H. split.
  - intros i [En | [En Ei]].
    + rewrite En in H. injection H as <-. reflexivity.
    + rewrite En, Ei in H. injection H as <-. reflexivity.
  - intros En Ei. rewrite En, Ei in H.
    destruct (py_iter variable) as [items | e]; [| discriminate].
    cbn in H. exists items. split; [reflexivity |].
    destruct (resolve_items_each d items [] vis H) as (new & -> & Hnew).
    exact Hnew.
Qed.

Lemma get_var_indices_are_slots_witness :
  _get_var_indices two_variable_reader (PSeq [PStr "LAI"; PInt 0; PStr "LAI"])
  = Ok [1; 0; 1]
  /\ Forall (fun i => 0 <= i
                      < Z.of_nat (length (_dataset_files two_variable_reader)))
       [1; 0; 1]
  /\ (forall i,
        resolves_to two_variable_reader
          (PSeq [PStr "LAI"; PInt 0; PStr "LAI"]) i -> [1; 0; 1] = [i])
  /\ (lookup_name two_variable_reader
        (PSeq [PStr "LAI"; PInt 0; PStr "LAI"]) = None ->
      lookup_index two_variable_reader
        (PSeq [PStr "LAI"; PInt 0; PStr "LAI"]) = None ->
      exists items,
        py_iter (PSeq [PStr "LAI"; PInt 0; PStr "LAI"]) = Ok items
        /\ Forall2 (resolves_to two_variable_reader) items [1; 0; 1]).
Proof.
  split; [reflexivity |].
  apply (get_var_indices_are_slots two_variable_reader).
  - apply CubeData_init_consistent.
  - reflexivity.
Defined.

Lemma close_from_all_opened pre :
  forall i d hs,
    close_from i (map Some pre) (d, hs)
    = (Ok tt, (cleared i pre d, released pre hs)).
Proof.
  induction pre as [| h pre IH]; intros i d hs.
  - reflexivity.
  - simpl. unfold bind, modify. simpl. apply IH.
Qed.

Lemma first_unopened_slot (slots : list (option handle)) :
  (exists pre, slots = map Some pre)
  \/ (exists pre post, slots = map Some pre ++ None :: post).
Proof.
  induction slots as [| [h |] rest IH].
  - left. exists []. reflexivity.
  - destruct IH as [[pre ->] | (pre & post & ->)].
    + left. exists (h :: pre). reflexivity.
    + right. exists (h :: pre), post. reflexivity.
  - right. exists [], rest. reflexivity.
Qed.

Lemma cleared_keeps pre :
  forall i d,
    same_tables d (cleared i pre d)
    /\ (_datasets d = _variables d ->
        _datasets (cleared i pre d) = _variables (cleared i pre d)).
Proof.
  induction pre as [| h pre IH]; intros i d.
  - split; [apply same_tables_refl | auto].
  - cbn [cleared]. destruct (IH (S i) (set_slot d i None None)) as [H1 H2].
    split.
    + eapply same_tables_trans; [| exact H1].
      split; [reflexivity |]. split; [reflexivity |]. split; reflexivity.
    + intros E. apply H2. cbn [set_slot _datasets _variables].
      rewrite E. reflexivity.
Qed.

(** X8.  [CubeData.close] returns normally exactly when every slot of the
    dataset list holds an open dataset.  It then closes each of them,
    leaves [None] in every slot of both slot lists and keeps the tables;
    a second [close] on a reader with at least one variable raises,
    because the slots are [None] by then.  [Cube.close] over such a
    reader marks the cube closed and drops the reader. *)
Theorem close_returns_iff_all_open d hs :
  (is_ok (fst (CubeData_close (d, hs))) = true
   <-> exists pre, _datasets d = map Some pre)
  /\ (forall pre,
        _datasets d = map Some pre ->
        exists d' hs',
          CubeData_close (d, hs) = (Ok tt, (d', hs'))
          /\ _datasets d' = replicate (length pre) None
          /\ (_datasets d = _variables d -> _variables d' = _datasets d')
          /\ same_tables d d'
          /\ live hs' = live hs ∖ list_to_set pre
          /\ (pre <> [] ->
              CubeData_close (d', hs')
              = (Raised none_has_no_close, (d', hs')))
          /\ (forall c, _data c = Some d ->
                Cube_close c hs
                = (Ok tt, mkCube (_base_dir c) (_config c) true None, hs'))).
Proof.
  assert (Hall : forall pre,
            _datasets d = map Some pre ->
            CubeData_close (d, hs)
            = (Ok tt, (cleared 0 pre d, released pre hs))).
  { intros pre Hd. unfold CubeData_close, _close_datasets. rewrite Hd.
    apply close_from_all_opened. }
  split.
  - split.
    + intros Hok.
      destruct (first_unopened_slot (_datasets d))
        as [Hpre | (pre & post & Hd)]; [exact Hpre |].
      unfold CubeData_close, _close_datasets in Hok.
      rewrite Hd, close_from_opened in Hok. discriminate.
    + intros [pre Hd]. rewrite (Hall pre Hd). reflexivity.
  - intros pre Hd. exists (cleared 0 pre d), (released pre hs).
    assert (Hslots : _datasets (cleared 0 pre d)
                     = replicate (length pre) None).
    { rewrite (cleared_datasets pre 0%nat d [] []);
        [apply app_nil_r | reflexivity |].
      rewrite Hd, app_nil_r. reflexivity. }
    split; [exact (Hall pre Hd) |]. split; [exact Hslots |].
    split; [| split; [| split; [| split]]].
    + intros E. symmetry. apply (proj2 (cleared_keeps pre 0%nat d) E).
    + apply (proj1 (cleared_keeps pre 0%nat d)).
    + apply released_live.
    + intros Hne. unfold CubeData_close, _close_datasets. rewrite Hslots.
      destruct pre as [| h pre]; [contradiction | reflexivity].
    + intros c Hc. unfold Cube_close. rewrite Hc, (Hall pre Hd).
      reflexivity.
Qed.

Lemma close_returns_iff_all_open_witness :
  exists d' hs',
    CubeData_close
      (set_slot (set_slot two_variable_reader 0 (Some 0%nat) (Some 0%nat))
                1 (Some 1%nat) (Some 1%nat),
       mkHandles 2%nat {[ 0%nat; 1%nat ]})
    = (Ok tt, (d', hs'))
    /\ _datasets d' = [None; None]
    /\ live hs' = {[ 0%nat; 1%nat ]} ∖ list_to_set [0%nat; 1%nat].
Proof.
  destruct (proj2 (close_returns_iff_all_open
              (set_slot (set_slot two_variable_reader 0 (Some 0%nat)
                           (Some 0%nat)) 1 (Some 1%nat) (Some 1%nat))
              (mkHandles 2%nat {[ 0%nat; 1%nat ]}))
              [0%nat; 1%nat] eq_refl)
    as (d' & hs' & Hclose & Hslots & _ & _ & Hlive & _).
  exists d', hs'. split; [exact Hclose |]. split; [exact Hslots |].
  exact Hlive.
Defined.

(* ===================================================================== *)
(** * Further properties: the weights of the averaging provider *)
(* ===================================================================== *)

Lemma weigh_sources_keys period_start period_end ranges :
  forall i m m',
    (forall j, i <= j -> m !! j = None) ->
    weigh_sources i ranges period_start period_end m = Ok m' ->
    forall j w,
      m' !! j = Some w <->
      (i <= j /\ exists r, ranges !! Z.to_nat (j - i) = Some r
                 /\ temporal_weight (fst r) (snd r) period_start period_end
                    = Ok w
                 /\ Qgtb w 0 = true)
      \/ (j < i /\ m !! j = Some w).
Proof.
  induction ranges as [| [a b] ranges IH]; intros i m m' Hm0 H j w.
  - injection H as <-. split.
    + intros Hj. right. split; [| exact Hj].
      destruct (Z_lt_le_dec j i) as [Hlt | Hle]; [exact Hlt |].
      rewrite (Hm0 j Hle) in Hj. discriminate.
    + intros [(_ & r & Hr & _) | [_ Hj]]; [| exact Hj].
      rewrite lookup_nil in Hr. discriminate.
  - cbn [weigh_sources] in H.
    destruct (temporal_weight a b period_start period_end) as [w0 |] eqn:Ew;
      [| discriminate].
    cbn in H.
    assert (Hm1 : forall j, i + 1 <= j ->
              (if Qgtb w0 0 then <[i:=w0]> m else m) !! j = None).
    { intros k Hk. destruct (Qgtb w0 0).
      - rewrite lookup_insert_ne by lia. apply Hm0. lia.
      - apply Hm0. lia. }
    rewrite (IH _ _ _ Hm1 H j w).
    split.
    + intros [(Hj & r & Hr & Hw & Hpos) | [Hj Hm]].
      * left. split; [lia |]. exists r.
        replace (Z.to_nat (j - i)) with (S (Z.to_nat (j - (i + 1)))) by lia.
        split; [exact Hr |]. split; assumption.
      * destruct (Z.eq_dec j i) as [-> | Hne].
        -- destruct (Qgtb w0 0) eqn:Epos.
           ++ rewrite lookup_insert_eq in Hm. injection Hm as ->.
              left. split; [lia |]. exists (a, b).
              rewrite Z.sub_diag. split; [reflexivity |].
              split; assumption.
           ++ rewrite (Hm0 i) in Hm by lia. discriminate.
        -- right. split; [lia |].
           destruct (Qgtb w0 0); [| exact Hm].
           rewrite lookup_insert_ne in Hm by congruence. exact Hm.
    + intros [(Hj & r & Hr & Hw & Hpos) | [Hj Hm]].
      * destruct (Z.eq_dec j i) as [-> | Hne].
        -- rewrite Z.sub_diag in Hr. injection Hr as <-.
           cbn [fst snd] in Hw. rewrite Ew in Hw. injection Hw as ->.
           right. split; [lia |]. rewrite Hpos. apply lookup_insert_eq.
        -- left. split; [lia |]. exists r.
           replace (Z.to_nat (j - i)) with (S (Z.to_nat (j - (i + 1))))
             in Hr by lia.
           split; [exact Hr |]. split; assumption.
      * right. split; [lia |].
        destruct (Qgtb w0 0); [| exact Hm].
        rewrite lookup_insert_ne by lia. exact Hm.
Qed.

Lemma weigh_sources_zero_duration period_start period_end ranges :
  Exists (fun t => snd t - fst t = 0) ranges ->
  forall i m,
    weigh_sources i ranges period_start period_end m
    = Raised ZeroDivisionError.
Proof.
  induction ranges as [| [a b] ranges IH]; intros Hz i m.
  - inversion Hz.
  - cbn [weigh_sources]. unfold temporal_weight at 1.
    destruct (Z.eqb_spec (b - a) 0) as [E | E]; [reflexivity |].
    cbn. apply IH. inversion Hz as [x l Hx | x l Hl]; subst.
    + cbn [fst snd] in Hx. contradiction.
    + exact Hl.
Qed.

(** X9.  What [BaseCubeSourceProvider.compute_variable_images] does, case
    by case.  When some source time range has zero duration, the weight
    computation raises [ZeroDivisionError] and the provider is left as
    it was.  Otherwise: when no source has a positive weight against the
    period (in particular when there is no source), the method returns
    [None] without calling the subclass; when some source has one, the
    outcome is that of one call of
    [compute_variable_images_from_sources], made on the mapping that
    binds [j] to [w] exactly when [j] indexes a source time range of
    weight [w > 0] (so its keys point into the list of source time
    ranges), with the result passed on, except that [None] ends in the
    [AttributeError] of [result.keys()]. *)
Theorem delegate_gets_positive_weights {P : Type} (bp : BaseProvider P)
    period_start period_end p r p' :
  base_compute_variable_images bp period_start period_end p = (r, p') ->
  let ranges := get_source_time_ranges bp p in
  (Exists (fun t => snd t - fst t = 0) ranges ->
   r = Raised ZeroDivisionError /\ p' = p)
  /\ (Forall (fun t => snd t - fst t <> 0) ranges ->
      (Forall (fun t => ~ positive_source period_start period_end t) ranges ->
       r = Ok None /\ p' = p)
      /\ (Exists (positive_source period_start period_end) ranges ->
          exists m r0,
            positive_weights ranges period_start period_end m
            /\ (forall j, is_Some (m !! j) ->
                          0 <= j < Z.of_nat (length ranges))
            /\ compute_variable_images_from_sources bp m p = (r0, p')
            /\ r = match r0 with
                   | Ok None => Raised none_has_no_keys
                   | _ => r0
                   end)).
Proof.
  intros Hrun ranges.
  unfold base_compute_variable_images, bind, gets, lift_result, ret in Hrun.
  fold ranges in Hrun.
  split.
  { intros Hz.
    rewrite (weigh_sources_zero_duration _ _ _ Hz) in Hrun.
    destruct ranges as [| t0 rest]; [inversion Hz |].
    cbn [length Nat.eqb] in Hrun. injection Hrun as <- <-.
    split; reflexivity. }
  intros Hdur.
  destruct (weigh_sources_lookup period_start period_end _ Hdur 0 ∅)
    as (m & Ew & _).
  rewrite Ew in Hrun.
  assert (Hkeys : positive_weights ranges period_start period_end m).
  { intros j w.
    rewrite (weigh_sources_keys _ _ _ _ _ _
               (fun k _ => lookup_empty k) Ew j w).
    rewrite Z.sub_0_r. split.
    - intros [H | [_ H]]; [exact H |].
      rewrite lookup_empty in H. discriminate.
    - intros H. left. exact H. }
  split.
  - intros Hnone.
    assert (Hm : m = ∅).
    { apply map_empty. intros j. destruct (m !! j) as [w |] eqn:Hj;
        [| reflexivity].
      apply Hkeys in Hj. destruct Hj as (_ & t & Ht & Hw & Hpos).
      exfalso. apply (Forall_lookup_1 _ _ _ _ Hnone Ht).
      exists w. split; assumption. }
    subst m. rewrite bool_decide_eq_true_2 in Hrun by reflexivity.
    destruct (length ranges =? 0)%nat; injection Hrun as <- <-;
      split; reflexivity.
  - intros Hsome.
    apply Exists_exists in Hsome. destruct Hsome as (t & Hin & w & Hw & Hpos).
    apply list_elem_of_lookup in Hin. destruct Hin as [i Hi].
    assert (Hmi : m !! Z.of_nat i = Some w).
    { apply Hkeys. split; [lia |]. exists t. rewrite Nat2Z.id.
      split; [exact Hi |]. split; assumption. }
    assert (Hne : m <> ∅).
    { intros ->. rewrite lookup_empty in Hmi. discriminate. }
    rewrite bool_decide_eq_false_2 in Hrun by exact Hne.
    destruct ranges as [| t0 rest] eqn:Er;
      [rewrite lookup_nil in Hi; discriminate |].
    cbn [length Nat.eqb] in Hrun.
    destruct (compute_variable_images_from_sources bp m p) as [r0 p0] eqn:Ec.
    exists m, r0.
    assert (Hp : p0 = p' /\ r = match r0 with
                                | Ok None => Raised none_has_no_keys
                                | _ => r0
                                end).
    { destruct r0 as [[imgs |] | e]; unfold raise in Hrun;
        injection Hrun as Hr Hp; subst r p'; split; reflexivity. }
    destruct Hp as [<- Hr].
    split; [exact Hkeys |]. split; [| split; [exact Ec | exact Hr]].
    intros j [w' Hj]. apply Hkeys in Hj.
    destruct Hj as (H0 & t' & Ht' & _).
    apply lookup_lt_Some in Ht'. lia.
Qed.

Lemma delegate_gets_positive_weights_witness :
  let ranges := get_source_time_ranges averaging_provider 0%nat in
  let period_start := mk_datetime 2001 1 5 in
  let period_end := mk_datetime 2001 1 13 in
  Exists (positive_source period_start period_end) ranges
  /\ (Exists (fun t => snd t - fst t = 0) ranges ->
      (Ok (Some [("LAI", Some small_image)]) : result images)
      = Raised ZeroDivisionError /\ 1%nat = 0%nat)
  /\ (Forall (fun t => snd t - fst t <> 0) ranges ->
      (Forall (fun t => ~ positive_source period_start period_end t) ranges ->
       (Ok (Some [("LAI", Some small_image)]) : result images) = Ok None
       /\ 1%nat = 0%nat)
      /\ (Exists (positive_source period_start period_end) ranges ->
          exists m r0,
            positive_weights ranges period_start period_end m
            /\ (forall j, is_Some (m !! j) ->
                          0 <= j < Z.of_nat (length ranges))
            /\ compute_variable_images_from_sources averaging_provider m
                 0%nat = (r0, 1%nat)
            /\ (Ok (Some [("LAI", Some small_image)]) : result images)
               = match r0 with
                 | Ok None => Raised none_has_no_keys
                 | _ => r0
                 end)).
Proof.
  cbv zeta. split.
  - apply Exists_cons_hd. eexists. split; [cbv; reflexivity | reflexivity].
  - apply (delegate_gets_positive_weights averaging_provider
             (mk_datetime 2001 1 5) (mk_datetime 2001 1 13) 0%nat).
    vm_compute. reflexivity.
Defined.

(* ===================================================================== *)
(** * Further properties: updates that write nothing *)
(* ===================================================================== *)

Lemma steps_bind_with {S A B : Type} (R : S -> S -> Prop) (Q : A -> Prop)
    (m : M S A) (k : A -> M S B) :
  (forall s1 s2 s3, R s1 s2 -> R s2 s3 -> R s1 s3) ->
  steps R m ->
  (forall s a s', m s = (Ok a, s') -> Q a) ->
  (forall a, Q a -> steps R (k a)) ->
  steps R (bind m k).
Proof.
  intros Htrans Hm HQ Hk s r s' H.
  destruct (bind_inv m k s r s' H) as [(a & s1 & H1 & H2) | (e & H1 & _)].
  - eapply Htrans; [eapply Hm; exact H1 |].
    eapply (Hk a); [eapply HQ; exact H1 | exact H2].
  - eapply Hm; exact H1.
Qed.

Lemma steps_for_each_Forall {S A : Type} (R : S -> S -> Prop)
    (xs : list A) (body : A -> M S unit) :
  (forall s, R s s) ->
  (forall s1 s2 s3, R s1 s2 -> R s2 s3 -> R s1 s3) ->
  Forall (fun x => steps R (body x)) xs ->
  steps R (for_each xs body).
Proof.
  intros Hrefl Htrans. induction 1 as [| x xs Hx _ IH]; cbn [for_each].
  - apply (steps_ret _ Hrefl).
  - apply (steps_bind _ Htrans); [exact Hx | intros _; exact IH].
Qed.

Lemma same_store_refl {P : Type} (s : session P) : same_store s s.
Proof. repeat split. Qed.

Lemma same_store_trans {P : Type} (s1 s2 s3 : session P) :
  same_store s1 s2 -> same_store s2 s3 -> same_store s1 s3.
Proof.
  intros (A1 & A2 & A3 & A4 & A5) (B1 & B2 & B3 & B4 & B5).
  unfold same_store. repeat split; congruence.
Qed.

Lemma on_provider_same_store {P A : Type} (m : M P A) :
  steps same_store (on_provider m).
Proof.
  apply (steps_on_provider same_store). intros s p. repeat split.
Qed.

Lemma write_images_none_same_store {P : Type} accepts_attr cube
    (provider : CubeSourceProvider P) target_time_range entries :
  Forall (fun e => snd e = None) entries ->
  steps same_store
    (_write_images accepts_attr cube provider target_time_range entries).
Proof.
  intros Hnone. unfold _write_images.
  apply (steps_for_each_Forall _ _ _ (@same_store_refl P)
           (@same_store_trans P)).
  eapply Forall_impl; [exact Hnone |].
  intros [var_name im] Him. cbn [snd] in Him. subst im.
  apply (steps_ret _ (@same_store_refl P)).
Qed.

Lemma period_loop_same_store {P : Type} accepts_attr cube
    (provider : CubeSourceProvider P) d_time time_max
    target_start_time target_end_time :
  (forall t1 t2 p r p',
     compute_variable_images provider t1 t2 p = (r, p') -> no_image r) ->
  forall n time_1,
    steps same_store
      (period_loop accepts_attr cube provider n time_1 d_time time_max
         target_start_time target_end_time).
Proof.
  intros Hprov. induction n as [| n IH]; intros time_1; cbn [period_loop].
  - apply (steps_ret _ (@same_store_refl P)).
  - apply (steps_bind _ (@same_store_trans P));
      [apply (steps_lift_result _ (@same_store_refl P)) | intros weight].
    apply (steps_bind _ (@same_store_trans P)); [| intros _; apply IH].
    destruct (Qgtb weight 0); [| apply (steps_ret _ (@same_store_refl P))].
    apply (steps_bind_with same_store
             (fun r => no_image (Ok r)) _ _ (@same_store_trans P)).
    + apply on_provider_same_store.
    + intros s a s' H. unfold on_provider in H.
      destruct (compute_variable_images provider time_1
                  (period_end time_1 d_time time_max) (provider_state s))
        as [r p'] eqn:E.
      injection H as -> _. exact (Hprov _ _ _ _ _ E).
    + intros [[| entry entries] |] Hq;
        try apply (steps_ret _ (@same_store_refl P)).
      apply write_images_none_same_store. exact Hq.
Qed.

(** X10.  An update whose provider never delivers an image (every
    [compute_variable_images] result is an error, [None], an empty
    dictionary or a dictionary of [None] images) writes nothing: however
    it ends, the partition files, the variable folders, the open handles
    and the log of opened files are as before; no folder is created and
    no file is opened. *)
Theorem update_without_images_writes_nothing {P : Type} accepts_attr cube
    (provider : CubeSourceProvider P) s r s' :
  (forall t1 t2 p r p',
     compute_variable_images provider t1 t2 p = (r, p') -> no_image r) ->
  update accepts_attr cube provider s = (r, s') ->
  disk s' = disk s /\ folders s' = folders s
  /\ open_handles s' = open_handles s /\ opened s' = opened s.
Proof.
  intros Hprov Hrun.
  enough (H : exists s0, same_store s0 s'
                         /\ disk s0 = disk s /\ folders s0 = folders s
                         /\ open_handles s0 = open_handles s
                         /\ opened s0 = opened s).
  { destruct H as (s0 & (A1 & A2 & A3 & A4 & _) & B1 & B2 & B3 & B4).
    repeat split; congruence. }
  unfold update in Hrun.
  destruct (_closed cube).
  { injection Hrun as _ <-. exists s. repeat split. }
  apply bind_inv in Hrun.
  destruct Hrun as [(u & s1 & Hprep & Hrun) | (e & Hprep & _)].
  2:{ apply on_provider_same_store in Hprep.
      exists s. split; [exact Hprep | repeat split]. }
  apply on_provider_same_store in Hprep.
  apply bind_inv in Hrun.
  destruct Hrun as [(coverage & s2 & Hc & Hrun) | (e & Hc & _)].
  2:{ apply on_provider_same_store in Hc.
      exists s. split; [| repeat split].
      exact (same_store_trans _ _ _ Hprep Hc). }
  apply on_provider_same_store in Hc.
  pose proof (same_store_trans _ _ _ Hprep Hc) as H2.
  destruct coverage as [target_start_time target_end_time].
  cbv zeta in Hrun.
  destruct (temporal_res (_config cube) =? 0).
  { injection Hrun as _ <-. exists s. split; [exact H2 | repeat split]. }
  apply bind_inv in Hrun.
  destruct Hrun as [(u2 & s3 & Hmod & Hrun) | (e & Hmod & _)];
    [| discriminate Hmod].
  injection Hmod as _ <-.
  exists (set_datasets ∅ s2).
  destruct H2 as (A1 & A2 & A3 & A4 & _).
  split; [| repeat split; assumption].
  apply bind_inv in Hrun.
  match type of Hrun with
  | context [for_each ?l ?body] =>
      assert (Hloop : steps same_store (for_each l body))
  end.
  { apply (steps_for_each _ (@same_store_refl P) (@same_store_trans P)).
    intros target_year. unfold year_loop_body.
    apply (steps_bind _ (@same_store_trans P));
      [apply (steps_lift_result _ (@same_store_refl P)) | intros time_min].
    apply (steps_bind _ (@same_store_trans P));
      [apply (steps_lift_result _ (@same_store_refl P)) | intros time_max].
    apply period_loop_same_store. exact Hprov. }
  destruct Hrun as [(u4 & s4 & Hfor & Hrun) | (e & Hfor & _)];
    [| exact (Hloop _ _ _ Hfor)].
  apply Hloop in Hfor.
  assert (Hds : datasets s4 = ∅) by (rewrite (proj2 (proj2 (proj2 (proj2 Hfor)))); reflexivity).
  assert (Hclose : close_datasets s4 = (Ok tt, s4)).
  { unfold close_datasets, bind, gets. rewrite Hds.
    rewrite map_to_list_empty. reflexivity. }
  unfold bind in Hrun. rewrite Hclose in Hrun.
  apply on_provider_same_store in Hrun.
  exact (same_store_trans _ _ _ Hfor Hrun).
Qed.

Lemma update_without_images_writes_nothing_witness :
  let s' := snd (update accept_all small_cube idle_provider fresh_session) in
  disk s' = disk fresh_session /\ folders s' = folders fresh_session
  /\ open_handles s' = open_handles fresh_session
  /\ opened s' = opened fresh_session.
Proof.
  apply (update_without_images_writes_nothing accept_all small_cube
           idle_provider fresh_session
           (fst (update accept_all small_cube idle_provider fresh_session))).
  - intros t1 t2 p r p' H. injection H as <- _. exact I.
  - apply surjective_pairing.
Defined.

(* ===================================================================== *)
(** * Further properties: the provider calls of any update *)
(* ===================================================================== *)




(* ===================================================================== *)
(** * Further properties: handles of an update that completes *)
(* ===================================================================== *)

Lemma ok_keeps_ret {S A : Type} (I : S -> Prop) (a : A) :
  ok_keeps I (ret a).
Proof. intros s a' s' Hs H. injection H as _ <-. exact Hs. Qed.

Lemma ok_keeps_bind {S A B : Type} (I : S -> Prop) (m : M S A)
    (k : A -> M S B) :
  ok_keeps I m -> (forall a, ok_keeps I (k a)) -> ok_keeps I (bind m k).
Proof.
  intros Hm Hk s b s' Hs H.
  destruct (bind_inv m k s _ s' H) as [(a & s1 & H1 & H2) | (e & _ & He)];
    [| discriminate He].
  eapply Hk; [eapply Hm; [exact Hs | exact H1] | exact H2].
Qed.

Lemma ok_keeps_for_each {S A : Type} (I : S -> Prop) (xs : list A)
    (body : A -> M S unit) :
  (forall x, ok_keeps I (body x)) -> ok_keeps I (for_each xs body).
Proof.
  intros Hb. induction xs as [| x xs IH]; cbn [for_each].
  - apply ok_keeps_ret.
  - apply ok_keeps_bind; [apply Hb | intros _; exact IH].
Qed.

Lemma ok_keeps_of_steps {S A : Type} (I : S -> Prop) (R : S -> S -> Prop)
    (m : M S A) :
  (forall s s', I s -> R s s' -> I s') -> steps R m -> ok_keeps I m.
Proof.
  intros HIR Hm s a s' Hs H. eapply HIR; [exact Hs | eapply Hm; exact H].
Qed.

Lemma same_handles_refl {P : Type} (s : session P) : same_handles s s.
Proof. split; reflexivity. Qed.

Lemma same_handles_trans {P : Type} (s1 s2 s3 : session P) :
  same_handles s1 s2 -> same_handles s2 s3 -> same_handles s1 s3.
Proof. intros [A1 A2] [B1 B2]. split; congruence. Qed.

Ltac same_handles_leaves :=
  first
    [ apply (steps_on_provider same_handles); intros; split; reflexivity
    | apply (steps_read_file same_handles same_handles_refl)
    | apply steps_modify; intros; split; reflexivity ].

Lemma init_variable_dataset_same_handles {P : Type} accepts_attr cube
    (provider : CubeSourceProvider P) k variable_name :
  steps same_handles
    (_init_variable_dataset accepts_attr cube provider k variable_name).
Proof.
  unfold _init_variable_dataset, update_file.
  repeat first
    [ progress steps_structure (@same_handles_refl P) (@same_handles_trans P)
    | same_handles_leaves ].
Qed.

Lemma write_record_same_handles {P : Type} (cube : Cube) k t1 t2 var_name
    im f :
  steps (@same_handles P) (write_record cube k t1 t2 var_name im f).
Proof.
  unfold write_record, update_file.
  repeat first
    [ progress steps_structure (@same_handles_refl P) (@same_handles_trans P)
    | same_handles_leaves ].
Qed.

Lemma session_handles_same {P : Type} base (s s' : session P) :
  session_handles base s -> same_handles s s' -> session_handles base s'.
Proof.
  intros (H1 & H2 & H3) [E1 E2]. unfold session_handles.
  rewrite E1, E2. split; [exact H1 |]. split; [exact H2 | exact H3].
Qed.

(** Entering a newly opened handle into [datasets] restores the
    invariant. *)
Lemma session_handles_register {P : Type} base (s s1 : session P) k :
  session_handles base s ->
  datasets s !! k = None ->
  open_handles s1 = snd (open_handle (open_handles s)) ->
  datasets s1 = datasets s ->
  session_handles base
    (set_datasets (<[ k := next_handle (open_handles s) ]> (datasets s1)) s1).
Proof.
  intros (H1 & H2 & H3) Hk Eh Ed. unfold session_handles.
  cbn [set_datasets open_handles datasets]. rewrite Eh, Ed.
  cbn [open_handle snd next_handle live].
  set (n := next_handle (open_handles s)) in *.
  assert (Hfresh : n ∉ live (open_handles s)).
  { intros Hn. apply H1 in Hn. lia. }
  split; [| split].
  - intros h Hh. apply elem_of_union in Hh. destruct Hh as [Hh | Hh].
    + apply elem_of_singleton in Hh. lia.
    + apply H1 in Hh. lia.
  - intros h. rewrite elem_of_union, elem_of_singleton, H2. split.
    + intros [-> | [Hb | [k' Hk']]].
      * right. exists k. apply lookup_insert_eq.
      * left. exact Hb.
      * right. exists k'. rewrite lookup_insert_ne; [exact Hk' |].
        intros <-. rewrite Hk in Hk'. discriminate.
    + intros [Hb | [k' Hk']]; [right; left; exact Hb |].
      destruct (decide (k = k')) as [<- | Hne].
      * rewrite lookup_insert_eq in Hk'. injection Hk' as <-. left.
        reflexivity.
      * rewrite lookup_insert_ne in Hk' by exact Hne.
        right. right. exists k'. exact Hk'.
  - intros h k' Hk'.
    destruct (decide (k = k')) as [<- | Hne].
    + rewrite lookup_insert_eq in Hk'. injection Hk' as <-.
      intros Hb. apply Hfresh. apply H2. left. exact Hb.
    + rewrite lookup_insert_ne in Hk' by exact Hne. exact (H3 h k' Hk').
Qed.

Lemma obtain_dataset_keeps_handles {P : Type} accepts_attr cube
    (provider : CubeSourceProvider P) base k var_name :
  ok_keeps (session_handles base)
    (obtain_dataset accepts_attr cube provider k var_name).
Proof.
  intros s h s' Hs H. unfold obtain_dataset in H.
  unfold bind at 1 in H. unfold gets at 1 in H.
  destruct (datasets s !! k) as [dataset |] eqn:Ek.
  { injection H as _ <-. exact Hs. }
  unfold bind at 1 in H. unfold gets at 1 in H.
  apply bind_inv in H.
  destruct H as [(dataset & s1 & Hopen & H) | (e & _ & He)];
    [| discriminate He].
  unfold bind, modify, ret in H. injection H as <- <-.
  assert (Hs1 : dataset = next_handle (open_handles s)
                /\ open_handles s1 = snd (open_handle (open_handles s))
                /\ datasets s1 = datasets s).
  { destruct (disk s !! k) as [f |].
    - unfold Dataset in Hopen. cbn [open_handle] in Hopen.
      injection Hopen as <- <-. repeat split.
    - apply bind_inv in Hopen.
      destruct Hopen as [(d0 & s0 & Hd & Hinit) | (e & _ & He)];
        [| discriminate He].
      unfold Dataset in Hd. cbn [open_handle] in Hd.
      injection Hd as <- <-.
      apply bind_inv in Hinit.
      destruct Hinit as [(u & s2 & Hinit & Hret) | (e & _ & He)];
        [| discriminate He].
      injection Hret as <- <-.
      apply init_variable_dataset_same_handles in Hinit.
      destruct Hinit as [E1 E2]. rewrite E1, E2. repeat split. }
  destruct Hs1 as (-> & Eh & Ed).
  apply session_handles_register; assumption.
Qed.

Lemma write_image_keeps_handles {P : Type} accepts_attr cube
    (provider : CubeSourceProvider P) base target_time_range var_name im :
  ok_keeps (session_handles base)
    (_write_image accepts_attr cube provider target_time_range var_name im).
Proof.
  unfold _write_image. destruct target_time_range as [t1 t2].
  apply ok_keeps_bind.
  { apply (ok_keeps_of_steps _ same_handles);
      [apply session_handles_same |].
    apply steps_modify. intros s. split; reflexivity. }
  intros _. apply ok_keeps_bind; [apply obtain_dataset_keeps_handles |].
  intros _. apply ok_keeps_bind.
  { apply (ok_keeps_of_steps _ same_handles);
      [apply session_handles_same |].
    apply (steps_read_file same_handles same_handles_refl). }
  intros f. apply (ok_keeps_of_steps _ same_handles);
    [apply session_handles_same | apply write_record_same_handles].
Qed.

Lemma period_loop_keeps_handles {P : Type} accepts_attr cube
    (provider : CubeSourceProvider P) base d_time time_max
    target_start_time target_end_time :
  forall n time_1,
    ok_keeps (session_handles base)
      (period_loop accepts_attr cube provider n time_1 d_time time_max
         target_start_time target_end_time).
Proof.
  induction n as [| n IH]; intros time_1; cbn [period_loop].
  - apply ok_keeps_ret.
  - apply ok_keeps_bind.
    { apply (ok_keeps_of_steps _ same_handles);
        [apply session_handles_same |].
      apply (steps_lift_result _ (@same_handles_refl P)). }
    intros weight. apply ok_keeps_bind; [| intros _; apply IH].
    destruct (Qgtb weight 0); [| apply ok_keeps_ret].
    apply ok_keeps_bind.
    { apply (ok_keeps_of_steps _ same_handles);
        [apply session_handles_same |].
      apply (steps_on_provider same_handles). intros; split; reflexivity. }
    intros [[| entry entries] |]; try apply ok_keeps_ret.
    unfold _write_images. apply ok_keeps_for_each.
    intros [var_name [im |]]; [| apply ok_keeps_ret].
    apply write_image_keeps_handles.
Qed.

Lemma close_all_live {P : Type} (l : list (pkey * handle)) :
  forall s : session P,
  exists s',
    for_each l (fun '(_, dataset) => Dataset_close dataset) s = (Ok tt, s')
    /\ forall h, h ∈ live (open_handles s') <->
                 h ∈ live (open_handles s)
                 /\ ~ exists k, (k, h) ∈ l.
Proof.
  induction l as [| [k0 h0] l IH]; intros s.
  - exists s. split; [reflexivity |]. intros h. split.
    + intros Hh. split; [exact Hh |]. intros [k Hk].
      apply elem_of_nil in Hk. exact Hk.
    + intros [Hh _]. exact Hh.
  - cbn [for_each]. unfold bind at 1. unfold Dataset_close at 1.
    unfold modify at 1.
    destruct (IH (set_open_handles (close_handle h0 (open_handles s)) s))
      as (s' & Hrun & Hlive).
    exists s'. split; [exact Hrun |].
    intros h. rewrite Hlive. cbn [set_open_handles open_handles
                                   close_handle live].
    rewrite elem_of_difference, elem_of_singleton. split.
    + intros [[Hh Hne] Hl]. split; [exact Hh |]. intros [k Hk].
      apply elem_of_cons in Hk. destruct Hk as [Hk | Hk].
      * injection Hk as _ ->. apply Hne. reflexivity.
      * apply Hl. exists k. exact Hk.
    + intros [Hh Hl]. split; [split; [exact Hh |] |].
      * intros ->. apply Hl. exists k0. apply elem_of_cons. left.
        reflexivity.
      * intros [k Hk]. apply Hl. exists k. apply elem_of_cons. right.
        exact Hk.
Qed.

(** X12.  An update that returns normally leaks no dataset handle: when
    handles are given out in increasing order (every live handle is
    below the next one, as from the start of a process), the handles
    that are live after the update are exactly those that were live
    before it.  Every partition file opened during the update has been
    closed by its final loop. *)
Theorem update_closes_what_it_opened {P : Type} accepts_attr cube
    (provider : CubeSourceProvider P) s s' :
  (forall h, h ∈ live (open_handles s) ->
             (h < next_handle (open_handles s))%nat) ->
  update accepts_attr cube provider s = (Ok tt, s') ->
  live (open_handles s') = live (open_handles s).
Proof.
  intros Horder Hrun. unfold update in Hrun.
  destruct (_closed cube); [discriminate Hrun |].
  apply bind_inv in Hrun.
  destruct Hrun as [(u & s1 & Hprep & Hrun) | (e & _ & He)];
    [| discriminate He].
  apply bind_inv in Hrun.
  destruct Hrun as [(coverage & s2 & Hc & Hrun) | (e & _ & He)];
    [| discriminate He].
  assert (E2 : open_handles s2 = open_handles s).
  { unfold on_provider in Hprep, Hc.
    destruct (prepare provider (provider_state s)) as [r1 p1].
    injection Hprep as _ <-.
    destruct (get_temporal_coverage provider _) as [r2 p2].
    injection Hc as _ <-. reflexivity. }
  destruct coverage as [target_start_time target_end_time].
  cbv zeta in Hrun.
  destruct (temporal_res (_config cube) =? 0); [discriminate Hrun |].
  apply bind_inv in Hrun.
  destruct Hrun as [(u2 & s3 & Hmod & Hrun) | (e & _ & He)];
    [| discriminate He].
  injection Hmod as _ <-.
  assert (Hinv : session_handles (live (open_handles s))
                   (set_datasets ∅ s2)).
  { unfold session_handles. cbn [set_datasets open_handles datasets].
    rewrite E2. split; [exact Horder |]. split.
    - intros h. split; [intros Hh; left; exact Hh |].
      intros [Hh | [k Hk]]; [exact Hh |].
      rewrite lookup_empty in Hk. discriminate.
    - intros h k Hk. rewrite lookup_empty in Hk. discriminate. }
  apply bind_inv in Hrun.
  destruct Hrun as [(u4 & s4 & Hfor & Hrun) | (e & _ & He)];
    [| discriminate He].
  assert (Hinv4 : session_handles (live (open_handles s)) s4).
  { revert Hfor. apply ok_keeps_for_each; [| exact Hinv].
    intros target_year. unfold year_loop_body.
    apply ok_keeps_bind.
    { apply (ok_keeps_of_steps _ same_handles);
        [apply session_handles_same |].
      apply (steps_lift_result _ (@same_handles_refl P)). }
    intros time_min. apply ok_keeps_bind.
    { apply (ok_keeps_of_steps _ same_handles);
        [apply session_handles_same |].
      apply (steps_lift_result _ (@same_handles_refl P)). }
    intros time_max. apply period_loop_keeps_handles. }
  apply bind_inv in Hrun.
  destruct Hrun as [(u5 & s5 & Hclose & Hrun) | (e & _ & He)];
    [| discriminate He].
  assert (E5 : open_handles s' = open_handles s5).
  { unfold on_provider in Hrun.
    destruct (close provider (provider_state s5)) as [r5 p5].
    injection Hrun as _ <-. reflexivity. }
  rewrite E5.
  unfold close_datasets, bind, gets in Hclose.
  destruct (close_all_live (map_to_list (datasets s4)) s4)
    as (s5' & Hrun5 & Hlive).
  rewrite Hrun5 in Hclose. destruct u5. injection Hclose as Heq.
  subst s5'.
  destruct Hinv4 as (_ & H2 & H3).
  apply set_eq. intros h. rewrite Hlive, H2. split.
  - intros [[Hb | [k Hk]] Hnot]; [exact Hb |].
    exfalso. apply Hnot. exists k. apply elem_of_map_to_list. exact Hk.
  - intros Hb. split; [left; exact Hb |].
    intros [k Hk]. apply elem_of_map_to_list in Hk.
    exact (H3 h k Hk Hb).
Qed.

Lemma update_closes_what_it_opened_witness :
  live (open_handles
          (snd (update accept_all small_cube lai_provider fresh_session)))
  = live (open_handles fresh_session).
Proof.
  apply (update_closes_what_it_opened accept_all small_cube lai_provider
           fresh_session).
  - intros h Hh. apply elem_of_empty in Hh. destruct Hh.
  - transitivity
      (fst (update accept_all small_cube lai_provider fresh_session),
       snd (update accept_all small_cube lai_provider fresh_session));
      [apply surjective_pairing |].
    vm_compute. reflexivity.
Defined.

(* ===================================================================== *)
(** * Further properties: the layout of a new partition *)
(* ===================================================================== *)


Lemma with_data_same v : with_data v (var_data v) = v.
Proof. destruct v. reflexivity. Qed.

Lemma fill_from name value d z :
  forall len a f v,
    nc_vars f !! name = Some v ->
    var_dims v = [d] ->
    nc_dims f !! d = Some (Fixed z) ->
    length (var_data v) = a ->
    let f' := fold_left
                (fun f i => write_at name (Z.to_nat i) (VNum (value i)) f)
                (map Z.of_nat (seq a len)) f in
    nc_format f' = nc_format f /\ nc_dims f' = nc_dims f
    /\ nc_vars f'
       = <[ name := with_data v
                      (var_data v
                       ++ map (fun i => VNum (value (Z.of_nat i)))
                              (seq a len)) ]> (nc_vars f).
Proof.
  induction len as [| len IH]; intros a f v Hv Hd Hdim Hlen.
  - cbn. rewrite app_nil_r, with_data_same.
    split; [reflexivity |]. split; [reflexivity |].
    symmetry. apply insert_id. exact Hv.
  - cbn [seq map fold_left]. rewrite Nat2Z.id.
    set (x := VNum (value (Z.of_nat a))).
    set (v1 := with_data v (var_data v ++ [x])).
    assert (Hw : write_at name a x f
                 = mkNc (nc_format f) (nc_dims f)
                        (<[ name := v1 ]> (nc_vars f))).
    { unfold write_at. rewrite Hv, Hd.
      rewrite (put_at_snoc a x (var_data v) Hlen).
      rewrite alter_id;
        [subst v1; unfold with_data; rewrite Hd; reflexivity |].
      intros s Hs. rewrite Hdim in Hs. injection Hs as <-. reflexivity. }
    rewrite Hw.
    destruct (IH (S a) (mkNc (nc_format f) (nc_dims f)
                          (<[ name := v1 ]> (nc_vars f))) v1)
      as (H1 & H2 & H3).
    + cbn [nc_vars]. apply lookup_insert_eq.
    + exact Hd.
    + exact Hdim.
    + subst v1. cbn [with_data var_data]. rewrite length_app. cbn. lia.
    + split; [exact H1 |]. split; [exact H2 |].
      rewrite H3. cbn [nc_vars]. rewrite insert_insert_eq.
      subst v1. cbn [with_data var_data var_dtype var_dims var_zlib
                     var_fill var_attrs].
      rewrite <- app_assoc. reflexivity.
Qed.

(** The coordinate loop fills a new variable over a fixed dimension with
    the values for the indices [0 .. n-1] and changes nothing else. *)
Lemma fill_coordinate_values name n value f v d z :
  nc_vars f !! name = Some v ->
  var_dims v = [d] ->
  nc_dims f !! d = Some (Fixed z) ->
  var_data v = [] ->
  fill_coordinate name n value f
  = mkNc (nc_format f) (nc_dims f)
         (<[ name := with_data v (map (fun i => VNum (value i)) (range n)) ]>
            (nc_vars f)).
Proof.
  intros Hv Hd Hdim Hdata. unfold fill_coordinate, range.
  destruct (fill_from name value d z (Z.to_nat n) 0%nat f v Hv Hd Hdim)
    as (H1 & H2 & H3).
  { rewrite Hdata. reflexivity. }
  rewrite Hdata in H3. cbn [app] in H3.
  rewrite map_map.
  destruct (fold_left _ _ f) as [fmt dims vars].
  cbn [nc_format nc_dims nc_vars] in H1, H2, H3. subst. reflexivity.
Qed.


(** The first change, applied to the empty file that [Dataset(file, 'w')]
    leaves: three dimensions and four variables, the coordinate
    variables filled. *)
Lemma init_coordinates_empty c x0 y0 w h fmt :
  init_coordinates c (x0, y0, w, h) (empty_dataset fmt)
  = mkNc fmt
      (<[ "lon" := Fixed w ]>
         (<[ "lat" := Fixed h ]> (<[ "time" := Unlimited 0 ]> ∅)))
      (<[ "lat" :=
            mkVar (AStr "f4") ["lat"] false None
              (<[ "units" := AStr "degrees_north" ]> ∅)
              (map (fun i => VNum (northing c + inject_Z y0 * spatial_res c
                                   - inject_Z i * spatial_res c)%Q)
                   (range h)) ]>
         (<[ "lon" :=
               mkVar (AStr "f4") ["lon"] false None
                 (<[ "units" := AStr "degrees_east" ]> ∅)
                 (map (fun i => VNum (easting c + inject_Z x0 * spatial_res c
                                      + inject_Z i * spatial_res c)%Q)
                      (range w)) ]>
            (<[ "end_time" :=
                  mkVar (AStr "f8") ["time"] false None
                    (<[ "calendar" := AStr (calendar c) ]>
                       (<[ "units" := time_units c ]> ∅)) [] ]>
               (<[ "start_time" :=
                     mkVar (AStr "f8") ["time"] false None
                       (<[ "calendar" := AStr (calendar c) ]>
                          (<[ "units" := time_units c ]> ∅)) [] ]> ∅)))).
Proof.
  unfold init_coordinates.
  set (lon_value := fun i : Z => (easting c + inject_Z x0 * spatial_res c
                                  + inject_Z i * spatial_res c)%Q).
  set (lat_value := fun i : Z => (northing c + inject_Z y0 * spatial_res c
                                  - inject_Z i * spatial_res c)%Q).
  cbv zeta.
  match goal with
  | |- fill_coordinate "lat" h _ (fill_coordinate "lon" w _ ?f13) = _ =>
      set (f := f13)
  end.
  rewrite (fill_coordinate_values "lon" w lon_value f
             (mkVar (AStr "f4") ["lon"] false None
                (<[ "units" := AStr "degrees_east" ]> ∅) [])
             "lon" w);
    [| reflexivity ..].
  rewrite (fill_coordinate_values "lat" h lat_value _
             (mkVar (AStr "f4") ["lat"] false None
                (<[ "units" := AStr "degrees_north" ]> ∅) [])
             "lat" h);
    [| reflexivity ..].
  reflexivity.
Qed.

Lemma coordinate_name_false name :
  coordinate_name name = false ->
  name <> "start_time" /\ name <> "end_time" /\ name <> "lon"
  /\ name <> "lat".
Proof.
  unfold coordinate_name. intros H.
  apply orb_false_iff in H. destruct H as [H H4].
  apply orb_false_iff in H. destruct H as [H H3].
  apply orb_false_iff in H. destruct H as [H1 H2].
  apply String.eqb_neq in H1, H2, H3, H4. auto.
Qed.




(* ===================================================================== *)
(** * Further properties: a variable the provider does not describe *)
(* ===================================================================== *)

Lemma bind_raised {S A B : Type} (m : M S A) (k : A -> M S B) s e s' :
  m s = (Raised e, s') -> bind m k s = (Raised e, s').
Proof. intros H. unfold bind. rewrite H. reflexivity. Qed.

Lemma init_variable_dataset_no_descriptor {P : Type} accepts_attr cube
    (provider : CubeSourceProvider P) k variable_name (s : session P)
    coverage p1 descriptors p2 :
  get_spatial_coverage provider (provider_state s) = (Ok coverage, p1) ->
  get_variable_descriptors provider p1 = (Ok descriptors, p2) ->
  descriptors !! variable_name = None ->
  _init_variable_dataset accepts_attr cube provider k variable_name s
  = (Raised (KeyError variable_name),
     set_provider_state p2
       (set_disk (alter (init_coordinates (_config cube) coverage) k (disk s))
          (set_provider_state p1 s))).
Proof.
  intros Hcov Hdesc Hnone.
  unfold _init_variable_dataset.
  erewrite bind_ok; [| unfold on_provider; rewrite Hcov; reflexivity].
  destruct coverage as [[[image_x0 image_y0] image_width] image_height].
  cbv zeta.
  erewrite bind_ok; [| reflexivity].
  erewrite bind_ok;
    [| unfold on_provider; cbn [provider_state set_disk set_provider_state];
       rewrite Hdesc; reflexivity].
  rewrite Hnone. reflexivity.
Qed.

(** X14.  A variable the provider does not describe.  When
    [_write_image] has to create the partition of a variable and the
    descriptors of the provider have no entry for it, the [KeyError] of
    the lookup leaves [_write_image] after the file was created: the
    file stays on disk with the coordinate variables only, its handle
    stays open and is not entered into [datasets].  From then on every
    write to that partition, by any provider, finds the file, opens it
    for appending and raises a [KeyError] for the data variable, without
    changing a file. *)
Theorem undescribed_variable_spoils_partition {P : Type} accepts_attr cube
    (provider : CubeSourceProvider P) (s : session P) t1 t2 var_name im
    coverage p1 descriptors p2 :
  let k := (year_of t1, var_name) in
  datasets s !! k = None ->
  disk s !! k = None ->
  get_spatial_coverage provider (provider_state s) = (Ok coverage, p1) ->
  get_variable_descriptors provider p1 = (Ok descriptors, p2) ->
  descriptors !! var_name = None ->
  coordinate_name var_name = false ->
  exists s' f,
    _write_image accepts_attr cube provider (t1, t2) var_name im s
    = (Raised (KeyError var_name), s')
    /\ disk s' = <[ k := f ]> (disk s)
    /\ nc_vars f !! var_name = None
    /\ is_Some (nc_vars f !! "start_time")
    /\ datasets s' !! k = None
    /\ next_handle (open_handles s) ∈ live (open_handles s')
    /\ forall (Q : Type) accepts_attr' cube'
              (provider' : CubeSourceProvider Q) (s2 : session Q)
              t1' t2' im',
         year_of t1' = year_of t1 ->
         disk s2 !! k = Some f ->
         exists s3,
           _write_image accepts_attr' cube' provider' (t1', t2') var_name
             im' s2 = (Raised (KeyError var_name), s3)
           /\ disk s3 = disk s2.
Proof.
  intros k Hds Hdisk Hcov Hdesc Hnone Hname.
  destruct (coordinate_name_false var_name Hname) as (N1 & N2 & N3 & N4).
  set (fmt := file_format (_config cube)).
  set (f := init_coordinates (_config cube) coverage (empty_dataset fmt)).
  assert (Hf : nc_vars f !! var_name = None
               /\ is_Some (nc_vars f !! "start_time")
               /\ is_Some (nc_vars f !! "end_time")).
  { subst f. destruct coverage as [[[x0 y0] w] h].
    rewrite init_coordinates_empty. cbn [nc_vars].
    split; [| split; eexists; reflexivity].
    rewrite !lookup_insert_ne by congruence. apply lookup_empty. }
  destruct Hf as (Hfv & Hfs & Hfe).
  set (s0 := set_folders ({[ var_name ]} ∪ folders s) s).
  set (hd := next_handle (open_handles s)).
  set (s1 := set_disk (<[ k := empty_dataset fmt ]> (disk s0))
               (log_open k ModeWrite
                  (set_open_handles
                     (mkHandles (S hd) ({[ hd ]} ∪ live (open_handles s)))
                     s0))).
  assert (Hopen : Dataset k ModeWrite fmt s0 = (Ok hd, s1)) by reflexivity.
  pose proof (init_variable_dataset_no_descriptor accepts_attr cube provider
                k var_name s1 coverage p1 descriptors p2 Hcov Hdesc Hnone)
    as Hinit.
  assert (Hob : obtain_dataset accepts_attr cube provider k var_name s0
                = (Raised (KeyError var_name),
                   set_provider_state p2
                     (set_disk
                        (alter (init_coordinates (_config cube) coverage) k
                           (disk s1))
                        (set_provider_state p1 s1)))).
  { unfold obtain_dataset.
    unfold bind at 1, gets at 1.
    replace (datasets s0 !! k) with (@None handle) by (symmetry; exact Hds).
    unfold bind at 1, gets at 1.
    replace (disk s0 !! k) with (@None ncfile) by (symmetry; exact Hdisk).
    apply bind_raised.
    erewrite bind_ok; [| exact Hopen].
    apply bind_raised. exact Hinit. }
  eexists _, f. split.
  { unfold _write_image. fold k.
    erewrite bind_ok; [| reflexivity].
    apply bind_raised. exact Hob. }
  split.
  { cbn [disk set_provider_state set_disk]. subst s1 s0.
    cbn [disk set_disk set_folders log_open set_open_handles].
    apply map_eq. intros k'.
    destruct (decide (k = k')) as [<- | Hne].
    - rewrite lookup_alter_eq, !lookup_insert_eq. reflexivity.
    - rewrite lookup_alter_ne by exact Hne.
      rewrite !lookup_insert_ne by exact Hne. reflexivity. }
  split; [exact Hfv |]. split; [exact Hfs |].
  split; [exact Hds |].
  split.
  { cbn. apply elem_of_union_l. apply elem_of_singleton. reflexivity. }
  intros Q accepts_attr' cube' provider' s2 t1' t2' im' Hyear Hf2.
  set (s2' := set_folders ({[ var_name ]} ∪ folders s2) s2).
  destruct (obtain_dataset_existing accepts_attr' cube' provider' k var_name
              s2' f Hf2) as (h2 & s3 & Hopen2 & Hd3 & _).
  exists s3. split; [| exact Hd3].
  unfold _write_image. rewrite Hyear. fold k.
  erewrite bind_ok; [| reflexivity].
  erewrite bind_ok; [| exact Hopen2].
  erewrite bind_ok; [| apply read_file_ok; rewrite Hd3; exact Hf2].
  unfold write_record.
  destruct Hfs as [vs ->]. destruct Hfe as [ve ->]. rewrite Hfv.
  reflexivity.
Qed.

Lemma undescribed_variable_spoils_partition_witness :
  exists s' f,
    _write_image accept_all small_cube lai_provider
      (mk_datetime 2001 1 1, mk_datetime 2001 1 9) "NDVI" small_image
      fresh_session = (Raised (KeyError "NDVI"), s')
    /\ disk s' = <[ (year_of (mk_datetime 2001 1 1), "NDVI") := f ]>
                   (disk fresh_session)
    /\ nc_vars f !! "NDVI" = None
    /\ 0%nat ∈ live (open_handles s').
Proof.
  destruct (undescribed_variable_spoils_partition accept_all small_cube
              lai_provider fresh_session (mk_datetime 2001 1 1)
              (mk_datetime 2001 1 9) "NDVI" small_image (0, 0, 4, 2) 0%nat
              lai_descriptors 0%nat
              eq_refl eq_refl eq_refl eq_refl eq_refl eq_refl)
    as (s' & f & Hrun & Hdisk & Hvar & _ & _ & Hlive & _).
  exists s', f. split; [exact Hrun |]. split; [exact Hdisk |].
  split; [exact Hvar | exact Hlive].
Defined.

(* ===================================================================== *)
(** * Further properties: the temporal coverage of an averaging provider *)
(* ===================================================================== *)

(** X15.  [BaseCubeSourceProvider.get_temporal_coverage] on the list of
    source time ranges: without sources it raises an [IndexError];
    otherwise it returns the start of the first range of the list and
    the end of the last one, whatever lies between.  When the sources
    are in order of their starts this coverage begins no later than any
    source, and when they are in order of their ends it ends no earlier
    than any source. *)
Theorem base_temporal_coverage_spans_sources {P : Type}
    (bp : BaseProvider P) p :
  let ranges := get_source_time_ranges bp p in
  (ranges = [] ->
   base_get_temporal_coverage bp p
   = (Raised (IndexError "list index out of range"), p))
  /\ (forall first final,
        head ranges = Some first -> last ranges = Some final ->
        base_get_temporal_coverage bp p = (Ok (fst first, snd final), p)
        /\ ((forall (i j : nat) r r',
               (i <= j)%nat ->
               ranges !! i = Some r -> ranges !! j = Some r' ->
               fst r <= fst r') ->
            forall r, In r ranges -> fst first <= fst r)
        /\ ((forall (i j : nat) r r',
               (i <= j)%nat ->
               ranges !! i = Some r -> ranges !! j = Some r' ->
               snd r <= snd r') ->
            forall r, In r ranges -> snd r <= snd final)).
Proof.
  cbv zeta. unfold base_get_temporal_coverage, bind, gets.
  split.
  - intros ->. reflexivity.
  - intros first final Hhead Hlast.
    destruct (get_source_time_ranges bp p) as [| first' rest] eqn:E;
      [discriminate Hhead |].
    injection Hhead as ->. rewrite Hlast.
    split; [reflexivity |]. split.
    + intros Hsorted r Hr. apply list_elem_of_In in Hr.
      apply list_elem_of_lookup in Hr. destruct Hr as [j Hj].
      apply (Hsorted 0%nat j first r); [lia | reflexivity | exact Hj].
    + intros Hsorted r Hr. apply list_elem_of_In in Hr.
      apply list_elem_of_lookup in Hr. destruct Hr as [i Hi].
      rewrite last_lookup in Hlast.
      apply (Hsorted i (pred (length (first :: rest))) r final);
        [| exact Hi | exact Hlast].
      apply lookup_lt_Some in Hi. lia.
Qed.

Lemma base_temporal_coverage_spans_sources_witness :
  base_get_temporal_coverage averaging_provider 0%nat
  = (Ok (mk_datetime 2001 1 1, mk_datetime 2001 1 25), 0%nat)
  /\ base_get_temporal_coverage unsorted_provider tt
     = (Ok (mk_datetime 2001 1 9, mk_datetime 2001 1 9), tt).
Proof.
  split.
  - exact (proj1 (proj2 (base_temporal_coverage_spans_sources
                           averaging_provider 0%nat)
                    (mk_datetime 2001 1 1, mk_datetime 2001 1 9)
                    (mk_datetime 2001 1 17, mk_datetime 2001 1 25)
                    eq_refl eq_refl)).
  - exact (proj1 (proj2 (base_temporal_coverage_spans_sources
                           unsorted_provider tt)
                    (mk_datetime 2001 1 9, mk_datetime 2001 1 17)
                    (mk_datetime 2001 1 1, mk_datetime 2001 1 9)
                    eq_refl eq_refl)).
Defined.

(* ===================================================================== *)
(** * Further properties: the reader of a cube *)
(* ===================================================================== *)

(** X16.  [Cube.data] makes the reader once and keeps it: a second
    access returns the same reader whatever the data directory holds by
    then.  Closing the cube drops the reader and marks the cube closed;
    after that [update] raises an [IOError] without touching the store,
    but [data] does not look at the closed mark: it makes a new reader,
    all of whose slots are unopened. *)
Theorem data_is_cached_and_survives_close c :
  (forall entries_1 entries_2,
     let '(d, c1) := Cube_data c entries_1 in
     Cube_data c1 entries_2 = (d, c1))
  /\ (forall d hs pre,
        _data c = Some d ->
        _datasets d = map Some pre ->
        let '(r, c', hs') := Cube_close c hs in
        r = Ok tt /\ _closed c' = true /\ _data c' = None
        /\ (forall (P : Type) accepts_attr
                   (provider : CubeSourceProvider P) s,
              update accepts_attr c' provider s
              = (Raised (IOError "cube has been closed"), s))
        /\ (forall entries,
              let '(d', c'') := Cube_data c' entries in
              d' = CubeData_init (_config c) (_base_dir c) entries
              /\ _closed c'' = true
              /\ Forall (fun slot => slot = None) (_datasets d'))).
Proof.
  split.
  - intros entries_1 entries_2. unfold Cube_data.
    destruct (_data c) as [d |] eqn:E.
    + rewrite E. reflexivity.
    + reflexivity.
  - intros d hs pre Hd Hslots. unfold Cube_close. rewrite Hd.
    unfold CubeData_close, _close_datasets. rewrite Hslots.
    rewrite close_from_all_opened.
    split; [reflexivity |]. split; [reflexivity |]. split; [reflexivity |].
    split; [intros; reflexivity |].
    intros entries. unfold Cube_data. cbn [_data _config _base_dir _closed].
    split; [reflexivity |]. split; [reflexivity |].
    unfold CubeData_init. cbn [_datasets].
    apply Forall_forall. intros slot Hslot.
    apply elem_of_replicate in Hslot. apply Hslot.
Qed.

Lemma data_is_cached_and_survives_close_witness :
  let '(r, c', hs') :=
    Cube_close (mkCube "testcube" default_config false
                  (Some (set_slot (set_slot two_variable_reader 0
                                     (Some 0%nat) (Some 0%nat))
                                  1 (Some 1%nat) (Some 1%nat))))
               (mkHandles 2%nat {[ 0%nat; 1%nat ]}) in
  r = Ok tt /\ _closed c' = true /\ _data c' = None.
Proof.
  pose proof (proj2 (data_is_cached_and_survives_close
                (mkCube "testcube" default_config false
                   (Some (set_slot (set_slot two_variable_reader 0
                                      (Some 0%nat) (Some 0%nat))
                                   1 (Some 1%nat) (Some 1%nat)))))
              _ (mkHandles 2%nat {[ 0%nat; 1%nat ]}) [0%nat; 1%nat]
              eq_refl eq_refl) as H.
  destruct (Cube_close _ _) as [[r c'] hs'].
  destruct H as (H1 & H2 & H3 & _).
  split; [exact H1 |]. split; [exact H2 | exact H3].
Defined.

(* ===================================================================== *)
(** * Further properties: names that are not variables *)
(* ===================================================================== *)

(** X17.  A string that is not a variable name is taken for an iterable
    of names, one per character.  So the empty string, like the empty
    sequence, names no variable at all: with otherwise accepted
    arguments [get] returns an empty list and opens nothing.  A
    non-empty unknown string is reported as a [ValueError], provided no
    variable has a one-character name. *)
Theorem unknown_name_is_read_by_character d s :
  _var_name_to_var_index d !! s = None ->
  _get_var_indices d (PStr s)
  = resolve_items d
      (map (fun a => PStr (String a EmptyString)) (list_ascii_of_string s))
      []
  /\ (s = EmptyString -> _get_var_indices d (PStr s) = Ok [])
  /\ (s <> EmptyString ->
      (forall a, _var_name_to_var_index d !! String a EmptyString = None) ->
      _get_var_indices d (PStr s) = Raised illegal_variable)
  /\ _get_var_indices d (PSeq []) = Ok []
  /\ (forall variable time latitude longitude st sy sx hs,
        get_plan d variable time latitude longitude = Ok ([], st, sy, sx) ->
        get variable time latitude longitude (d, hs) = (Ok [], (d, hs))).
Proof.
  intros Hs.
  assert (Hiter : _get_var_indices d (PStr s)
                  = resolve_items d
                      (map (fun a => PStr (String a EmptyString))
                           (list_ascii_of_string s)) []).
  { unfold _get_var_indices. cbn [lookup_name lookup_index py_iter].
    rewrite Hs. reflexivity. }
  split; [exact Hiter |]. split; [| split; [| split]].
  - intros ->. rewrite Hiter. reflexivity.
  - intros Hne Hchars. rewrite Hiter.
    destruct s as [| a s']; [contradiction |].
    cbn [list_ascii_of_string map resolve_items lookup_name lookup_index].
    rewrite Hchars. reflexivity.
  - reflexivity.
  - intros variable time latitude longitude st sy sx hs Hplan.
    unfold get. rewrite Hplan. reflexivity.
Qed.

Lemma unknown_name_is_read_by_character_witness :
  _get_var_indices two_variable_reader (PStr EmptyString) = Ok []
  /\ _get_var_indices two_variable_reader (PStr "NDVI")
     = Raised illegal_variable.
Proof.
  split.
  - apply (proj1 (proj2 (unknown_name_is_read_by_character
                           two_variable_reader EmptyString eq_refl))).
    reflexivity.
  - apply (proj1 (proj2 (proj2 (unknown_name_is_read_by_character
                                  two_variable_reader "NDVI" eq_refl)))).
    + discriminate.
    + intros a. apply not_elem_of_dom.
      replace (dom (_var_name_to_var_index two_variable_reader))
        with ({[ "FAPAR"; "LAI" ]} : gset string)
        by (vm_compute; reflexivity).
      intros H. apply elem_of_union in H.
      destruct H as [H | H]; apply elem_of_singleton in H; discriminate H.
Defined.

(* ===================================================================== *)
(** * Binary64: rounding is monotone *)
(* ===================================================================== *)

Lemma two_not_zero : ~ (2 == 0)%Q.
Proof. intros H. discriminate H. Qed.

Lemma pow2_pos k : (0 < B64.pow2 k)%Q.
Proof. apply Qpower_0_lt. reflexivity. Qed.

Lemma pow2_add a b : (B64.pow2 (a + b) == B64.pow2 a * B64.pow2 b)%Q.
Proof. apply Qpower_plus, two_not_zero. Qed.

Lemma pow2_le a b : a <= b -> (B64.pow2 a <= B64.pow2 b)%Q.
Proof. intros H. apply Qpower_le_compat_l; [exact H | discriminate]. Qed.

Lemma pow2_lt_inv a b : (B64.pow2 a < B64.pow2 b)%Q -> a < b.
Proof. intros H. apply (Qpower_lt_compat_l_inv 2); [exact H | reflexivity]. Qed.

Lemma pow2_inject k : 0 <= k -> (B64.pow2 k == inject_Z (2 ^ k))%Q.
Proof. intros H. unfold B64.pow2. rewrite Zpower_Qpower by exact H. reflexivity. Qed.

(** [ilog2] is the position of the leading bit. *)
Lemma ilog2_spec q :
  (0 < q)%Q ->
  (B64.pow2 (B64.ilog2 q) <= q /\ q < B64.pow2 (B64.ilog2 q + 1))%Q.
Proof.
  destruct q as [n d]. intros Hq.
  assert (Hn : 0 < n).
  { unfold Qlt in Hq. cbn in Hq. lia. }
  unfold B64.ilog2. cbn [Qnum Qden].
  set (a := Z.log2 n). set (b := Z.log2 (Zpos d)).
  destruct (Z.log2_spec n Hn) as [Ha1 Ha2]. fold a in Ha1, Ha2.
  destruct (Z.log2_spec (Zpos d) ltac:(lia)) as [Hb1 Hb2]. fold b in Hb1, Hb2.
  assert (Ha0 : 0 <= a) by apply Z.log2_nonneg.
  assert (Hb0 : 0 <= b) by apply Z.log2_nonneg.
  assert (Hd : (0 < inject_Z (Zpos d))%Q) by reflexivity.
  assert (Hq' : (n # d == inject_Z n / inject_Z (Zpos d))%Q)
    by apply Qmake_Qdiv.
  assert (Hup : (n # d < B64.pow2 (a - b + 1))%Q).
  { rewrite Hq'. apply Qlt_shift_div_r; [exact Hd |].
    apply Qlt_le_trans with (inject_Z (2 ^ Z.succ a)).
    - rewrite <- Zlt_Qlt. exact Ha2.
    - rewrite <- pow2_inject by lia.
      replace (Z.succ a) with ((a - b + 1) + b) by lia.
      rewrite pow2_add. apply Qmult_le_l; [apply pow2_pos |].
      rewrite pow2_inject by exact Hb0. rewrite <- Zle_Qle. exact Hb1. }
  assert (Hlo : (B64.pow2 (a - b - 1) <= n # d)%Q).
  { rewrite Hq'. apply Qle_shift_div_l; [exact Hd |].
    apply Qle_trans with (inject_Z (2 ^ a)).
    - rewrite <- pow2_inject by exact Ha0.
      replace a with ((a - b - 1) + Z.succ b) at 2 by lia.
      rewrite pow2_add. apply Qmult_le_l; [apply pow2_pos |].
      rewrite pow2_inject by lia. rewrite <- Zle_Qle. lia.
    - rewrite <- Zle_Qle. exact Ha1. }
  destruct (Qleb (B64.pow2 (a - b)) (n # d)) eqn:E.
  - apply Qleb_le in E. split; [exact E | exact Hup].
  - apply Qleb_gt in E. split; [exact Hlo |].
    replace (a - b - 1 + 1) with (a - b) by lia. exact E.
Qed.


Lemma ilog2_monotone q1 q2 :
  (0 < q1)%Q -> (q1 <= q2)%Q -> B64.ilog2 q1 <= B64.ilog2 q2.
Proof.
  intros H1 Hle.
  assert (H2 : (0 < q2)%Q) by (eapply Qlt_le_trans; eassumption).
  destruct (ilog2_spec q1 H1) as [Ha _].
  destruct (ilog2_spec q2 H2) as [_ Hb].
  assert (B64.ilog2 q1 < B64.ilog2 q2 + 1); [| lia].
  apply pow2_lt_inv.
  eapply Qle_lt_trans; [exact Ha |].
  eapply Qle_lt_trans; [exact Hle | exact Hb].
Qed.

Lemma py_round_zero (q : Q) : (q == 0)%Q -> py_round q = 0.
Proof. intros H. apply (py_round_of_integer q 0). exact H. Qed.

Lemma round_to_monotone e a1 a2 :
  (a1 <= a2)%Q -> (B64.round_to e a1 <= B64.round_to e a2)%Q.
Proof.
  intros H. unfold B64.round_to.
  apply Qmult_le_compat_r; [| apply Qlt_le_weak, pow2_pos].
  rewrite <- Zle_Qle. apply py_round_monotone.
  unfold Qdiv. apply Qmult_le_compat_r; [exact H |].
  apply Qlt_le_weak, Qinv_lt_0_compat, pow2_pos.
Qed.

Lemma round_to_zero e a : (a == 0)%Q -> (B64.round_to e a == 0)%Q.
Proof.
  intros H. unfold B64.round_to.
  rewrite (py_round_zero (a / B64.pow2 e)); [ring |].
  rewrite H. unfold Qdiv. ring.
Qed.

Lemma round_to_nonneg e a : (0 <= a)%Q -> (0 <= B64.round_to e a)%Q.
Proof.
  intros H. rewrite <- (round_to_zero e 0) by reflexivity.
  apply round_to_monotone. exact H.
Qed.

(** A power of two at or above the last place is kept. *)
Lemma round_to_pow2 e L : e <= L -> (B64.round_to e (B64.pow2 L) == B64.pow2 L)%Q.
Proof.
  intros H. unfold B64.round_to.
  assert (Hq : (B64.pow2 L / B64.pow2 e == inject_Z (2 ^ (L - e)))%Q).
  { rewrite <- pow2_inject by lia.
    replace L with ((L - e) + e) at 1 by lia. rewrite pow2_add.
    field. pose proof (pow2_pos e). lra. }
  rewrite (py_round_of_integer _ _ Hq).
  rewrite <- pow2_inject by lia. rewrite <- pow2_add.
  replace (L - e + e) with L by lia. reflexivity.
Qed.

Lemma nearest_magnitude_nonneg a : (0 <= a)%Q -> (0 <= B64.nearest_magnitude a)%Q.
Proof. apply round_to_nonneg. Qed.

Lemma nearest_magnitude_monotone a1 a2 :
  (0 <= a1)%Q -> (a1 <= a2)%Q ->
  (B64.nearest_magnitude a1 <= B64.nearest_magnitude a2)%Q.
Proof.
  intros H0 Hle.
  assert (H2 : (0 <= a2)%Q) by (eapply Qle_trans; eassumption).
  destruct (Qlt_le_dec 0 a1) as [Hpos | Hzero].
  2:{ unfold B64.nearest_magnitude at 1.
      rewrite round_to_zero by lra. apply nearest_magnitude_nonneg, H2. }
  assert (Hpos2 : (0 < a2)%Q) by lra.
  pose proof (ilog2_monotone a1 a2 Hpos Hle) as HL.
  unfold B64.nearest_magnitude, B64.exponent.
  set (L1 := B64.ilog2 a1) in *. set (L2 := B64.ilog2 a2) in *.
  destruct (Z.eq_dec (Z.max (L1 - 52) (-1074)) (Z.max (L2 - 52) (-1074)))
    as [E | Hne].
  - rewrite E. apply round_to_monotone, Hle.
  - assert (He2 : Z.max (L2 - 52) (-1074) = L2 - 52) by lia.
    assert (He1 : Z.max (L1 - 52) (-1074) < L2 - 52) by lia.
    assert (HL' : L1 + 1 <= L2) by lia.
    destruct (ilog2_spec a1 Hpos) as [_ Hup]. fold L1 in Hup.
    destruct (ilog2_spec a2 Hpos2) as [Hlo _]. fold L2 in Hlo.
    apply Qle_trans with (B64.pow2 L2).
    + rewrite <- (round_to_pow2 (Z.max (L1 - 52) (-1074)) L2) by lia.
      apply round_to_monotone.
      apply Qle_trans with (B64.pow2 (L1 + 1)); [lra | apply pow2_le, HL'].
    + rewrite He2. rewrite <- (round_to_pow2 (L2 - 52) L2) at 1 by lia.
      apply round_to_monotone, Hlo.
Qed.

(** Rounding to the nearest double preserves the order of the reals. *)
Lemma nearest_monotone q1 q2 :
  (q1 <= q2)%Q -> (B64.nearest q1 <= B64.nearest q2)%Q.
Proof.
  intros Hle. unfold B64.nearest.
  destruct (Qltb q1 0) eqn:E1; destruct (Qltb q2 0) eqn:E2.
  - apply Qltb_lt in E1. apply Qltb_lt in E2.
    apply Qopp_le_compat, nearest_magnitude_monotone; lra.
  - apply Qltb_lt in E1. apply Qltb_ge in E2.
    pose proof (nearest_magnitude_nonneg (- q1) ltac:(lra)).
    pose proof (nearest_magnitude_nonneg q2 E2). lra.
  - apply Qltb_ge in E1. apply Qltb_lt in E2. lra.
  - apply Qltb_ge in E1. apply nearest_magnitude_monotone; assumption.
Qed.

Lemma rnd_fin q r : B64.rnd q = B64.Fin r -> r = B64.nearest q.
Proof.
  unfold B64.rnd. destruct (Qleb _ _); [discriminate |].
  intros H. injection H as <-. reflexivity.
Qed.

Lemma rnd_monotone q1 q2 r1 r2 :
  (q1 <= q2)%Q -> B64.rnd q1 = B64.Fin r1 -> B64.rnd q2 = B64.Fin r2 ->
  (r1 <= r2)%Q.
Proof.
  intros Hle H1 H2. rewrite (rnd_fin _ _ H1), (rnd_fin _ _ H2).
  apply nearest_monotone, Hle.
Qed.

(* ===================================================================== *)
(** * CubeConfig validation *)
(* ===================================================================== *)

(** C6, as amended.  With the interval endpoints as the code evaluates
    them in binary64, constructing a [CubeConfig] raises a [ValueError]
    exactly when [grid_x0 < 0], or [grid_y0 < 0], or the latitude
    interval fails one of the five comparisons (lower endpoint at or
    above the upper one, an endpoint below -90 or above 90), or the
    longitude interval fails them for 180; otherwise construction
    returns the configuration.  Endpoints that evaluate to exactly the
    bounds are accepted. *)
Theorem validate_raises_iff sr x0 y0 w h tr cal rt st et ff cmp
    la1 la2 lo1 lo2 :
  let c := mkCubeConfig sr x0 y0 w h tr cal rt st et ff cmp in
  B64.lat1 c = Ok la1 -> B64.lat2 c = Ok la2 ->
  B64.lon1 c = Ok lo1 -> B64.lon2 c = Ok lo2 ->
  ((exists msg,
      B64.CubeConfig_init sr x0 y0 w h tr cal rt st et ff cmp
      = Raised (ValueError msg))
   <-> (x0 < 0 \/ y0 < 0 \/ B64.bad_interval la1 la2 90 = true
        \/ B64.bad_interval lo1 lo2 180 = true))
  /\ (B64.CubeConfig_init sr x0 y0 w h tr cal rt st et ff cmp = Ok c
      \/ exists msg,
           B64.CubeConfig_init sr x0 y0 w h tr cal rt st et ff cmp
           = Raised (ValueError msg))
  /\ (0 <= x0 -> 0 <= y0 ->
      B64.fle (B64.Fin (-90)) la1 = true -> B64.flt la1 la2 = true ->
      B64.fle la2 (B64.Fin 90) = true ->
      B64.fle (B64.Fin (-180)) lo1 = true -> B64.flt lo1 lo2 = true ->
      B64.fle lo2 (B64.Fin 180) = true ->
      B64.CubeConfig_init sr x0 y0 w h tr cal rt st et ff cmp = Ok c).
Proof.
  intros c H1 H2 H3 H4.
  unfold B64.CubeConfig_init. fold c. unfold B64._validate.
  rewrite H1, H2, H3, H4. cbn [grid_x0 grid_y0 c rbind].
  destruct (Z.ltb_spec x0 0) as [Hx | Hx].
  { split; [| split].
    - split; [intros _; left; exact Hx | intros _; eexists; reflexivity].
    - right. eexists. reflexivity.
    - intros Hx'. lia. }
  destruct (Z.ltb_spec y0 0) as [Hy | Hy].
  { split; [| split].
    - split; [intros _; right; left; exact Hy
             | intros _; eexists; reflexivity].
    - right. eexists. reflexivity.
    - intros _ Hy'. lia. }
  destruct (B64.bad_interval la1 la2 90) eqn:Elat.
  { split; [| split].
    - split; [intros _; right; right; left; reflexivity
             | intros _; eexists; reflexivity].
    - right. eexists. reflexivity.
    - intros _ _ Ha Hb Hc _ _ _. exfalso.
      unfold B64.bad_interval, B64.fge, B64.fle, B64.fgt in *.
      destruct la1 as [a1 | [|] |], la2 as [a2 | [|] |];
        cbn [B64.flt B64.feq orb andb negb] in *;
        try discriminate; qbool; lra. }
  destruct (B64.bad_interval lo1 lo2 180) eqn:Elon.
  { split; [| split].
    - split; [intros _; right; right; right; reflexivity
             | intros _; eexists; reflexivity].
    - right. eexists. reflexivity.
    - intros _ _ _ _ _ Ha Hb Hc. exfalso.
      unfold B64.bad_interval, B64.fge, B64.fle, B64.fgt in *.
      destruct lo1 as [o1 | [|] |], lo2 as [o2 | [|] |];
        cbn [B64.flt B64.feq orb andb negb] in *;
        try discriminate; qbool; lra. }
  split; [| split].
  - split.
    + intros [msg H]. discriminate H.
    + intros [H | [H | [H | H]]]; [lia | lia | discriminate H | discriminate H].
  - left. reflexivity.
  - intros. reflexivity.
Qed.

Lemma validate_raises_iff_witness :
  B64.CubeConfig_init (1 # 4) 0 0 1440 720 8 "gregorian"
    (mk_datetime 2001 1 1) (Some (mk_datetime 2001 1 1))
    (Some (mk_datetime 2011 1 1)) "NETCDF4_CLASSIC" false
  = Ok default_config
  /\ (exists la1 la2 lo1 lo2,
        B64.lat1 default_config = Ok la1 /\ B64.lat2 default_config = Ok la2
        /\ B64.lon1 default_config = Ok lo1
        /\ B64.lon2 default_config = Ok lo2
        /\ B64.feq la1 (B64.Fin (-90)) = true
        /\ B64.feq la2 (B64.Fin 90) = true
        /\ B64.feq lo1 (B64.Fin (-180)) = true
        /\ B64.feq lo2 (B64.Fin 180) = true).
Proof.
  split.
  - refine (proj2 (proj2 (validate_raises_iff (1 # 4) 0 0 1440 720 8
              "gregorian" (mk_datetime 2001 1 1)
              (Some (mk_datetime 2001 1 1)) (Some (mk_datetime 2011 1 1))
              "NETCDF4_CLASSIC" false _ _ _ _
              eq_refl eq_refl eq_refl eq_refl)) _ _ _ _ _ _ _ _);
      first [lia | vm_compute; reflexivity].
  - do 4 eexists. repeat split; vm_compute; reflexivity.
Defined.

(** C6 fails as stated.  A one-cell grid of resolution [1e-17] has the
    real latitude interval [[90 - 1e-17, 90]], which is neither
    degenerate nor out of bounds, and likewise for the longitudes; but
    in binary64 [90 - 1e-17] is [90], the interval is found degenerate
    and the constructor raises. *)
Lemma validate_counterexample :
  B64._validate tiny_config
  = Raised (ValueError
      "illegal combination of grid_y0, grid_height, spatial_res values")
  /\ ~ validate_claim tiny_config.
Proof.
  split; [vm_compute; reflexivity |].
  intros [Hraise _].
  destruct Hraise as [H | [H | [H | H]]].
  - eexists. vm_compute. reflexivity.
  - vm_compute in H. discriminate H.
  - vm_compute in H. discriminate H.
  - unfold bad_interval in H.
    destruct H as [H | [H | H]]; vm_compute in H;
      first [discriminate H | exact (H eq_refl)].
  - unfold bad_interval in H.
    destruct H as [H | [H | H]]; vm_compute in H;
      first [discriminate H | exact (H eq_refl)].
Qed.

(* ===================================================================== *)
(** * Index ranges *)
(* ===================================================================== *)

(** [get_plan], once the arguments are accepted and the indices are
    computed. *)
Lemma get_plan_resolved d variable time latitude longitude
    var_indexes time_range lat_1 lat_2 lon_1 lon_2 i1 i2 y1 y2 x1 x2 W :
  _get_var_indices d variable = Ok var_indexes ->
  _get_time_range time = Ok time_range ->
  B64._get_lat_range latitude = Ok (lat_1, lat_2) ->
  B64._get_lon_range longitude = (lon_1, lon_2) ->
  B64.time_index (cube_config d) (fst time_range) = Ok i1 ->
  B64.time_index (cube_config d) (snd time_range) = Ok i2 ->
  B64.grid_rows (cube_config d) lat_1 lat_2 = Ok (y1, y2) ->
  B64.grid_cols (cube_config d) lon_1 lon_2 = Ok (x1, x2) ->
  B64.global_grid_width (cube_config d) = Ok W ->
  B64.get_plan d variable time latitude longitude
  = if x2 >=? W then Raised dateline_error
    else Ok (var_indexes, select i1 i2, select y1 y2, select x1 x2).
Proof.
  intros Hv Ht Hlat Hlon Hi1 Hi2 Hrows Hcols HW.
  unfold B64.get_plan. rewrite Hv, Ht, Hlat, Hlon.
  cbn [rbind fst snd]. rewrite Hi1, Hi2. cbn [rbind].
  unfold B64.grid_rows in Hrows. unfold B64.grid_cols in Hcols.
  destruct (B64.grid_y_of (cube_config d) lat_2) as [gy1 | e]; [| discriminate].
  destruct (B64.grid_y_of (cube_config d) lat_1) as [gy2 | e]; [| discriminate].
  destruct (B64.grid_x_of (cube_config d) lon_1) as [gx1 | e]; [| discriminate].
  destruct (B64.grid_x_of (cube_config d) lon_2) as [gx2 | e]; [| discriminate].
  cbn [rbind] in *.
  destruct (B64.upper_row (cube_config d) gy1 gy2 lat_1) as [gy2' | e];
    [| discriminate].
  destruct (B64.upper_col (cube_config d) gx1 gx2 lon_2) as [gx2' | e];
    [| discriminate].
  cbn [rbind] in *. injection Hrows as -> ->. injection Hcols as -> ->.
  rewrite HW. reflexivity.
Qed.

(** C4.  On the quarter-degree grid with origin (0, 0), in binary64,
    [get] turns the latitude range [50, 60] into a row range of exactly
    40 rows and the longitude range [10, 30] into a column range of
    exactly 80 columns; for the longitude range [0, 180] the column range
    stops before column 1440, the cell whose left edge evaluates to
    exactly 180.  In general, when the upper row (column) index lies
    above the lower one, it is decremented by one exactly when the edge
    of that row (column), as the code evaluates it, equals the query
    bound; an upper index that is not above the lower one is kept. *)
Theorem get_grid_ranges :
  (forall d variable time var_indexes time_range i1 i2,
     quarter_degree_grid (cube_config d) ->
     _get_var_indices d variable = Ok var_indexes ->
     _get_time_range time = Ok time_range ->
     B64.time_index (cube_config d) (fst time_range) = Ok i1 ->
     B64.time_index (cube_config d) (snd time_range) = Ok i2 ->
     B64.get_plan d variable time (Pair (B64.Fin 50) (B64.Fin 60))
       (Pair (B64.Fin 10) (B64.Fin 30))
     = Ok (var_indexes, select i1 i2, Slice 120 160, Slice 760 840)
     /\ span (Slice 120 160) = 40 /\ span (Slice 760 840) = 80
     /\ B64.get_plan d variable time (Pair (B64.Fin 50) (B64.Fin 60))
          (Pair (B64.Fin 0) (B64.Fin 180))
        = Ok (var_indexes, select i1 i2, Slice 120 160, Slice 720 1440)
     /\ (exists edge, B64.col_edge (cube_config d) 1440 = Ok edge
                      /\ B64.feq edge (B64.Fin 180) = true)
     /\ takes (Slice 720 1440) 1440 = false)
  /\ (forall c lat_1 lat_2 y1 y2,
        B64.grid_y_of c lat_2 = Ok y1 -> B64.grid_y_of c lat_1 = Ok y2 ->
        (y2 > y1 ->
         forall edge, B64.row_edge c y2 = Ok edge ->
           B64.grid_rows c lat_1 lat_2
           = Ok (y1, if B64.feq edge lat_1 then y2 - 1 else y2))
        /\ (y2 <= y1 -> B64.grid_rows c lat_1 lat_2 = Ok (y1, y2)))
  /\ (forall c lon_1 lon_2 x1 x2,
        B64.grid_x_of c lon_1 = Ok x1 -> B64.grid_x_of c lon_2 = Ok x2 ->
        (x2 > x1 ->
         forall edge, B64.col_edge c x2 = Ok edge ->
           B64.grid_cols c lon_1 lon_2
           = Ok (x1, if B64.feq edge lon_2 then x2 - 1 else x2))
        /\ (x2 <= x1 -> B64.grid_cols c lon_1 lon_2 = Ok (x1, x2))).
Proof.
  split; [| split].
  - intros d variable time var_indexes time_range i1 i2 (Hsr & Hx & Hy)
      Hv Ht Hi1 Hi2.
    assert (Hrows : B64.grid_rows (cube_config d) (B64.Fin 50) (B64.Fin 60)
                    = Ok (120, 159)).
    { unfold B64.grid_rows, B64.grid_y_of, B64.upper_row, B64.row_edge,
        B64.times_res, B64.res.
      rewrite Hsr, Hy. vm_compute. reflexivity. }
    assert (Hw : B64.global_grid_width (cube_config d) = Ok 1440).
    { unfold B64.global_grid_width, B64.res. rewrite Hsr.
      vm_compute. reflexivity. }
    assert (Hc1 : B64.grid_cols (cube_config d) (B64.Fin 10) (B64.Fin 30)
                  = Ok (760, 839)).
    { unfold B64.grid_cols, B64.grid_x_of, B64.upper_col, B64.col_edge,
        B64.times_res, B64.res.
      rewrite Hsr, Hx. vm_compute. reflexivity. }
    assert (Hc2 : B64.grid_cols (cube_config d) (B64.Fin 0) (B64.Fin 180)
                  = Ok (720, 1439)).
    { unfold B64.grid_cols, B64.grid_x_of, B64.upper_col, B64.col_edge,
        B64.times_res, B64.res.
      rewrite Hsr, Hx. vm_compute. reflexivity. }
    split; [| split; [reflexivity | split; [reflexivity | split; [| split]]]].
    + rewrite (get_plan_resolved d variable time
                 (Pair (B64.Fin 50) (B64.Fin 60))
                 (Pair (B64.Fin 10) (B64.Fin 30)) var_indexes time_range
                 (B64.Fin 50) (B64.Fin 60) (B64.Fin 10) (B64.Fin 30)
                 i1 i2 120 159 760 839 1440 Hv Ht eq_refl eq_refl
                 Hi1 Hi2 Hrows Hc1 Hw).
      reflexivity.
    + rewrite (get_plan_resolved d variable time
                 (Pair (B64.Fin 50) (B64.Fin 60))
                 (Pair (B64.Fin 0) (B64.Fin 180)) var_indexes time_range
                 (B64.Fin 50) (B64.Fin 60) (B64.Fin 0) (B64.Fin 180)
                 i1 i2 120 159 720 1439 1440 Hv Ht eq_refl eq_refl
                 Hi1 Hi2 Hrows Hc2 Hw).
      reflexivity.
    + unfold B64.col_edge, B64.times_res, B64.res. rewrite Hsr, Hx.
      eexists. split; vm_compute; reflexivity.
    + reflexivity.
  - intros c lat_1 lat_2 y1 y2 H1 H2. unfold B64.grid_rows, B64.upper_row.
    rewrite H1, H2. cbn [rbind]. split.
    + intros Hgt edge He.
      replace (y2 >? y1) with true by (symmetry; apply Z.gtb_lt; lia).
      rewrite He. reflexivity.
    + intros Hle.
      replace (y2 >? y1) with false
        by (symmetry; rewrite Z.gtb_ltb; apply Z.ltb_ge; lia).
      reflexivity.
  - intros c lon_1 lon_2 x1 x2 H1 H2. unfold B64.grid_cols, B64.upper_col.
    rewrite H1, H2. cbn [rbind]. split.
    + intros Hgt edge He.
      replace (x2 >? x1) with true by (symmetry; apply Z.gtb_lt; lia).
      rewrite He. reflexivity.
    + intros Hle.
      replace (x2 >? x1) with false
        by (symmetry; rewrite Z.gtb_ltb; apply Z.ltb_ge; lia).
      reflexivity.
Qed.

Lemma get_grid_ranges_witness :
  B64.get_plan two_variable_reader (PSeq [PStr "FAPAR"; PStr "LAI"])
    (Pair (mk_datetime 2001 1 1) (mk_datetime 2001 2 1))
    (Pair (B64.Fin 50) (B64.Fin 60)) (Pair (B64.Fin 10) (B64.Fin 30))
  = Ok ([0; 1], Slice 0 4, Slice 120 160, Slice 760 840)
  /\ B64.grid_rows default_config (B64.Fin 50) (B64.Fin 60) = Ok (120, 159)
  /\ B64.grid_cols default_config (B64.Fin 0) (B64.Fin 180) = Ok (720, 1439).
Proof.
  split; [| split].
  - apply (proj1 get_grid_ranges two_variable_reader
             (PSeq [PStr "FAPAR"; PStr "LAI"])
             (Pair (mk_datetime 2001 1 1) (mk_datetime 2001 2 1))
             [0; 1] (mk_datetime 2001 1 1, mk_datetime 2001 2 1) 0 3).
    + repeat split.
    + reflexivity.
    + reflexivity.
    + vm_compute. reflexivity.
    + vm_compute. reflexivity.
  - eapply eq_trans.
    + eapply (proj1 (proj1 (proj2 get_grid_ranges) default_config
                       (B64.Fin 50) (B64.Fin 60) 120 160
                       ltac:(vm_compute; reflexivity)
                       ltac:(vm_compute; reflexivity))).
      * lia.
      * vm_compute. reflexivity.
    + vm_compute. reflexivity.
  - eapply eq_trans.
    + eapply (proj1 (proj2 (proj2 get_grid_ranges) default_config
                       (B64.Fin 0) (B64.Fin 180) 720 1440
                       ltac:(vm_compute; reflexivity)
                       ltac:(vm_compute; reflexivity))).
      * lia.
      * vm_compute. reflexivity.
    + vm_compute. reflexivity.
Defined.

(** On a tenth-degree grid the longitude range [0, 0.3] keeps column
    1803: its left edge evaluates to [0.30000000000001137], not to the
    double of [0.3]. *)
Example tenth_degree_edge_is_inexact :
  B64.grid_cols tenth_degree_config (B64.Fin 0) (B64.of_Q (3 # 10))
  = Ok (1800, 1803)
  /\ (exists edge, B64.col_edge tenth_degree_config 1803 = Ok (B64.Fin edge)
                   /\ (3 # 10 < edge)%Q
                   /\ (edge < (3 # 10) + (1 # 10000000000000))%Q).
Proof.
  split; [vm_compute; reflexivity |].
  eexists. split; [vm_compute; reflexivity |].
  split; vm_compute; reflexivity.
Qed.

(* ===================================================================== *)
(** * Longitude spans across the date line *)
(* ===================================================================== *)











(* ===================================================================== *)
(** * Further properties: the geographical boundary *)
(* ===================================================================== *)

Lemma validate_ok_endpoints c :
  B64._validate c = Ok tt ->
  exists la1 la2 lo1 lo2,
    B64.lat1 c = Ok la1 /\ B64.lat2 c = Ok la2
    /\ B64.lon1 c = Ok lo1 /\ B64.lon2 c = Ok lo2
    /\ B64.bad_interval la1 la2 90 = false
    /\ B64.bad_interval lo1 lo2 180 = false.
Proof.
  unfold B64._validate.
  destruct (grid_x0 c <? 0); [discriminate |].
  destruct (grid_y0 c <? 0); [discriminate |].
  destruct (B64.lat1 c) as [la1 | e]; [| discriminate].
  destruct (B64.lat2 c) as [la2 | e]; [| discriminate].
  cbn [rbind].
  destruct (B64.bad_interval la1 la2 90) eqn:Elat; [discriminate |].
  destruct (B64.lon1 c) as [lo1 | e]; [| discriminate].
  destruct (B64.lon2 c) as [lo2 | e]; [| discriminate].
  cbn [rbind].
  destruct (B64.bad_interval lo1 lo2 180) eqn:Elon; [discriminate |].
  intros _. exists la1, la2, lo1, lo2. repeat split; assumption.
Qed.

(** X1.  The geographical boundary of a validated configuration, in
    binary64.  Its lower-left longitude and its upper-right latitude are
    the endpoints [lon1] and [lat2] that [_validate] has tested, so they
    are neither below nor above the bounds of the globe.  The other two
    coordinates are evaluated by other expressions than the endpoints
    [lat1] and [lon2] that were tested, and may leave the globe: the
    tenth-degree grid with [grid_y0 = 2] and [grid_height = 1798] is
    accepted, and its lower-left latitude is below -90. *)
Theorem geo_bounds_and_validation :
  (forall c ll ur,
     B64._validate c = Ok tt ->
     B64.geo_bounds c = Ok (ll, ur) ->
     B64.lon1 c = Ok (fst ll) /\ B64.lat2 c = Ok (snd ur)
     /\ B64.flt (fst ll) (B64.Fin (-180)) = false
     /\ B64.fgt (fst ll) (B64.Fin 180) = false
     /\ B64.flt (snd ur) (B64.Fin (-90)) = false
     /\ B64.fgt (snd ur) (B64.Fin 90) = false)
  /\ (B64._validate tenth_degree_config = Ok tt
      /\ exists ll ur,
           B64.geo_bounds tenth_degree_config = Ok (ll, ur)
           /\ B64.flt (snd ll) (B64.Fin (-90)) = true).
Proof.
  split.
  - intros c ll ur Hv Hg.
    destruct (validate_ok_endpoints c Hv)
      as (la1 & la2 & lo1 & lo2 & H1 & H2 & H3 & H4 & Hlat & Hlon).
    unfold B64.geo_bounds in Hg.
    change (B64.easting c) with (B64.lon1 c) in Hg.
    change (B64.northing c) with (B64.lat2 c) in Hg.
    rewrite H3, H2 in Hg. cbn [rbind] in Hg.
    destruct (B64.times_res (grid_height c) c) as [dy | e]; [| discriminate].
    destruct (B64.times_res (grid_width c) c) as [dx | e]; [| discriminate].
    cbn [rbind] in Hg. injection Hg as <- <-. cbn [fst snd].
    unfold B64.bad_interval in Hlat, Hlon.
    apply orb_false_iff in Hlat. destruct Hlat as [Hlat Ha].
    apply orb_false_iff in Hlat. destruct Hlat as [Hlat Hb].
    apply orb_false_iff in Hlon. destruct Hlon as [Hlon _].
    apply orb_false_iff in Hlon. destruct Hlon as [Hlon _].
    apply orb_false_iff in Hlon. destruct Hlon as [Hlon Hc].
    apply orb_false_iff in Hlon. destruct Hlon as [_ Hd].
    repeat split; assumption.
  - split; [vm_compute; reflexivity |].
    do 2 eexists. split; vm_compute; reflexivity.
Qed.

Lemma geo_bounds_and_validation_witness :
  exists ll ur,
    B64.geo_bounds default_config = Ok (ll, ur)
    /\ B64.lon1 default_config = Ok (fst ll)
    /\ B64.lat2 default_config = Ok (snd ur)
    /\ B64.flt (fst ll) (B64.Fin (-180)) = false
    /\ B64.fgt (fst ll) (B64.Fin 180) = false
    /\ B64.flt (snd ur) (B64.Fin (-90)) = false
    /\ B64.fgt (snd ur) (B64.Fin 90) = false.
Proof.
  do 2 eexists. split; [vm_compute; reflexivity |].
  apply (proj1 geo_bounds_and_validation default_config);
    vm_compute; reflexivity.
Defined.
